(** * Folder-to-session ingestion pipeline of the photobooth gallery server

    A shallow embedding of [server/watcher.js]: the media classifier, the
    tree scanner, the consistency validator, the session reconciler
    ([scanAndProcessSession]) with the SQLite statements it issues, the
    debounce coordinator ([processPhotoSession]) running on Node's event
    loop, and the startup sweep ([scanExistingFolders]); and of the code
    around it that reads and writes the same tables and folders: the session
    routes ([routes/sessions.js]), the public photo list, the daily cleanup
    ([cleanup.js]) and the choice of the watched folder
    ([watchFolderHelper.js], the settings route).

    Conventions.
    - File names are [string]s; JavaScript code units outside ASCII are not
      distinguished and [toLowerCase] folds the ASCII letters only.
    - Everything the code reads from the outside (directory listings, image
      metadata, the outcome of a write, the clock, the random access token)
      is an explicit argument: a [FsNode] per directory read and a [World]
      per reconciliation.
    - A statement that can throw returns a [result]; [try]/[catch] is a
      [match] on it. *)

From Stdlib Require Import ZArith String Ascii List Bool Lia DecimalString DecimalNat Sorted
  Permutation.
From stdpp Require Import gmap strings list.
Import ListNotations.

Local Open Scope string_scope.
Local Open Scope Z_scope.

(** ** Results of fallible statements *)

Inductive result (A E : Type) : Type :=
| Ok (a : A)
| Err (e : E).
Arguments Ok {A E} a.
Arguments Err {A E} e.

(** ** Media classifier *)

Module Media.

Definition SUPPORTED_IMAGE_TYPES : list string :=
  [".jpg"; ".jpeg"; ".png"; ".gif"; ".webp"].
Definition SUPPORTED_VIDEO_TYPES : list string :=
  [".mp4"; ".mov"; ".avi"; ".webm"].
Definition SUPPORTED_MEDIA_TYPES : list string :=
  SUPPORTED_IMAGE_TYPES ++ SUPPORTED_VIDEO_TYPES.

(** [Array.prototype.includes] on an array of strings. *)
Definition includes (xs : list string) (x : string) : bool :=
  existsb (String.eqb x) xs.

(** [String.prototype.startsWith]. *)
Definition startsWith (s p : string) : bool := String.prefix p s.

Definition lower_ascii (c : ascii) : ascii :=
  let n := nat_of_ascii c in
  if ((65 <=? n) && (n <=? 90))%nat then ascii_of_nat (n + 32) else c.

(** [String.prototype.toLowerCase], on ASCII. *)
Fixpoint toLowerCase (s : string) : string :=
  match s with
  | EmptyString => EmptyString
  | String c r => String (lower_ascii c) (toLowerCase r)
  end.

(** [path.extname] of Node (POSIX flavour): one backward pass over the
    code units, with the loop variables of the library. *)
Record ExtScan := {
  startDot : Z;
  startPart : Z;
  endIdx : Z;
  matchedSlash : bool;
  preDotState : Z
}.

Definition extInit : ExtScan :=
  {| startDot := -1; startPart := 0; endIdx := -1;
     matchedSlash := true; preDotState := 0 |}.

Definition CHAR_FORWARD_SLASH : ascii := "/"%char.
Definition CHAR_DOT : ascii := "."%char.

(** [rev_chars] holds the code units at indices [i], [i-1], ..., [0]. *)
Fixpoint extLoop (rev_chars : list ascii) (i : Z) (st : ExtScan) : ExtScan :=
  match rev_chars with
  | [] => st
  | code :: rest =>
      if Ascii.eqb code CHAR_FORWARD_SLASH then
        if negb (matchedSlash st) then
          {| startDot := startDot st; startPart := i + 1; endIdx := endIdx st;
             matchedSlash := matchedSlash st; preDotState := preDotState st |}
        else extLoop rest (i - 1) st
      else
        let st1 :=
          if endIdx st =? -1 then
            {| startDot := startDot st; startPart := startPart st;
               endIdx := i + 1; matchedSlash := false;
               preDotState := preDotState st |}
          else st in
        let st2 :=
          if Ascii.eqb code CHAR_DOT then
            if startDot st1 =? -1 then
              {| startDot := i; startPart := startPart st1;
                 endIdx := endIdx st1; matchedSlash := matchedSlash st1;
                 preDotState := preDotState st1 |}
            else if negb (preDotState st1 =? 1) then
              {| startDot := startDot st1; startPart := startPart st1;
                 endIdx := endIdx st1; matchedSlash := matchedSlash st1;
                 preDotState := 1 |}
            else st1
          else if negb (startDot st1 =? -1) then
            {| startDot := startDot st1; startPart := startPart st1;
               endIdx := endIdx st1; matchedSlash := matchedSlash st1;
               preDotState := -1 |}
          else st1 in
        extLoop rest (i - 1) st2
  end.

Definition extname (path : string) : string :=
  let chars := list_ascii_of_string path in
  let st := extLoop (rev chars) (Z.of_nat (List.length chars) - 1) extInit in
  if (startDot st =? -1) || (endIdx st =? -1) || (preDotState st =? 0)
     || ((preDotState st =? 1) && (startDot st =? endIdx st - 1)
         && (startDot st =? startPart st + 1))
  then ""
  else String.substring (Z.to_nat (startDot st))
                        (Z.to_nat (endIdx st - startDot st)) path.

Definition isVideoFile (filename : string) : bool :=
  let ext := toLowerCase (extname filename) in
  includes SUPPORTED_VIDEO_TYPES ext.

Definition isImageFile (filename : string) : bool :=
  let ext := toLowerCase (extname filename) in
  includes SUPPORTED_IMAGE_TYPES ext.

End Media.

(** ** Tree scanner and consistency validator *)

Module Scanner.
Import Media.

Definition MIN_FILES_PER_SESSION : nat := 2.

(** What [fs.statSync] says of one directory entry. *)
Inductive StatResult := StatFile | StatDirectory | StatThrows.

Record DirEntry := { d_name : string; d_stat : StatResult }.

(** What one directory read observes at [folderPath]; [items] come in
    the order [fs.readdirSync] returns them. *)
Inductive FsNode :=
| Missing
| NotADirectory
| ReaddirThrows
| Directory (items : list DirEntry).

Record ScanResult := {
  path : string;
  files : list string;
  totalFiles : nat;
  isValid : bool
}.

Definition systemFolders : list string :=
  [".DS_Store"; ".Spotlight-V100"; ".Trashes"; ".TemporaryItems"; "Thumbs.db"].

(** The [for (const item of items)] loop; [acc] is [result.files].
    [Err] carries the files pushed before [statSync] threw. *)
Fixpoint scanItems (items : list DirEntry) (acc : list string)
  : result (list string) (list string) :=
  match items with
  | [] => Ok acc
  | it :: rest =>
      let item := d_name it in
      if startsWith item "_" || startsWith item "." then scanItems rest acc
      else if includes systemFolders item then scanItems rest acc
      else
        match d_stat it with
        | StatThrows => Err acc
        | StatFile =>
            let ext := toLowerCase (extname item) in
            if includes SUPPORTED_MEDIA_TYPES ext
            then scanItems rest (acc ++ [item])
            else scanItems rest acc
        | StatDirectory => scanItems rest acc
        end
  end.

Definition scanFolderTree (folderPath : string) (node : FsNode) : ScanResult :=
  let result0 :=
    {| path := folderPath; files := []; totalFiles := 0%nat; isValid := false |} in
  match node with
  | Missing | NotADirectory | ReaddirThrows => result0
  | Directory items =>
      match scanItems items [] with
      | Ok fs =>
          {| path := folderPath; files := fs;
             totalFiles := List.length fs;
             isValid := (MIN_FILES_PER_SESSION <=? List.length fs)%nat |}
      | Err fs =>
          {| path := folderPath; files := fs; totalFiles := 0%nat;
             isValid := false |}
      end
  end.

Definition validateFolderConsistency
    (folderPath : string) (node : FsNode) (expectedCount : nat) : bool :=
  let currentScan := scanFolderTree folderPath node in
  if negb (totalFiles currentScan =? expectedCount)%nat then false
  else if (totalFiles currentScan <? MIN_FILES_PER_SESSION)%nat then false
  else true.

End Scanner.

(** ** Resize geometry of the image library

    The options object the code hands to [sharp(...).resize(w, h, opts)],
    and how much of the source each [fit] mode lets through. *)

Module Sharp.

Inductive Fit := cover | contain | fill | inside | outside.

Inductive Position := centre.

Record ResizeOptions := {
  r_width : Z;
  r_height : Z;
  r_fit : Fit;
  r_position : Position
}.

(** Width and height, in source pixels, of the part of a [w] x [h]
    source that reaches the output when resized to [W] x [H].
    [cover] scales the source until it covers the whole target and
    clips the overflow around the centre; the other modes scale
    (and pad or stretch) but keep every source row and column. *)
Definition visible_source (f : Fit) (w h W H : Z) : Z * Z :=
  match f with
  | cover =>
      if W * h <=? H * w
      then (h * W / H, h)    (* source relatively wider: columns clipped *)
      else (w, w * H / W)    (* source relatively taller: rows clipped *)
  | contain | fill | inside | outside => (w, h)
  end.

Definition discards_content (f : Fit) (w h W H : Z) : bool :=
  let '(vw, vh) := visible_source f w h W H in
  (vw <? w) || (vh <? h).

End Sharp.

(** ** The persisted store: [sessions] and [photos] tables *)

Module Store.

Inductive Status := active | completed | deleted.

Record Session := {
  session_uuid : string;
  folder_name : string;
  layout_used : string;
  created_at : string;
  status : Status;
  is_public : bool;
  access_token : string;
  updated_at : string;
  deleted_at : option string
}.

Record Photo := {
  p_session_uuid : string;
  photo_number : nat;
  original_path : string;
  processed_path : string;
  upload_timestamp : string
}.

(** Rows in insertion order. *)
Record Db := {
  sessions : list Session;
  photos : list Photo
}.

Inductive DbError :=
| UniqueViolation      (* UNIQUE(session_uuid), UNIQUE(session_uuid, photo_number) *)
| ForeignKeyViolation  (* photos.session_uuid REFERENCES sessions(session_uuid) *)
| IoFault.             (* SQLITE_BUSY, SQLITE_FULL, SQLITE_IOERR, ... *)

Definition has_uuid (id : string) (s : Session) : bool :=
  String.eqb (session_uuid s) id.

Definition of_session (id : string) (p : Photo) : bool :=
  String.eqb (p_session_uuid p) id.

(** [SELECT * FROM sessions WHERE session_uuid = ?] with [.get]. *)
Definition selectSession (id : string) (db : Db) : option Session :=
  List.find (has_uuid id) (sessions db).

(** [INSERT INTO sessions (...) VALUES (...)]; [fault] says that the
    engine fails this statement for a reason of its own. *)
Definition insertSession (fault : bool) (row : Session) (db : Db)
  : result Db DbError :=
  if fault then Err IoFault
  else if existsb (has_uuid (session_uuid row)) (sessions db)
  then Err UniqueViolation
  else Ok {| sessions := sessions db ++ [row]; photos := photos db |}.

Definition set_active (now : string) (s : Session) : Session :=
  {| session_uuid := session_uuid s; folder_name := folder_name s;
     layout_used := layout_used s; created_at := created_at s;
     status := active; is_public := is_public s;
     access_token := access_token s; updated_at := now;
     deleted_at := deleted_at s |}.

(** The store once [UPDATE sessions SET status = 'active', updated_at =
    CURRENT_TIMESTAMP WHERE session_uuid = ?] has run; [now] is the
    engine's [CURRENT_TIMESTAMP]. *)
Definition activated (id now : string) (db : Db) : Db :=
  {| sessions :=
       map (fun s => if has_uuid id s then set_active now s else s) (sessions db);
     photos := photos db |}.

(** That [UPDATE], prepared and run; [fault] says that the engine fails
    the statement (a locked or full database, a column the table lacks). *)
Definition activateSession (fault : bool) (id now : string) (db : Db)
  : result Db DbError :=
  if fault then Err IoFault else Ok (activated id now db).

(** [DELETE FROM photos WHERE session_uuid = ?]. *)
Definition deletePhotos (id : string) (db : Db) : Db :=
  {| sessions := sessions db;
     photos := List.filter (fun p => negb (of_session id p)) (photos db) |}.

(** [INSERT INTO photos (...) VALUES (...)]; [fault] says that the engine
    fails this statement for a reason of its own. *)
Definition insertPhoto (fault : bool) (row : Photo) (db : Db) : result Db DbError :=
  if fault then Err IoFault
  else if negb (existsb (has_uuid (p_session_uuid row)) (sessions db))
  then Err ForeignKeyViolation
  else if existsb (fun p => of_session (p_session_uuid row) p
                            && (photo_number p =? photo_number row)%nat)
                  (photos db)
  then Err UniqueViolation
  else Ok {| sessions := sessions db; photos := photos db ++ [row] |}.

(** [db.transaction(fn)]: commit what [fn] did when it returns, roll
    back to the state at BEGIN when it throws (and rethrow). *)
Definition transaction {A : Type}
    (fn : Db -> result (Db * A) DbError) (db : Db) : Db * result A DbError :=
  match fn db with
  | Ok (db', a) => (db', Ok a)
  | Err e => (db, Err e)
  end.

Definition photosOf (id : string) (db : Db) : list Photo :=
  List.filter (of_session id) (photos db).

Definition photosNotOf (id : string) (db : Db) : list Photo :=
  List.filter (fun p => negb (of_session id p)) (photos db).

End Store.

(** ** Session reconciler *)

Module Reconciler.
Import Media Scanner Sharp Store.

Definition GALLERY_FOLDER : string := "public/gallery".

(** [path.join] of two segments that need no normalisation. *)
Definition path_join (a b : string) : string := a ++ "/" ++ b.

(** Template-literal rendering of a number. *)
Definition show_nat (n : nat) : string :=
  NilEmpty.string_of_uint (Nat.to_uint n).

(** Everything one run of [scanAndProcessSession] reads from outside. *)
Record World := {
  w_dir_ok : bool;                       (* existsSync && isDirectory *)
  w_final_scan : FsNode;                 (* the directory as the final scan reads it *)
  w_now : string;                        (* new Date().toISOString() *)
  w_sql_now : string;                    (* CURRENT_TIMESTAMP of the engine *)
  w_session_fault : bool;                (* the INSERT or UPDATE of the session row throws *)
  w_token : string;                      (* crypto.randomBytes(16).toString('hex') *)
  w_qr_ok : bool;                        (* QRCode.toFile resolves *)
  w_mkdir_ok : bool;                     (* the gallery folder exists or can be made *)
  w_copy_ok : string -> bool;            (* fs.copyFileSync succeeds *)
  w_poster_ok : string -> bool;          (* the placeholder poster is written *)
  w_metadata : string -> option (Z * Z); (* width, height; None: rejects or times out *)
  w_thumbnail_ok : string -> bool;       (* resize + jpeg + toFile wins the 30 s race *)
  w_insert_fault : nat -> bool;          (* the insert of photo_number n fails *)
  w_gallery_ok : bool                    (* generateGalleryHTML resolves *)
}.

Inductive Effect :=
| SessionInserted (sessionId : string)
| SessionActivated (sessionId : string) (ok : bool)   (* the UPDATE; ok: it did not throw *)
| QrCodeWritten (qrPath sessionId token : string) (ok : bool)
| GalleryDirEnsured (galleryPath : string) (ok : bool)
| FileCopied (src dst : string) (ok : bool)
| PosterSynthesised (dst : string) (ok : bool)
| MetadataRead (src : string) (dims : option (Z * Z))
| ThumbnailResized (src dst : string) (opts : ResizeOptions) (ok : bool)
| PhotosReplaced (sessionId : string) (count : nat)
| GalleryHtmlWritten (sessionId : string) (ok : bool).

Definition is_transform (e : Effect) : bool :=
  match e with
  | FileCopied _ _ _ | PosterSynthesised _ _ | MetadataRead _ _
  | ThumbnailResized _ _ _ _ => true
  | _ => false
  end.

Inductive SkipReason := InsufficientFiles | InvalidFolder | FinalScanFailed.

Inductive Stage := AtSessionInsert | AtGalleryDir | AtTransaction | AtGalleryHtml.

Inductive Outcome :=
| Skipped (why : SkipReason)                     (* one of the early returns *)
| Completed (sessionId : string) (finalCount : nat)  (* the try block ran to its end *)
| Errored (stage : Stage).                       (* the outer catch logged an error *)

(** The options of both thumbnail calls:
    [.resize(1920, 1080, { fit: 'cover', position: 'center' })]. *)
Definition thumbnailResize : ResizeOptions :=
  {| r_width := 1920; r_height := 1080; r_fit := cover; r_position := centre |}.

(** Body of the per-file [try] block: does the file get pushed onto
    [validatedFiles], and what was attempted. *)
Definition transformFile (w : World) (folderPath galleryPath photoFile : string)
    (photoNumber : nat) : bool * list Effect :=
  let photoPath := path_join folderPath photoFile in
  let thumbnailPath :=
    path_join galleryPath ("photo_" ++ show_nat photoNumber ++ ".jpg") in
  if isVideoFile photoFile then
    let videoDestPath :=
      path_join galleryPath ("photo_" ++ show_nat photoNumber ++ extname photoFile) in
    if w_copy_ok w photoFile then
      (w_poster_ok w photoFile,
       [FileCopied photoPath videoDestPath true;
        PosterSynthesised thumbnailPath (w_poster_ok w photoFile)])
    else (false, [FileCopied photoPath videoDestPath false])
  else if isImageFile photoFile then
    match w_metadata w photoFile with
    | None => (false, [MetadataRead photoPath None])
    | Some (width, height) =>
        if (width <? 100) || (height <? 100) then
          (false, [MetadataRead photoPath (Some (width, height))])
        else if String.eqb (toLowerCase (extname photoFile)) ".gif" then
          let gifDestPath :=
            path_join galleryPath ("photo_" ++ show_nat photoNumber ++ ".gif") in
          if w_copy_ok w photoFile then
            (w_thumbnail_ok w photoFile,
             [MetadataRead photoPath (Some (width, height));
              FileCopied photoPath gifDestPath true;
              ThumbnailResized photoPath thumbnailPath thumbnailResize
                               (w_thumbnail_ok w photoFile)])
          else
            (false, [MetadataRead photoPath (Some (width, height));
                     FileCopied photoPath gifDestPath false])
        else
          (w_thumbnail_ok w photoFile,
           [MetadataRead photoPath (Some (width, height));
            ThumbnailResized photoPath thumbnailPath thumbnailResize
                             (w_thumbnail_ok w photoFile)])
    end
  else (false, []).

(** The validation loop over [photoFiles]; [validatedFiles] grows by
    [push] and fixes the number the next thumbnail is written under. *)
Fixpoint transformLoop (w : World) (folderPath galleryPath : string)
    (photoFiles validatedFiles : list string) : list string * list Effect :=
  match photoFiles with
  | [] => (validatedFiles, [])
  | photoFile :: rest =>
      let photoNumber := (List.length validatedFiles + 1)%nat in
      let '(pushed, effs) :=
        transformFile w folderPath galleryPath photoFile photoNumber in
      let validatedFiles' :=
        if pushed then (validatedFiles ++ [photoFile])%list else validatedFiles in
      let '(final, effs') :=
        transformLoop w folderPath galleryPath rest validatedFiles' in
      (final, (effs ++ effs')%list)
  end.

Definition photoRow (w : World) (sessionId folderPath galleryPath photoFile : string)
    (photoNumber : nat) : Photo :=
  {| p_session_uuid := sessionId;
     photo_number := photoNumber;
     original_path := path_join folderPath photoFile;
     processed_path :=
       path_join galleryPath ("photo_" ++ show_nat photoNumber ++ ".jpg");
     upload_timestamp := w_now w |}.

(** The [for (let i = 0; i < files.length; i++)] loop of the transaction
    body, entered at index [i] with [processedCount] rows written. *)
Fixpoint insertLoop (w : World) (sessionId folderPath galleryPath : string)
    (files : list string) (i processedCount : nat) (db : Db)
  : result (Db * nat) DbError :=
  match files with
  | [] => Ok (db, processedCount)
  | photoFile :: rest =>
      let photoNumber := (i + 1)%nat in
      match insertPhoto (w_insert_fault w photoNumber)
              (photoRow w sessionId folderPath galleryPath photoFile photoNumber) db with
      | Err e => Err e
      | Ok db' =>
          insertLoop w sessionId folderPath galleryPath rest
                     (i + 1)%nat (processedCount + 1)%nat db'
      end
  end.

Definition insertPhotosBody (w : World) (sessionId folderPath galleryPath : string)
    (files : list string) (db : Db) : result (Db * nat) DbError :=
  insertLoop w sessionId folderPath galleryPath files 0%nat 0%nat
             (deletePhotos sessionId db).

Definition insertPhotosTxn (w : World) (sessionId folderPath galleryPath : string)
    (files : list string) (db : Db) : Db * result nat DbError :=
  transaction (insertPhotosBody w sessionId folderPath galleryPath files) db.

(** The row of the INSERT; it names no [updated_at], which is left to
    the column's default, [CURRENT_TIMESTAMP]. *)
Definition newSession (w : World) (sessionId sessionFolderName : string) : Session :=
  {| session_uuid := sessionId; folder_name := sessionFolderName;
     layout_used := "none"; created_at := w_now w; status := active;
     is_public := false; access_token := w_token w;
     updated_at := w_sql_now w; deleted_at := None |}.

(** The candidate list the transforms run over: the caller's snapshot,
    or the fresher scan when the count moved. *)
Definition candidates (w : World) (folderPath : string) (photoFiles : list string)
  : list string :=
  let finalScan := scanFolderTree folderPath (w_final_scan w) in
  if negb (totalFiles finalScan =? List.length photoFiles)%nat
  then files finalScan else photoFiles.

(** Everything after the session row is in place. *)
Definition processMedia (w : World) (sessionId folderPath : string)
    (photoFiles : list string) (log0 : list Effect) (db : Db)
  : Db * list Effect * Outcome :=
  let galleryPath := path_join GALLERY_FOLDER sessionId in
  if negb (w_mkdir_ok w) then
    (db, (log0 ++ [GalleryDirEnsured galleryPath false])%list, Errored AtGalleryDir)
  else
    let '(validatedFiles, tlog) :=
      transformLoop w folderPath galleryPath photoFiles [] in
    let log1 := (log0 ++ [GalleryDirEnsured galleryPath true] ++ tlog)%list in
    match insertPhotosTxn w sessionId folderPath galleryPath validatedFiles db with
    | (db', Err _) => (db', log1, Errored AtTransaction)
    | (db', Ok finalCount) =>
        let log2 := (log1 ++ [PhotosReplaced sessionId finalCount;
                              GalleryHtmlWritten sessionId (w_gallery_ok w)])%list in
        if w_gallery_ok w
        then (db', log2, Completed sessionId finalCount)
        else (db', log2, Errored AtGalleryHtml)
    end.

Definition scanAndProcessSession (w : World)
    (sessionFolderName folderPath : string) (photoFiles : list string) (db : Db)
  : Db * list Effect * Outcome :=
  if (List.length photoFiles <? MIN_FILES_PER_SESSION)%nat then
    (db, [], Skipped InsufficientFiles)
  else if negb (w_dir_ok w) then
    (db, [], Skipped InvalidFolder)
  else
    let finalScan := scanFolderTree folderPath (w_final_scan w) in
    if (totalFiles finalScan <? MIN_FILES_PER_SESSION)%nat then
      (db, [], Skipped FinalScanFailed)
    else
      let photoFiles := candidates w folderPath photoFiles in
      let sessionId := sessionFolderName in
      match selectSession sessionId db with
      | None =>
          match insertSession (w_session_fault w)
                  (newSession w sessionId sessionFolderName) db with
          | Err _ => (db, [], Errored AtSessionInsert)
          | Ok db1 =>
              let qrPath := path_join folderPath "_qrcode.png" in
              processMedia w sessionId folderPath photoFiles
                [SessionInserted sessionId;
                 QrCodeWritten qrPath sessionId (w_token w) (w_qr_ok w)] db1
          end
      | Some _ =>
          (* the UPDATE has a try/catch of its own: a failure is logged as
             a warning and the run goes on with the row as it was *)
          match activateSession (w_session_fault w) sessionId (w_sql_now w) db with
          | Ok db1 =>
              processMedia w sessionId folderPath photoFiles
                [SessionActivated sessionId true] db1
          | Err _ =>
              processMedia w sessionId folderPath photoFiles
                [SessionActivated sessionId false] db
          end
      end.

(** How one firing of the debounce timer ends. *)
Inductive Attempt :=
| BelowThreshold
| Inconsistent
| Reconciled (o : Outcome).

(** Body of the debounce timer's callback in [processPhotoSession]:
    [initial] is read when the timer fires, [final] and [recheck] after
    the 500 ms settle delay ([recheck] by [validateFolderConsistency]). *)
Definition debounceCallback (w : World) (sessionFolderName folderPath : string)
    (initial final recheck : FsNode) (db : Db) : Db * list Effect * Attempt :=
  let initialScan := scanFolderTree folderPath initial in
  if (totalFiles initialScan <? MIN_FILES_PER_SESSION)%nat then
    (db, [], BelowThreshold)
  else
    let finalScan := scanFolderTree folderPath final in
    if negb (validateFolderConsistency folderPath recheck (totalFiles initialScan))
    then (db, [], Inconsistent)
    else
      let '(db', log, o) :=
        scanAndProcessSession w sessionFolderName folderPath (files finalScan) db in
      (db', log, Reconciled o).

(** Body of the [for (const folder of folders)] loop of the startup
    sweep [scanExistingFolders]: [tree] is read first, [recheck] after the
    100 ms delay. *)
Definition sweepFolder (w : World) (folder folderPath : string)
    (tree recheck : FsNode) (db : Db) : Db * list Effect * Attempt :=
  let treeResult := scanFolderTree folderPath tree in
  if negb (isValid treeResult) then (db, [], BelowThreshold)
  else
    let recheckResult := scanFolderTree folderPath recheck in
    if negb (totalFiles recheckResult =? totalFiles treeResult)%nat
    then (db, [], Inconsistent)
    else
      let '(db', log, o) :=
        scanAndProcessSession w folder folderPath (files recheckResult) db in
      (db', log, Reconciled o).

(** [Array.prototype.sort] with the default comparator (code-unit order). *)
Fixpoint insertSorted (x : string) (xs : list string) : list string :=
  match xs with
  | [] => [x]
  | y :: rest => if String.leb x y then x :: y :: rest
                 else y :: insertSorted x rest
  end.

Definition sortNames (names : list string) : list string :=
  fold_right insertSorted [] names.

(** The filter of the manual rescan in [routes/sessions.js]. *)
Definition manualFilter (names : list string) : list string :=
  List.filter (fun f => includes SUPPORTED_MEDIA_TYPES (toLowerCase (extname f))
                        && negb (startsWith f "_")) names.

(** [photoFiles] as the manual rescan passes it to the reconciler:
    [readdirSync(folderPath).filter(...).sort()]. *)
Definition manualListing (names : list string) : list string :=
  sortNames (manualFilter names).

End Reconciler.

(** ** Debounce coordinator on the event loop

    One [step] is one macrotask of Node's loop: a callback runs from its
    start to its next [await] (or its end) without interleaving.  The
    reconciler is opaque here; a job records that a call of
    [scanAndProcessSession] has begun and has not returned. *)

Module Debounce.
Import Media Scanner.

Definition FOLDER_DEBOUNCE_DELAY : Z := 5000.
Definition SETTLE_DELAY : Z := 500.

(** Value kept in [folderProcessingTimers]. *)
Record TimerEntry := { timer : nat; fileCount : nat; startTime : Z }.

(** A [setTimeout] of the debounce callback that has neither fired nor
    been cleared. *)
Record PendingTimeout := {
  t_id : nat;
  t_deadline : Z;
  t_folder : string;       (* sessionFolderName captured by the closure *)
  t_folderPath : string
}.

Inductive Origin := FromTimer | FromRescan | FromSweep.

Inductive Phase :=
| Settling (expected : nat) (resumeAt : Z)  (* awaiting the 500 ms settle delay *)
| Reconciling.                              (* inside scanAndProcessSession *)

Record Job := {
  j_id : nat;
  j_folder : string;
  j_folderPath : string;
  j_origin : Origin;
  j_phase : Phase
}.

Record Loop := {
  WATCH_FOLDER : string;
  clock : Z;
  nextId : nat;
  armed : list PendingTimeout;
  processingQueue : gset string;
  folderProcessingTimers : gmap string TimerEntry;
  jobs : list Job;
  attempts : list (string * Z)   (* debounce callbacks invoked: folder, time *)
}.

Definition initial (watchFolder : string) : Loop :=
  {| WATCH_FOLDER := watchFolder; clock := 0; nextId := 0%nat; armed := [];
     processingQueue := ∅; folderProcessingTimers := ∅; jobs := [];
     attempts := [] |}.

Definition set_queue (q : gset string) (s : Loop) : Loop :=
  {| WATCH_FOLDER := WATCH_FOLDER s; clock := clock s; nextId := nextId s;
     armed := armed s; processingQueue := q;
     folderProcessingTimers := folderProcessingTimers s; jobs := jobs s;
     attempts := attempts s |}.

Definition set_jobs (js : list Job) (s : Loop) : Loop :=
  {| WATCH_FOLDER := WATCH_FOLDER s; clock := clock s; nextId := nextId s;
     armed := armed s; processingQueue := processingQueue s;
     folderProcessingTimers := folderProcessingTimers s; jobs := js;
     attempts := attempts s |}.

(** [folderProcessingTimers.delete(sessionFolderName)] of the [finally]. *)
Definition finallyDelete (sessionFolderName : string) (s : Loop) : Loop :=
  {| WATCH_FOLDER := WATCH_FOLDER s; clock := clock s; nextId := nextId s;
     armed := armed s; processingQueue := processingQueue s;
     folderProcessingTimers := delete sessionFolderName (folderProcessingTimers s);
     jobs := jobs s; attempts := attempts s |}.

Definition clearTimeout (id : nat) (ts : list PendingTimeout)
  : list PendingTimeout :=
  List.filter (fun t => negb (t_id t =? id)%nat) ts.

Definition dropJob (id : nat) (js : list Job) : list Job :=
  List.filter (fun j => negb (j_id j =? id)%nat) js.

Definition processPhotoSession (sessionFolderName folderPath : string)
    (quick : FsNode) (s : Loop) : Loop :=
  let armed1 :=
    match folderProcessingTimers s !! sessionFolderName with
    | Some oldTimer => clearTimeout (timer oldTimer) (armed s)
    | None => armed s
    end in
  let quickScan := scanFolderTree folderPath quick in
  let id := nextId s in
  {| WATCH_FOLDER := WATCH_FOLDER s; clock := clock s; nextId := S id;
     armed := armed1 ++ [{| t_id := id;
                            t_deadline := clock s + FOLDER_DEBOUNCE_DELAY;
                            t_folder := sessionFolderName;
                            t_folderPath := folderPath |}];
     processingQueue := processingQueue s;
     folderProcessingTimers :=
       <[sessionFolderName := {| timer := id; fileCount := totalFiles quickScan;
                                 startTime := clock s |}]>
         (folderProcessingTimers s);
     jobs := jobs s; attempts := attempts s |}.

Definition joinPath (parts : list string) : string := String.concat "/" parts.

(** Folder whose debounce timer an event at [pathParts] concerns:
    [path.basename(path.dirname(filePath))]. *)
Definition folderOf (pathParts : list string) : string :=
  List.last (removelast pathParts) "".

(** The watch callback for [filename] = [pathParts] joined, taken at the
    moment its 500 ms [setTimeout] runs; [isFile] is
    [existsSync(filePath) && statSync(filePath).isFile()]. *)
Definition onWatchEvent (pathParts : list string) (isFile : bool)
    (quick : FsNode) (s : Loop) : Loop :=
  if (List.length pathParts <? 2)%nat then s
  else if negb isFile then s
  else
    let filePath := joinPath (WATCH_FOLDER s :: pathParts) in
    let ext := toLowerCase (extname (joinPath pathParts)) in
    let isMedia := includes SUPPORTED_MEDIA_TYPES ext in
    if isMedia && negb (bool_decide (filePath ∈ processingQueue s)) then
      let s1 := set_queue ({[filePath]} ∪ processingQueue s) s in
      let s2 := processPhotoSession (folderOf pathParts)
                  (joinPath (WATCH_FOLDER s :: removelast pathParts)) quick s1 in
      set_queue (processingQueue s2 ∖ {[filePath]}) s2
    else s.

(** The debounce callback up to its first [await]. *)
Definition timerFires (t : PendingTimeout) (initialNode : FsNode) (s : Loop) : Loop :=
  let s1 :=
    {| WATCH_FOLDER := WATCH_FOLDER s; clock := clock s; nextId := nextId s;
       armed := clearTimeout (t_id t) (armed s);
       processingQueue := processingQueue s;
       folderProcessingTimers := folderProcessingTimers s; jobs := jobs s;
       attempts := attempts s ++ [(t_folder t, clock s)] |} in
  let initialScan := scanFolderTree (t_folderPath t) initialNode in
  if (totalFiles initialScan <? MIN_FILES_PER_SESSION)%nat then
    finallyDelete (t_folder t) s1
  else
    set_jobs (jobs s1 ++ [{| j_id := t_id t; j_folder := t_folder t;
                             j_folderPath := t_folderPath t;
                             j_origin := FromTimer;
                             j_phase := Settling (totalFiles initialScan)
                                          (clock s + SETTLE_DELAY) |}]) s1.

Definition startReconcile (id : nat) (js : list Job) : list Job :=
  map (fun j => if (j_id j =? id)%nat
                then {| j_id := j_id j; j_folder := j_folder j;
                        j_folderPath := j_folderPath j;
                        j_origin := j_origin j; j_phase := Reconciling |}
                else j) js.

(** The debounce callback from the settle delay to the call of the
    reconciler. *)
Definition settled (j : Job) (expected : nat) (recheck : FsNode) (s : Loop) : Loop :=
  if negb (validateFolderConsistency (j_folderPath j) recheck expected)
  then finallyDelete (j_folder j) (set_jobs (dropJob (j_id j) (jobs s)) s)
  else set_jobs (startReconcile (j_id j) (jobs s)) s.

(** [scanAndProcessSession] returns to its caller. *)
Definition reconcileEnds (j : Job) (s : Loop) : Loop :=
  let s1 := set_jobs (dropJob (j_id j) (jobs s)) s in
  match j_origin j with
  | FromTimer => finallyDelete (j_folder j) s1
  | FromRescan | FromSweep => s1
  end.

(** [POST /:sessionId/scan-media] calls the reconciler directly. *)
Definition manualRescan (folder : string) (s : Loop) : Loop :=
  {| WATCH_FOLDER := WATCH_FOLDER s; clock := clock s; nextId := S (nextId s);
     armed := armed s; processingQueue := processingQueue s;
     folderProcessingTimers := folderProcessingTimers s;
     jobs := jobs s ++ [{| j_id := nextId s; j_folder := folder;
                           j_folderPath := joinPath [WATCH_FOLDER s; folder];
                           j_origin := FromRescan; j_phase := Reconciling |}];
     attempts := attempts s |}.

(** A sweep [scanExistingFolders], which [startWatcher] calls without
    awaiting it at start-up and at every reload of the watcher, reaches
    [folder] in its loop and calls the reconciler. *)
Definition sweepReconcile (folder : string) (s : Loop) : Loop :=
  {| WATCH_FOLDER := WATCH_FOLDER s; clock := clock s; nextId := S (nextId s);
     armed := armed s; processingQueue := processingQueue s;
     folderProcessingTimers := folderProcessingTimers s;
     jobs := jobs s ++ [{| j_id := nextId s; j_folder := folder;
                           j_folderPath := joinPath [WATCH_FOLDER s; folder];
                           j_origin := FromSweep; j_phase := Reconciling |}];
     attempts := attempts s |}.

Inductive Label :=
| Advance (dt : Z)
| FileEvent (pathParts : list string) (isFile : bool) (quick : FsNode)
| TimerFires (id : nat) (initialNode : FsNode)
| Settled (id : nat) (recheck : FsNode)
| ReconcileEnds (id : nat)
| ManualRescan (folder : string)
| SweepReconcile (folder : string).

(** [None]: the label is not enabled in [s]. *)
Definition step (l : Label) (s : Loop) : option Loop :=
  match l with
  | Advance dt =>
      if 0 <=? dt
      then Some {| WATCH_FOLDER := WATCH_FOLDER s; clock := clock s + dt;
                   nextId := nextId s; armed := armed s;
                   processingQueue := processingQueue s;
                   folderProcessingTimers := folderProcessingTimers s;
                   jobs := jobs s; attempts := attempts s |}
      else None
  | FileEvent pathParts isFile quick => Some (onWatchEvent pathParts isFile quick s)
  | TimerFires id initialNode =>
      match List.find (fun t => (t_id t =? id)%nat) (armed s) with
      | Some t => if t_deadline t <=? clock s
                  then Some (timerFires t initialNode s) else None
      | None => None
      end
  | Settled id recheck =>
      match List.find (fun j => (j_id j =? id)%nat) (jobs s) with
      | Some j =>
          match j_phase j with
          | Settling expected resumeAt =>
              if resumeAt <=? clock s
              then Some (settled j expected recheck s) else None
          | Reconciling => None
          end
      | None => None
      end
  | ReconcileEnds id =>
      match List.find (fun j => (j_id j =? id)%nat) (jobs s) with
      | Some j =>
          match j_phase j with
          | Reconciling => Some (reconcileEnds j s)
          | Settling _ _ => None
          end
      | None => None
      end
  | ManualRescan folder => Some (manualRescan folder s)
  | SweepReconcile folder => Some (sweepReconcile folder s)
  end.

Fixpoint run (ls : list Label) (s : Loop) : option Loop :=
  match ls with
  | [] => Some s
  | l :: rest =>
      match step l s with
      | Some s' => run rest s'
      | None => None
      end
  end.

Definition is_reconciling (folder : string) (j : Job) : bool :=
  String.eqb (j_folder j) folder
  && match j_phase j with Reconciling => true | Settling _ _ => false end.

(** Reconciliations of [folder] in flight. *)
Definition in_flight (folder : string) (s : Loop) : nat :=
  List.length (List.filter (is_reconciling folder) (jobs s)).

(** A debounce callback or a rescan of [folder] has begun and not ended. *)
Definition busy (folder : string) (s : Loop) : bool :=
  existsb (fun j => String.eqb (j_folder j) folder) (jobs s).

Definition armedFor (folder : string) (s : Loop) : list PendingTimeout :=
  List.filter (fun t => String.eqb (t_folder t) folder) (armed s).

(** The interleavings in which a folder is left alone while it is
    worked on: no watch event for it is handled while one of its
    callbacks runs, and a manual rescan or the startup sweep turns to a
    folder only when it has neither a running callback nor an armed
    timer. *)
Definition serialised (l : Label) (s : Loop) : bool :=
  match l with
  | FileEvent pathParts _ _ => negb (busy (folderOf pathParts) s)
  | ManualRescan folder | SweepReconcile folder =>
      negb (busy folder s)
      && match armedFor folder s with [] => true | _ => false end
  | _ => true
  end.

Fixpoint runSerialised (ls : list Label) (s : Loop) : option Loop :=
  match ls with
  | [] => Some s
  | l :: rest =>
      if serialised l s then
        match step l s with
        | Some s' => runSerialised rest s'
        | None => None
        end
      else None
  end.

End Debounce.

(** ** Notions the statements below are phrased with *)

Module Notions.
Import Media Scanner Sharp Store Reconciler Debounce.

(** [validatedFiles] when the validation loop of a reconciliation of
    folder [F] ends. *)
Definition validatedFiles (w : World) (F folderPath : string)
    (photoFiles : list string) : list string :=
  fst (transformLoop w folderPath (path_join GALLERY_FOLDER F)
         (candidates w folderPath photoFiles) []).

(** The rows the transaction writes for [files], numbered from [i + 1]. *)
Fixpoint rowsFrom (w : World) (sessionId folderPath galleryPath : string)
    (files : list string) (i : nat) : list Photo :=
  match files with
  | [] => []
  | photoFile :: rest =>
      photoRow w sessionId folderPath galleryPath photoFile (i + 1)%nat
        :: rowsFrom w sessionId folderPath galleryPath rest (i + 1)%nat
  end.

Definition newRows (w : World) (F folderPath : string) (photoFiles : list string)
  : list Photo :=
  rowsFrom w F folderPath (path_join GALLERY_FOLDER F)
           (validatedFiles w F folderPath photoFiles) 0%nat.

(** Does the per-file [try] block end in [validatedFiles.push]? *)
Definition transformable (w : World) (photoFile : string) : bool :=
  if isVideoFile photoFile then w_copy_ok w photoFile && w_poster_ok w photoFile
  else if isImageFile photoFile then
    match w_metadata w photoFile with
    | None => false
    | Some (width, height) =>
        if (width <? 100) || (height <? 100) then false
        else if String.eqb (toLowerCase (extname photoFile)) ".gif"
        then w_copy_ok w photoFile && w_thumbnail_ok w photoFile
        else w_thumbnail_ok w photoFile
    end
  else false.

(** None of the three early returns of [scanAndProcessSession] is taken. *)
Definition passesGates (w : World) (folderPath : string) (photoFiles : list string)
  : bool :=
  negb (List.length photoFiles <? MIN_FILES_PER_SESSION)%nat
  && w_dir_ok w
  && negb (totalFiles (scanFolderTree folderPath (w_final_scan w))
           <? MIN_FILES_PER_SESSION)%nat.

(** The session effects that head the log of a run. *)
Definition sessionPrefix (w : World) (F folderPath : string) (db : Db)
  : list Effect :=
  match selectSession F db with
  | None => [SessionInserted F;
             QrCodeWritten (path_join folderPath "_qrcode.png") F
                           (w_token w) (w_qr_ok w)]
  | Some _ => [SessionActivated F (negb (w_session_fault w))]
  end.

(** The run ends at the session INSERT: [F] has no row and the engine
    fails the statement. *)
Definition insertAborts (w : World) (F : string) (db : Db) : bool :=
  match selectSession F db with
  | None => w_session_fault w
  | Some _ => false
  end.

(** The store once the session statement of a run has gone through (the
    INSERT or the UPDATE) or its failure has been caught (the UPDATE). *)
Definition withSession (w : World) (F : string) (db : Db) : Db :=
  match selectSession F db with
  | None => {| sessions := sessions db ++ [newSession w F F]; photos := photos db |}
  | Some _ => if w_session_fault w then db else activated F (w_sql_now w) db
  end.

(** The row of [F] in that store. *)
Definition rowAfter (w : World) (F : string) (db : Db) : Session :=
  match selectSession F db with
  | None => newSession w F F
  | Some s => if w_session_fault w then s else set_active (w_sql_now w) s
  end.

(** The entries the scanner's loop pushes onto [result.files]. *)
Definition listed (it : DirEntry) : bool :=
  negb (startsWith (d_name it) "_" || startsWith (d_name it) ".")
  && negb (includes systemFolders (d_name it))
  && match d_stat it with
     | StatFile => includes SUPPORTED_MEDIA_TYPES (toLowerCase (extname (d_name it)))
     | StatDirectory | StatThrows => false
     end.

Definition file (name : string) : DirEntry :=
  {| d_name := name; d_stat := StatFile |}.

Definition inb (x : string) (xs : list string) : bool :=
  existsb (String.eqb x) xs.

(** A world in which exactly the files in [keep] transform, every other
    file fails, and nothing else goes wrong. *)
Definition worldKeeping (node : FsNode) (keep : list string) : World :=
  {| w_dir_ok := true; w_final_scan := node; w_now := "2025-12-19T00:00:00.000Z";
     w_sql_now := "2025-12-19 00:00:00"; w_session_fault := false;
     w_token := "00112233445566778899aabbccddeeff"; w_qr_ok := true;
     w_mkdir_ok := true;
     w_copy_ok := fun f => inb f keep;
     w_poster_ok := fun _ => true;
     w_metadata := fun f => if inb f keep then Some (1920, 1080) else None;
     w_thumbnail_ok := fun _ => true;
     w_insert_fault := fun _ => false;
     w_gallery_ok := true |}.

(** Watch events for one file, [gaps] milliseconds apart. *)
Fixpoint burst (pathParts : list string) (quick : FsNode) (gaps : list Z)
  : list Label :=
  match gaps with
  | [] => [FileEvent pathParts true quick]
  | g :: rest => FileEvent pathParts true quick :: Advance g
                   :: burst pathParts quick rest
  end.

(** No armed timer of [folder] has reached its deadline. *)
Definition noneDue (folder : string) (s : Loop) : bool :=
  forallb (fun t => clock s <? t_deadline t) (armedFor folder s).

(** [run], refusing any state in which a timer of [folder] is due: along
    such a run no debounce callback of the folder was held back. *)
Fixpoint runUndue (folder : string) (ls : list Label) (s : Loop) : option Loop :=
  match ls with
  | [] => Some s
  | l :: rest =>
      match step l s with
      | Some s' => if noneDue folder s' then runUndue folder rest s' else None
      | None => None
      end
  end.

(** Every armed timer of [folder] is the one its map entry names. *)
Definition tracked (folder : string) (s : Loop) : Prop :=
  forall t, In t (armed s) -> t_folder t = folder ->
    exists e, folderProcessingTimers s !! folder = Some e /\ timer e = t_id t.

(** The invariant of serialised interleavings. *)
Record Serial (s : Loop) : Prop := {
  armed_tracked : forall t, In t (armed s) ->
    exists e, folderProcessingTimers s !! t_folder t = Some e /\ timer e = t_id t;
  armed_idle : forall t, In t (armed s) -> busy (t_folder t) s = false;
  armed_one : List.NoDup (map t_folder (armed s));
  jobs_one : List.NoDup (map j_folder (jobs s))
}.

End Notions.

(** ** Concrete folders, worlds and stores *)

Module Samples.
Import Media Scanner Sharp Store Reconciler Debounce Notions.

Definition emptyDb : Db := {| sessions := []; photos := [] |}.

(** A session folder as the directory read returns it: not in name order,
    with a resource-fork file and the QR code of an earlier run. *)
Definition event1 : FsNode :=
  Directory [file "b.jpg"; file "a.jpg"; file "._a.jpg"; file "_qrcode.png";
             file "c.jpg"].

Definition event1Files : list string := ["b.jpg"; "a.jpg"; "c.jpg"].

(** [c.jpg] is corrupt; everything else works. *)
Definition worldCorruptC : World := worldKeeping event1 ["a.jpg"; "b.jpg"].

(** Everything works, but the engine fails the second insert. *)
Definition worldFaultySecondInsert : World :=
  {| w_dir_ok := true; w_final_scan := event1; w_now := "2025-12-19T00:00:00.000Z";
     w_sql_now := "2025-12-19 00:00:00"; w_session_fault := false;
     w_token := "00112233445566778899aabbccddeeff"; w_qr_ok := true;
     w_mkdir_ok := true; w_copy_ok := fun _ => true; w_poster_ok := fun _ => true;
     w_metadata := fun _ => Some (5472, 3648); w_thumbnail_ok := fun _ => true;
     w_insert_fault := fun n => (n =? 2)%nat; w_gallery_ok := true |}.

(** Everything works; [a.jpg] is an 80 x 600 strip, the other images are
    5472 x 3648 camera frames. *)
Definition worldSmallA : World :=
  {| w_dir_ok := true; w_final_scan := event1; w_now := "2025-12-19T00:00:00.000Z";
     w_sql_now := "2025-12-19 00:00:00"; w_session_fault := false;
     w_token := "00112233445566778899aabbccddeeff"; w_qr_ok := true;
     w_mkdir_ok := true; w_copy_ok := fun _ => true; w_poster_ok := fun _ => true;
     w_metadata := fun f => if String.eqb f "a.jpg" then Some (80, 600)
                            else Some (5472, 3648);
     w_thumbnail_ok := fun _ => true;
     w_insert_fault := fun _ => false; w_gallery_ok := true |}.

(** Every file transforms, but the engine fails the statement on the
    sessions table. *)
Definition worldUpdateFails : World :=
  {| w_dir_ok := true; w_final_scan := event1; w_now := "2025-12-19T00:00:00.000Z";
     w_sql_now := "2025-12-19 00:00:00"; w_session_fault := true;
     w_token := "00112233445566778899aabbccddeeff"; w_qr_ok := true;
     w_mkdir_ok := true; w_copy_ok := fun _ => true; w_poster_ok := fun _ => true;
     w_metadata := fun _ => Some (5472, 3648); w_thumbnail_ok := fun _ => true;
     w_insert_fault := fun _ => false; w_gallery_ok := true |}.

(** [a.jpg] is an 80 x 600 strip, and the QR library fails. *)
Definition worldQrFails : World :=
  {| w_dir_ok := true; w_final_scan := event1; w_now := "2025-12-19T00:00:00.000Z";
     w_sql_now := "2025-12-19 00:00:00"; w_session_fault := false;
     w_token := "00112233445566778899aabbccddeeff"; w_qr_ok := false;
     w_mkdir_ok := true; w_copy_ok := fun _ => true; w_poster_ok := fun _ => true;
     w_metadata := fun f => if String.eqb f "a.jpg" then Some (80, 600)
                            else Some (5472, 3648);
     w_thumbnail_ok := fun _ => true;
     w_insert_fault := fun _ => false; w_gallery_ok := true |}.

(** The engine fails the statement on the sessions table, and no file
    can be decoded. *)
Definition worldUpdateFailsNoMedia : World :=
  {| w_dir_ok := true; w_final_scan := event1; w_now := "2025-12-19T00:00:00.000Z";
     w_sql_now := "2025-12-19 00:00:00"; w_session_fault := true;
     w_token := "00112233445566778899aabbccddeeff"; w_qr_ok := true;
     w_mkdir_ok := true; w_copy_ok := fun _ => true; w_poster_ok := fun _ => true;
     w_metadata := fun _ => None; w_thumbnail_ok := fun _ => true;
     w_insert_fault := fun _ => false; w_gallery_ok := true |}.

Definition deletedEvent1 : Session :=
  {| session_uuid := "Event1"; folder_name := "Event1"; layout_used := "none";
     created_at := "2025-12-01T10:00:00.000Z"; status := deleted;
     is_public := false; access_token := "feedfacefeedfacefeedfacefeedface";
     updated_at := "2025-12-09 03:00:00";
     deleted_at := Some "2025-12-09T03:00:00.000Z" |}.

(** A store holding the soft-deleted session and two rows of it. *)
Definition dbDeletedEvent1 : Db :=
  {| sessions := [deletedEvent1];
     photos :=
       [{| p_session_uuid := "Event1"; photo_number := 1;
           original_path := "/photos/Event1/old1.jpg";
           processed_path := "public/gallery/Event1/photo_1.jpg";
           upload_timestamp := "2025-12-01T10:00:05.000Z" |};
        {| p_session_uuid := "Event1"; photo_number := 2;
           original_path := "/photos/Event1/old2.jpg";
           processed_path := "public/gallery/Event1/photo_2.jpg";
           upload_timestamp := "2025-12-01T10:00:05.000Z" |}] |}.

(** That store with the photo rows of Event1 gone. *)
Definition dbDeletedEvent1Emptied : Db :=
  {| sessions := [deletedEvent1]; photos := [] |}.

Definition twoFiles : FsNode := Directory [file "a.jpg"; file "b.jpg"].
Definition threeFiles : FsNode :=
  Directory [file "a.jpg"; file "b.jpg"; file "c.jpg"].

(** Two files land in Event1; the debounce timer fires, the folder
    settles and the reconciler starts; while it runs, an operator posts a
    manual rescan of the same session. *)
Definition rescanDuringReconcile : list Label :=
  [FileEvent ["Event1"; "a.jpg"] true twoFiles;
   FileEvent ["Event1"; "b.jpg"] true twoFiles;
   Advance 5000; TimerFires 1 twoFiles;
   Advance 500; Settled 1 twoFiles;
   ManualRescan "Event1"].

(** The same start, left alone until the reconciler returns; then a
    manual rescan of the idle folder. *)
Definition rescanAfterReconcile : list Label :=
  [FileEvent ["Event1"; "a.jpg"] true twoFiles;
   FileEvent ["Event1"; "b.jpg"] true twoFiles;
   Advance 5000; TimerFires 1 twoFiles;
   Advance 500; Settled 1 twoFiles;
   Advance 1200; ReconcileEnds 1;
   ManualRescan "Event1"].

(** a.jpg is seen at 0; its timer fires at 5000, the folder settles and
    at 5500 the reconciler is called.  It is still at work on the folder
    when c.jpg is seen at 5600; that timer fires at 10600, the folder
    settles again and at 11100 the reconciler is called a second time.  No
    manual rescan and no startup sweep is involved. *)
Definition eventDuringReconcile : list Label :=
  [FileEvent ["Event1"; "a.jpg"] true twoFiles;
   Advance 5000; TimerFires 0 twoFiles;
   Advance 500; Settled 0 twoFiles;
   Advance 100; FileEvent ["Event1"; "c.jpg"] true threeFiles;
   Advance 5000; TimerFires 1 threeFiles;
   Advance 500; Settled 1 threeFiles].

(** b.jpg is seen at 0 and its timer fires at 5000.  While that callback
    waits out its settle delay, c.jpg is seen at 5100; the callback resumes
    at 5500, finds three files where it expected two, and ends.  c.jpg is
    touched again at 5700: the burst is the events at 5100 and 5700,
    600 ms apart. *)
Definition burstDuringCallback : list Label :=
  [FileEvent ["Event1"; "b.jpg"] true twoFiles;
   Advance 5000; TimerFires 0 twoFiles;
   Advance 100; FileEvent ["Event1"; "c.jpg"] true threeFiles;
   Advance 400; Settled 0 threeFiles;
   Advance 200; FileEvent ["Event1"; "c.jpg"] true threeFiles].

(** Both timers left by that burst come due and fire. *)
Definition burstDuringCallbackFired : list Label :=
  (burstDuringCallback
   ++ [Advance 4400; TimerFires 1 threeFiles;
       Advance 600; TimerFires 2 threeFiles])%list.

End Samples.

(** ** Startup sweep *)

Module Sweep.
Import Media Scanner Store Reconciler.

(** What [fs.statSync] says of one entry of the watch root; the
    comparator of the sort is taken to read the birth time the filter
    saw. *)
Inductive RootStat :=
| RootDirectory (birthtimeMs : Z)
| RootFile
| RootStatThrows.

Record RootEntry := { r_name : string; r_stat : RootStat }.

(** The [.filter(f => ...)] of the sweep. *)
Definition keepRootEntry (e : RootEntry) : bool :=
  if startsWith (r_name e) "." || startsWith (r_name e) "_" then false
  else match r_stat e with
       | RootDirectory _ => true
       | RootFile | RootStatThrows => false
       end.

Definition birthtimeMs (e : RootEntry) : Z :=
  match r_stat e with
  | RootDirectory t => t
  | RootFile | RootStatThrows => 0
  end.

(** [.sort((a, b) => bTime - aTime)]: the sort of the language is stable,
    so entries with equal birth times keep their order. *)
Fixpoint insertNewest (x : RootEntry) (l : list RootEntry) : list RootEntry :=
  match l with
  | [] => [x]
  | y :: rest => if birthtimeMs y <=? birthtimeMs x then x :: y :: rest
                 else y :: insertNewest x rest
  end.

Definition newestFirst (l : list RootEntry) : list RootEntry :=
  fold_right insertNewest [] l.

(** What the sweep reads for one folder: the directory at the first scan,
    the directory after the 100 ms delay, and the world of its
    reconciliation. *)
Record FolderReads := {
  fr_tree : FsNode;
  fr_recheck : FsNode;
  fr_world : World
}.

Record SweepResult := {
  sw_db : Db;
  processedCount : nat;
  skippedCount : nat;
  sw_trace : list (string * Attempt)   (* folders in the order they were taken *)
}.

(** The [for (const folder of folders)] loop. *)
Fixpoint sweepLoop (watchFolder : string) (reads : string -> FolderReads)
    (folders : list string) (acc : SweepResult) : SweepResult :=
  match folders with
  | [] => acc
  | folder :: rest =>
      let r := reads folder in
      let '(db', _, a) :=
        sweepFolder (fr_world r) folder (path_join watchFolder folder)
                    (fr_tree r) (fr_recheck r) (sw_db acc) in
      let acc' :=
        match a with
        | Reconciled _ =>
            {| sw_db := db'; processedCount := S (processedCount acc);
               skippedCount := skippedCount acc;
               sw_trace := sw_trace acc ++ [(folder, a)] |}
        | BelowThreshold | Inconsistent =>
            {| sw_db := db'; processedCount := processedCount acc;
               skippedCount := S (skippedCount acc);
               sw_trace := sw_trace acc ++ [(folder, a)] |}
        end in
      sweepLoop watchFolder reads rest acc'
  end.

(** [root] is what [fs.readdirSync(WATCH_FOLDER)] returns, [None] when it
    throws (the outer [catch] logs a critical error). *)
Definition scanExistingFolders (watchFolder : string)
    (root : option (list RootEntry)) (reads : string -> FolderReads) (db : Db)
  : SweepResult :=
  let start := {| sw_db := db; processedCount := 0; skippedCount := 0;
                  sw_trace := [] |} in
  match root with
  | None => start
  | Some entries =>
      sweepLoop watchFolder reads
        (map r_name (newestFirst (List.filter keepRootEntry entries))) start
  end.

End Sweep.

(** ** Session routes *)

Module Routes.
Import Media Scanner Store Reconciler.

Inductive Response :=
| NotFound (error : string)
| BadRequest (error : string)
| ServerError
| ScanCompleted (session_id folder : string) (files_found photos_in_db : nat)
| VisibilityUpdated (value : Z)
| SessionDeleted (galleryDeleted originalDeleted : bool) (originalPath : string).

(** [POST /:sessionId/scan-media]; [node] is the session folder as the
    route reads it ([existsSync], then [readdirSync]). *)
Definition scanMedia (w : World) (watchFolder sessionId : string)
    (node : FsNode) (db : Db) : Db * list Effect * Response :=
  match selectSession sessionId db with
  | None => (db, [], NotFound "Session not found")
  | Some session =>
      let folderPath := path_join watchFolder (folder_name session) in
      match node with
      | Missing => (db, [], NotFound "Session folder not found on disk")
      | NotADirectory | ReaddirThrows => (db, [], ServerError)
      | Directory items =>
          let photoFiles := manualListing (map d_name items) in
          let '(db', log, _) :=
            scanAndProcessSession w (folder_name session) folderPath photoFiles db in
          (db', log,
           ScanCompleted sessionId (folder_name session)
             (List.length photoFiles) (List.length (photosOf sessionId db')))
      end
  end.

(** What the delete route finds on disk and whether [fs.rmSync] works. *)
Record DeleteFs := {
  galleryExists : bool;
  galleryRmOk : bool;
  originalExists : bool;
  originalRmOk : bool
}.

Definition set_deleted (now : string) (s : Session) : Session :=
  {| session_uuid := session_uuid s; folder_name := folder_name s;
     layout_used := layout_used s; created_at := created_at s;
     status := deleted; is_public := is_public s;
     access_token := access_token s; updated_at := updated_at s;
     deleted_at := Some now |}.

(** [UPDATE sessions SET status = 'deleted', deleted_at = ?
    WHERE session_uuid = ?]. *)
Definition markDeleted (id now : string) (db : Db) : Db :=
  {| sessions :=
       map (fun s => if has_uuid id s then set_deleted now s else s) (sessions db);
     photos := photos db |}.

(** [DELETE /:sessionId]: the folders that were removed, and the answer. *)
Definition deleteSession (fs : DeleteFs) (watchFolder sessionId now : string)
    (db : Db) : Db * list string * Response :=
  match selectSession sessionId db with
  | None => (db, [], NotFound "Session not found")
  | Some session =>
      let galleryPath := path_join GALLERY_FOLDER sessionId in
      if galleryExists fs && negb (galleryRmOk fs) then (db, [], ServerError)
      else
        let removed1 := if galleryExists fs then [galleryPath] else [] in
        let originalFolderPath := path_join watchFolder (folder_name session) in
        let removed2 :=
          if originalExists fs && originalRmOk fs then [originalFolderPath]
          else [] in
        (markDeleted sessionId now db, (removed1 ++ removed2)%list,
         SessionDeleted true
           (negb (originalExists fs && negb (originalRmOk fs)))
           originalFolderPath)
  end.

Definition set_public (v : bool) (s : Session) : Session :=
  {| session_uuid := session_uuid s; folder_name := folder_name s;
     layout_used := layout_used s; created_at := created_at s;
     status := status s; is_public := v;
     access_token := access_token s; updated_at := updated_at s;
     deleted_at := deleted_at s |}.

(** [PATCH /:sessionId/visibility] with a numeric [is_public] in the body. *)
Definition setVisibility (sessionId : string) (is_public : Z) (db : Db)
  : Db * Response :=
  if negb (is_public =? 0) && negb (is_public =? 1)
  then (db, BadRequest "is_public must be 0 or 1")
  else if negb (existsb (has_uuid sessionId) (sessions db))   (* result.changes === 0 *)
  then (db, NotFound "Session not found")
  else
    ({| sessions :=
          map (fun s => if has_uuid sessionId s then set_public (is_public =? 1) s
                        else s) (sessions db);
        photos := photos db |},
     VisibilityUpdated is_public).

Definition MIN_PHOTOS : nat := 2.

Definition listedStatus (s : Session) : bool :=
  match status s with
  | active | completed => true
  | deleted => false
  end.

(** [COUNT(p.id)] of the [LEFT JOIN photos p ON s.session_uuid =
    p.session_uuid ... GROUP BY s.session_uuid]. *)
Definition photoCount (s : Session) (db : Db) : nat :=
  List.length (photosOf (session_uuid s) db).

(** [ORDER BY s.created_at DESC] on the text column. *)
Fixpoint insertLatest (x : Session) (l : list Session) : list Session :=
  match l with
  | [] => [x]
  | y :: rest => if String.leb (created_at y) (created_at x) then x :: y :: rest
                 else y :: insertLatest x rest
  end.

Definition latestFirst (l : list Session) : list Session :=
  fold_right insertLatest [] l.

(** [GET /active]: the rows of the answer, over a sessions table that
    keeps its UNIQUE(session_uuid), so that a group is one row. *)
Definition activeSessions (db : Db) : list (Session * nat) :=
  firstn 100
    (map (fun s => (s, photoCount s db))
       (latestFirst
          (List.filter (fun s => listedStatus s && (MIN_PHOTOS <=? photoCount s db)%nat)
                       (sessions db)))).

Inductive MediaType := video | gif | image.

(** The media type [GET /:sessionId] attaches to a row. *)
Definition mediaTypeOf (original_path : string) : option MediaType :=
  if String.eqb original_path "" then None
  else
    let ext := toLowerCase (extname original_path) in
    let isVideo := includes [".mp4"; ".mov"; ".avi"; ".webm"] ext in
    let isGif := String.eqb ext ".gif" in
    Some (if isVideo then video else if isGif then gif else image).

(** [ORDER BY photo_number ASC]. *)
Fixpoint insertByNumber (x : Photo) (l : list Photo) : list Photo :=
  match l with
  | [] => [x]
  | y :: rest => if (photo_number x <=? photo_number y)%nat then x :: y :: rest
                 else y :: insertByNumber x rest
  end.

Definition byNumber (l : list Photo) : list Photo := fold_right insertByNumber [] l.

(** [GET /:sessionId]: [None] is the 404. *)
Definition sessionDetails (sessionId : string) (db : Db)
  : option (Session * list (Photo * option MediaType)) :=
  match selectSession sessionId db with
  | None => None
  | Some session =>
      Some (session,
            map (fun p => (p, mediaTypeOf (original_path p)))
                (byNumber (photosOf sessionId db)))
  end.

End Routes.

(** ** Daily cleanup *)

Module Cleanup.
Import Media Store Reconciler Routes.

(** What one run of [runCleanup] reads from outside. *)
Record CleanupEnv := {
  c_now : Z;                      (* now.getTime() *)
  c_nowIso : string;              (* now.toISOString() *)
  CLEANUP_DAYS : option Z;        (* parseInt(...); None is NaN *)
  c_parse : string -> option Z;   (* new Date(created_at).getTime(); None is NaN *)
  c_exists : string -> bool;      (* fs.existsSync, before this run removed anything *)
  c_rmOk : string -> bool         (* fs.rmSync returns *)
}.

Definition MS_PER_DAY : Z := 24 * 60 * 60 * 1000.
Definition MAX_TIME_VALUE : Z := 8640000000000000.

(** [new Date(now.getTime() - CLEANUP_DAYS * 24 * 60 * 60 * 1000)]; a time
    value out of range makes an invalid date. *)
Definition cutoffDate (e : CleanupEnv) : option Z :=
  match CLEANUP_DAYS e with
  | Some days =>
      let t := c_now e - days * MS_PER_DAY in
      if Z.abs t <=? MAX_TIME_VALUE then Some t else None
  | None => None
  end.

(** [createdDate < cutoffDate]: false as soon as one side is invalid. *)
Definition expired (e : CleanupEnv) (session : Session) : bool :=
  match c_parse e (created_at session), cutoffDate e with
  | Some createdDate, Some cutoff => createdDate <? cutoff
  | _, _ => false
  end.

Definition MIN_PHOTOS : nat := 2.

(** Sessions [HAVING COUNT(p.id) = 0]. *)
Definition orphanSessions (db : Db) : list Session :=
  List.filter (fun s => listedStatus s && (photoCount s db =? 0)%nat) (sessions db).

(** Sessions [HAVING COUNT(p.id) > 0 AND COUNT(p.id) < ?]. *)
Definition singleFileSessions (db : Db) : list Session :=
  List.filter (fun s => listedStatus s && (0 <? photoCount s db)%nat
                        && (photoCount s db <? MIN_PHOTOS)%nat) (sessions db).

(** The loops of the first two passes: one [UPDATE] per session found. *)
Definition markEach (now : string) (found : list Session) (db : Db) : Db :=
  fold_left (fun d s => markDeleted (session_uuid s) now d) found db.

(** [ORDER BY created_at ASC] on the text column. *)
Fixpoint insertOldest (x : Session) (l : list Session) : list Session :=
  match l with
  | [] => [x]
  | y :: rest => if String.leb (created_at x) (created_at y) then x :: y :: rest
                 else y :: insertOldest x rest
  end.

Definition oldestFirst (l : list Session) : list Session :=
  fold_right insertOldest [] l.

Record CleanupResult := {
  cl_db : Db;
  cl_removed : list string;   (* folders removed, in order *)
  deletedCount : nat;
  keptCount : nat;
  cl_finished : bool          (* false: a removal threw and the catch ended the run *)
}.

Definition existsNow (e : CleanupEnv) (removed : list string) (p : string) : bool :=
  c_exists e p && negb (existsb (String.eqb p) removed).

(** The [for (const session of sessions)] loop of the third pass. *)
Fixpoint ageLoop (e : CleanupEnv) (watchFolder : string) (todo : list Session)
    (acc : CleanupResult) : CleanupResult :=
  match todo with
  | [] => acc
  | session :: rest =>
      let galleryPath := path_join GALLERY_FOLDER (session_uuid session) in
      let originalPath := path_join watchFolder (folder_name session) in
      if expired e session then
        if existsNow e (cl_removed acc) galleryPath && negb (c_rmOk e galleryPath)
        then {| cl_db := cl_db acc; cl_removed := cl_removed acc;
                deletedCount := deletedCount acc; keptCount := keptCount acc;
                cl_finished := false |}
        else
          let removed1 :=
            if existsNow e (cl_removed acc) galleryPath
            then (cl_removed acc ++ [galleryPath])%list else cl_removed acc in
          if existsNow e removed1 originalPath && negb (c_rmOk e originalPath)
          then {| cl_db := cl_db acc; cl_removed := removed1;
                  deletedCount := deletedCount acc; keptCount := keptCount acc;
                  cl_finished := false |}
          else
            let removed2 :=
              if existsNow e removed1 originalPath
              then (removed1 ++ [originalPath])%list else removed1 in
            ageLoop e watchFolder rest
              {| cl_db := markDeleted (session_uuid session) (c_nowIso e) (cl_db acc);
                 cl_removed := removed2;
                 deletedCount := S (deletedCount acc); keptCount := keptCount acc;
                 cl_finished := cl_finished acc |}
      else
        ageLoop e watchFolder rest
          {| cl_db := cl_db acc; cl_removed := cl_removed acc;
             deletedCount := deletedCount acc; keptCount := S (keptCount acc);
             cl_finished := cl_finished acc |}
  end.

(** [runCleanup]; [watchFolder] is what [getWatchFolder(db)] returns. *)
Definition runCleanup (e : CleanupEnv) (watchFolder : string) (db : Db)
  : CleanupResult :=
  let db1 := markEach (c_nowIso e) (orphanSessions db) db in
  let db2 := markEach (c_nowIso e) (singleFileSessions db1) db1 in
  let todo := oldestFirst (List.filter listedStatus (sessions db2)) in
  ageLoop e watchFolder todo
    {| cl_db := db2; cl_removed := []; deletedCount := 0; keptCount := 0;
       cl_finished := true |}.

End Cleanup.

(** ** Which folder is watched *)

Module Config.
Import Media.

Record ProcessEnv := {
  LUMA_PHOTOS_FOLDER : option string;   (* process.env.LUMA_PHOTOS_FOLDER *)
  testPhotos : string                   (* path.join(__dirname, '../test-photos') *)
}.

(** [process.env.LUMA_PHOTOS_FOLDER || path.join(__dirname, '../test-photos')]. *)
Definition envOrDefault (env : ProcessEnv) : string :=
  match LUMA_PHOTOS_FOLDER env with
  | Some p => if String.eqb p "" then testPhotos env else p
  | None => testPhotos env
  end.

(** What [SELECT watch_folder_path FROM global_settings WHERE id = 1]
    gives; [None] in a row is NULL. *)
Inductive SettingsRead :=
| QueryThrows
| NoRow
| Row (watch_folder_path : option string).

(** [getWatchFolder] of [watchFolderHelper.js]. *)
Definition getWatchFolder (settings : SettingsRead) (env : ProcessEnv) : string :=
  match settings with
  | Row (Some p) => if String.eqb p "" then envOrDefault env else p
  | Row None | NoRow | QueryThrows => envOrDefault env
  end.

(** [initializeWatcher] up to its call of [startWatcher]: the value of the
    module variable [WATCH_FOLDER] it leaves. *)
Definition initializeWatcher (settings : SettingsRead) (WATCH_FOLDER : string)
  : string :=
  match settings with
  | Row (Some p) => if String.eqb p "" then WATCH_FOLDER else p
  | Row None | NoRow | QueryThrows => WATCH_FOLDER
  end.

Record FolderFs := {
  f_exists : string -> bool;    (* fs.existsSync *)
  f_mkdirOk : string -> bool    (* fs.mkdirSync(..., { recursive: true }) returns *)
}.

(** The value of [WATCH_FOLDER] after [startWatcher]. *)
Definition startWatcher (fs : FolderFs) (env : ProcessEnv) (WATCH_FOLDER : string)
  : string :=
  if f_exists fs WATCH_FOLDER then WATCH_FOLDER
  else if f_mkdirOk fs WATCH_FOLDER then WATCH_FOLDER
  else testPhotos env.

(** The settings row with id 1, if there is one, and the module variable
    of the watcher. *)
Record Server := {
  settingsRow : option (option string);
  WATCH_FOLDER : string
}.

Definition readSettings (st : Server) : SettingsRead :=
  match settingsRow st with
  | None => NoRow
  | Some v => Row v
  end.

(** The server after start-up: the module is loaded, then
    [initializeWatcher] runs. *)
Definition boot (fs : FolderFs) (env : ProcessEnv) (row : option (option string))
  : Server :=
  let loaded := {| settingsRow := row; WATCH_FOLDER := envOrDefault env |} in
  {| settingsRow := row;
     WATCH_FOLDER := startWatcher fs env
                       (initializeWatcher (readSettings loaded)
                                          (WATCH_FOLDER loaded)) |}.

(** [watch_folder_path] of the request body. *)
Inductive BodyValue := Undefined | Null | Text (p : string).

Inductive PutResponse := SettingsUpdated | AbsolutePathRequired.

(** [path.isAbsolute], POSIX flavour. *)
Definition isAbsolute (p : string) : bool := startsWith p "/".

Definition truthy (v : BodyValue) : option string :=
  match v with
  | Text p => if String.eqb p "" then None else Some p
  | Undefined | Null => None
  end.

(** [PUT /] of the global settings, for a watcher that was initialised. *)
Definition putSettings (fs : FolderFs) (env : ProcessEnv) (watch_folder_path : BodyValue)
    (st : Server) : Server * PutResponse :=
  match watch_folder_path with
  | Undefined => (st, SettingsUpdated)
  | _ =>
      match truthy watch_folder_path with
      | Some p =>
          if negb (isAbsolute p) then (st, AbsolutePathRequired)
          else
            ({| settingsRow := match settingsRow st with
                               | Some _ => Some (Some p)      (* UPDATE ... WHERE id = 1 *)
                               | None => None
                               end;
                WATCH_FOLDER := startWatcher fs env p |},     (* reloadWatcher *)
             SettingsUpdated)
      | None =>
          ({| settingsRow := match settingsRow st with
                             | Some _ => Some None
                             | None => None
                             end;
              WATCH_FOLDER := WATCH_FOLDER st |},
           SettingsUpdated)
      end
  end.

(** The folder the routes and the cleanup work on. *)
Definition routesFolder (env : ProcessEnv) (st : Server) : string :=
  getWatchFolder (readSettings st) env.

(** The folder exists or can be created. *)
Definition usable (fs : FolderFs) (p : string) : bool :=
  f_exists fs p || f_mkdirOk fs p.

End Config.

(** ** The public photo list *)

Module Gallery.
Import Media Scanner Store Reconciler Routes.

(** [String.prototype.endsWith]. *)
Definition endsWith (s suffix : string) : bool :=
  (String.length suffix <=? String.length s)%nat
  && String.eqb (String.substring (String.length s - String.length suffix)
                                  (String.length suffix) s) suffix.

Definition galleryExtensions : list string :=
  ["jpg"; "jpeg"; "png"; "gif"; "webp"; "mp4"; "mov"; "avi"; "webm"].

(** [/\.(jpg|jpeg|png|gif|webp|mp4|mov|avi|webm)$/i.test(f)], on ASCII. *)
Definition matchesMediaName (f : string) : bool :=
  existsb (fun e => endsWith (toLowerCase f) ("." ++ e)) galleryExtensions.

(** [readdirSync(folderPath).filter(...).sort()]. *)
Definition galleryListing (names : list string) : list string :=
  sortNames
    (List.filter (fun f => matchesMediaName f && negb (startsWith f "_")) names).

(** An entry of the answer, without its [id] (always null) and the
    [createdAt] read from the file. *)
Record GalleryEntry := {
  photoNumber : nat;
  sourceFile : string;
  thumbnailUrl : string;
  originalUrl : string;
  mediaType : MediaType;
  fileExtension : string
}.

Definition entryOf (sessionId photoFile : string) (i : nat) : GalleryEntry :=
  let photoNumber := (i + 1)%nat in
  let ext := toLowerCase (extname photoFile) in
  let isVideo := includes [".mp4"; ".mov"; ".avi"; ".webm"] ext in
  let isGif := String.eqb ext ".gif" in
  {| photoNumber := photoNumber;
     sourceFile := photoFile;
     thumbnailUrl := "/gallery/" ++ sessionId ++ "/photo_" ++ show_nat photoNumber
                     ++ ".jpg";
     originalUrl := "/api/photo/original/" ++ sessionId ++ "/" ++ show_nat photoNumber;
     mediaType := if isVideo then video else if isGif then gif else image;
     fileExtension := ext |}.

(** The [for (let i = 0; i < files.length; i++)] loop; an empty name is
    skipped by [continue] and still uses up its index. *)
Fixpoint photosFromFs (sessionId : string) (files : list string) (i : nat)
  : list GalleryEntry :=
  match files with
  | [] => []
  | photoFile :: rest =>
      if String.eqb photoFile "" then photosFromFs sessionId rest (i + 1)%nat
      else entryOf sessionId photoFile i :: photosFromFs sessionId rest (i + 1)%nat
  end.

(** [INSERT OR REPLACE INTO photos (...) VALUES (...)]: a row with the
    same session and number gives way. *)
Definition insertOrReplacePhoto (fault : bool) (row : Photo) (db : Db)
  : result Db DbError :=
  if fault then Err IoFault
  else if negb (existsb (has_uuid (p_session_uuid row)) (sessions db))
  then Err ForeignKeyViolation
  else Ok {| sessions := sessions db;
             photos :=
               List.filter (fun p => negb (of_session (p_session_uuid row) p
                                           && (photo_number p =? photo_number row)%nat))
                           (photos db) ++ [row] |}.

(** What the [setImmediate] callback closes over. *)
Record SyncJob := {
  sy_sessionId : string;
  sy_folderPath : string;      (* path.join(WATCH_FOLDER, folderName) *)
  sy_galleryFolder : string;
  sy_list : list GalleryEntry
}.

Definition syncRow (job : SyncJob) (now : string) (p : GalleryEntry) : Photo :=
  {| p_session_uuid := sy_sessionId job;
     photo_number := photoNumber p;
     original_path := if String.eqb (sourceFile p) "" then ""
                      else path_join (sy_folderPath job) (sourceFile p);
     processed_path := path_join (sy_galleryFolder job)
                         ("photo_" ++ show_nat (photoNumber p) ++ ".jpg");
     upload_timestamp := now |}.

(** The loop of the transaction body; [now i] is the time and [fault i]
    the fate of the insert at index [i]. *)
Fixpoint syncLoop (job : SyncJob) (now : nat -> string) (fault : nat -> bool)
    (list : list GalleryEntry) (i : nat) (db : Db) : result (Db * unit) DbError :=
  match list with
  | [] => Ok (db, tt)
  | p :: rest =>
      match insertOrReplacePhoto (fault i) (syncRow job (now i) p) db with
      | Err e => Err e
      | Ok db' => syncLoop job now fault rest (i + 1)%nat db'
      end
  end.

(** The [setImmediate] callback: the transaction, and the [catch] that
    logs its failure. *)
Definition runSync (job : SyncJob) (now : nat -> string) (fault : nat -> bool)
    (db : Db) : Db :=
  fst (transaction
         (fun d => syncLoop job now fault (sy_list job) 0%nat
                     (deletePhotos (sy_sessionId job) d)) db).

Inductive GalleryAnswer :=
| GalleryNotFound
| GalleryError
| PhotosFromFs (entries : list GalleryEntry)
| PhotosFromDb (rows : list (Photo * MediaType * string)).

(** The entry of the database fallback: the row, its media type and
    its extension. *)
Definition fallbackEntry (photo : Photo) : Photo * MediaType * string :=
  let ext := if String.eqb (original_path photo) "" then ".jpg"
             else toLowerCase (extname (original_path photo)) in
  let isVideo := includes [".mp4"; ".mov"; ".avi"; ".webm"] ext in
  let isGif := String.eqb ext ".gif" in
  (photo, if isVideo then video else if isGif then gif else image, ext).

(** [GET /:sessionId/photos]: the answer and the job left for
    [setImmediate].  [trim] is [String.prototype.trim], [node] the session
    folder as the route reads it, [galleryDirOk] whether the gallery folder
    exists or can be made. *)
Definition galleryPhotos (trim : string -> string) (watchFolder sessionId : string)
    (node : FsNode) (galleryDirOk : bool) (db : Db)
  : GalleryAnswer * option SyncJob :=
  match selectSession sessionId db with
  | None => (GalleryNotFound, None)
  | Some session =>
      let folderName := trim (folder_name session) in
      let fallback :=
        (PhotosFromDb (map fallbackEntry (byNumber (photosOf sessionId db))), None) in
      if String.eqb folderName "" then fallback
      else
        let folderPath := path_join watchFolder folderName in
        match node with
        | Missing => fallback
        | NotADirectory | ReaddirThrows => (GalleryError, None)
        | Directory items =>
            let files := galleryListing (map d_name items) in
            if negb galleryDirOk then (GalleryError, None)
            else
              let galleryFolder := path_join GALLERY_FOLDER sessionId in
              let entries := photosFromFs sessionId files 0 in
              (PhotosFromFs entries,
               Some {| sy_sessionId := sessionId; sy_folderPath := folderPath;
                       sy_galleryFolder := galleryFolder; sy_list := entries |})
        end
  end.

End Gallery.

(** ** Further notions for statements *)

Module MoreNotions.
Import Media Scanner Sharp Store Reconciler Debounce Notions Sweep Cleanup Routes
  Gallery.

(** Two worlds in which every file transforms alike. *)
Definition sameTransforms (w1 w2 : World) : Prop :=
  (forall f, w_copy_ok w1 f = w_copy_ok w2 f) /\
  (forall f, w_poster_ok w1 f = w_poster_ok w2 f) /\
  (forall f, w_metadata w1 f = w_metadata w2 f) /\
  (forall f, w_thumbnail_ok w1 f = w_thumbnail_ok w2 f).

(** A world in which nothing but the transforms can go wrong. *)
Definition calm (w : World) : Prop :=
  w_dir_ok w = true /\ w_mkdir_ok w = true /\ w_gallery_ok w = true /\
  (forall n, w_insert_fault w n = false).

(** A photo row without its time stamp. *)
Definition rowKey (p : Photo) : string * nat * string * string :=
  (p_session_uuid p, photo_number p, original_path p, processed_path p).

Definition is_qr (e : Effect) : bool :=
  match e with
  | QrCodeWritten _ _ _ _ => true
  | _ => false
  end.

Definition is_session_insert (e : Effect) : bool :=
  match e with
  | SessionInserted _ => true
  | _ => false
  end.

(** The engine fails none of the inserts of photo numbers 1 to [n]. *)
Definition faultFree (w : World) (n : nat) : bool :=
  forallb (fun k => negb (w_insert_fault w k)) (seq 1 n).

(** The run gets as far as the transaction: past the gates, the session
    statement and the gallery folder. *)
Definition reachesTransaction (w : World) (F folderPath : string)
    (photoFiles : list string) (db : Db) : bool :=
  passesGates w folderPath photoFiles && negb (insertAborts w F db)
  && w_mkdir_ok w.

(** How a run for folder [F] ends, as far as the world decides it. *)
Definition outcomeOf (w : World) (F folderPath : string) (photoFiles : list string)
  : Outcome :=
  let n := List.length (validatedFiles w F folderPath photoFiles) in
  if (List.length photoFiles <? MIN_FILES_PER_SESSION)%nat
  then Skipped InsufficientFiles
  else if negb (w_dir_ok w) then Skipped InvalidFolder
  else if (totalFiles (scanFolderTree folderPath (w_final_scan w))
           <? MIN_FILES_PER_SESSION)%nat
  then Skipped FinalScanFailed
  else if negb (w_mkdir_ok w) then Errored AtGalleryDir
  else if negb (faultFree w n) then Errored AtTransaction
  else if w_gallery_ok w then Completed F n
  else Errored AtGalleryHtml.

(** The two reads of the sweep agree and reach the threshold, so that the
    sweep hands the folder to the reconciler. *)
Definition sweepGates (watchFolder : string) (reads : string -> FolderReads)
    (folder : string) : bool :=
  let fp := path_join watchFolder folder in
  isValid (scanFolderTree fp (fr_tree (reads folder))) &&
  (totalFiles (scanFolderTree fp (fr_recheck (reads folder)))
   =? totalFiles (scanFolderTree fp (fr_tree (reads folder))))%nat.

(** What the sweep does with [folder] when it is the only one, on [db]. *)
Definition sweepAlone (watchFolder : string) (reads : string -> FolderReads)
    (folder : string) (db : Db) : Db * list Effect * Attempt :=
  sweepFolder (fr_world (reads folder)) folder (path_join watchFolder folder)
              (fr_tree (reads folder)) (fr_recheck (reads folder)) db.

Definition is_reconciled (a : Attempt) : bool :=
  match a with
  | Reconciled _ => true
  | BelowThreshold | Inconsistent => false
  end.

(** A session that [GET /active] may list. *)
Definition eligible (db : Db) (s : Session) : bool :=
  listedStatus s && (MIN_PHOTOS <=? photoCount s db)%nat.

(** The identifiers [GET /active] answers with. *)
Definition listedIds (db : Db) : list string :=
  map (fun r => session_uuid (fst r)) (activeSessions db).

(** The rows of [ss] with every session named in [ids] marked deleted. *)
Definition markedBy (now : string) (ids : list string) (ss : list Session)
  : list Session :=
  map (fun s => if existsb (String.eqb (session_uuid s)) ids
                then set_deleted now s else s) ss.




(** The loop variables of [path.extname] for the same name [d] code
    units further into a path. *)
Definition shiftScan (d : Z) (st : ExtScan) : ExtScan :=
  {| startDot := if startDot st =? -1 then -1 else startDot st + d;
     startPart := startPart st;
     endIdx := if endIdx st =? -1 then -1 else endIdx st + d;
     matchedSlash := matchedSlash st;
     preDotState := preDotState st |}.

(** One turn of the loop of [path.extname] on a code unit that is not a
    slash. *)
Definition extStep (i : Z) (code : ascii) (st : ExtScan) : ExtScan :=
  let st1 :=
    if endIdx st =? -1 then
      {| startDot := startDot st; startPart := startPart st;
         endIdx := i + 1; matchedSlash := false;
         preDotState := preDotState st |}
    else st in
  if Ascii.eqb code CHAR_DOT then
    if startDot st1 =? -1 then
      {| startDot := i; startPart := startPart st1;
         endIdx := endIdx st1; matchedSlash := matchedSlash st1;
         preDotState := preDotState st1 |}
    else if negb (preDotState st1 =? 1) then
      {| startDot := startDot st1; startPart := startPart st1;
         endIdx := endIdx st1; matchedSlash := matchedSlash st1;
         preDotState := 1 |}
    else st1
  else if negb (startDot st1 =? -1) then
    {| startDot := startDot st1; startPart := startPart st1;
       endIdx := endIdx st1; matchedSlash := matchedSlash st1;
       preDotState := -1 |}
  else st1.

(** No code unit of [s] is a slash. *)
Definition slashFree (s : string) : bool :=
  forallb (fun c => negb (Ascii.eqb c CHAR_FORWARD_SLASH)) (list_ascii_of_string s).

(** The branch of the validation loop a file takes: the video branch,
    the GIF branch or the plain image branch. *)
Definition mediaClass (photoFile : string) : MediaType :=
  if isVideoFile photoFile then video
  else if String.eqb (toLowerCase (extname photoFile)) ".gif" then gif
  else image.

(** The rows the synchronisation writes for [files], from index [i]. *)
Fixpoint syncRows (job : SyncJob) (now : nat -> string) (files : list string)
    (i : nat) : list Photo :=
  match files with
  | [] => []
  | f :: rest =>
      syncRow job (now i) (entryOf (sy_sessionId job) f i)
        :: syncRows job now rest (i + 1)%nat
  end.

(** What [GET /:sessionId/photos] keeps of the names of a folder. *)
Definition galleryKeeps (f : string) : bool :=
  matchesMediaName f && negb (startsWith f "_").

(** [a] is listed before [b] only if it is not older. *)
Definition notOlder (a b : Session * nat) : Prop :=
  String.leb (created_at (fst b)) (created_at (fst a)) = true.

End MoreNotions.

(** ** A watch root for the sweep *)

Module SweepSamples.
Import Media Scanner Store Reconciler Notions Samples Sweep.

(** The watch root as the directory read returns it: two finished
    sessions, a folder still being written, a folder of the operator, and
    two loose files. *)
Definition rootListing : list RootEntry :=
  [{| r_name := "Event1"; r_stat := RootDirectory 1000 |};
   {| r_name := ".DS_Store"; r_stat := RootFile |};
   {| r_name := "Event2"; r_stat := RootDirectory 3000 |};
   {| r_name := "_archive"; r_stat := RootDirectory 500 |};
   {| r_name := "Event3"; r_stat := RootDirectory 2000 |};
   {| r_name := "notes.txt"; r_stat := RootFile |}].

(** Event3 gains a file between its two reads. *)
Definition sweepReads (folder : string) : FolderReads :=
  if String.eqb folder "Event3"
  then {| fr_tree := twoFiles; fr_recheck := threeFiles; fr_world := worldSmallA |}
  else {| fr_tree := event1; fr_recheck := event1; fr_world := worldSmallA |}.

End SweepSamples.

(** ** Stores for the routes *)

Module RouteSamples.
Import Media Scanner Store Reconciler Notions Samples Routes.

(** A session created under a generated identifier for folder Event1,
    with two rows. *)
Definition legacySession : Session :=
  {| session_uuid := "6f1c2a9e-52b1-4c1d-9a57-0d7f3b1e8a44"; folder_name := "Event1";
     layout_used := "none"; created_at := "2025-11-30T09:00:00.000Z";
     status := active; is_public := true;
     access_token := "0123456789abcdef0123456789abcdef";
     updated_at := "2025-11-30 09:00:00"; deleted_at := None |}.

Definition legacyDb : Db :=
  {| sessions := [legacySession];
     photos :=
       [{| p_session_uuid := "6f1c2a9e-52b1-4c1d-9a57-0d7f3b1e8a44"; photo_number := 1;
           original_path := "/photos/Event1/a.jpg";
           processed_path := "public/gallery/6f1c2a9e-52b1-4c1d-9a57-0d7f3b1e8a44/photo_1.jpg";
           upload_timestamp := "2025-11-30T09:00:05.000Z" |};
        {| p_session_uuid := "6f1c2a9e-52b1-4c1d-9a57-0d7f3b1e8a44"; photo_number := 2;
           original_path := "/photos/Event1/b.jpg";
           processed_path := "public/gallery/6f1c2a9e-52b1-4c1d-9a57-0d7f3b1e8a44/photo_2.jpg";
           upload_timestamp := "2025-11-30T09:00:05.000Z" |}] |}.

(** The gallery folder goes, the original folder is locked. *)
Definition lockedOriginal : DeleteFs :=
  {| galleryExists := true; galleryRmOk := true;
     originalExists := true; originalRmOk := false |}.

(** Only a.jpg of the sample folder transforms. *)
Definition worldOnlyA : World := worldKeeping event1 ["a.jpg"].

End RouteSamples.

(** ** A cleanup run *)

Module CleanupSamples.
Import Store Cleanup.

(** 21 December 2025, seven days of retention, every folder present
    and removable. *)
Definition december21 : CleanupEnv :=
  {| c_now := 1766300000000; c_nowIso := "2025-12-21T06:53:20.000Z";
     CLEANUP_DAYS := Some 7;
     c_parse := fun created =>
       if String.eqb created "2025-11-30T09:00:00.000Z" then Some 1764493200000
       else if String.eqb created "2025-12-19T00:00:00.000Z" then Some 1766102400000
       else None;
     c_exists := fun _ => true; c_rmOk := fun _ => true |}.

End CleanupSamples.

Example extname_samples :
  map Media.extname ["a.jpg"; "index.coffee.md"; "index."; "index"; ".index";
                     ".index.md"; ".."; "dir.d/clip.MP4"; "dir.d/noext"]
  = [".jpg"; ".md"; "."; ""; ""; ".md"; ""; ".MP4"; ""].
Proof. reflexivity. Qed.

(** * Properties *)

Import Media Scanner Sharp Store Reconciler Debounce Notions.

(** ** The store *)

Section StoreFacts.

Lemma insertPhoto_Ok fault row db db' :
  insertPhoto fault row db = Ok db' ->
  db' = {| sessions := sessions db; photos := photos db ++ [row] |}.
Proof.
  unfold insertPhoto.
  destruct fault; [discriminate |].
  destruct (negb _); [discriminate |].
  destruct (existsb _ (photos db)); [discriminate |].
  now intros [= <-].
Qed.

Lemma transaction_rolls_back {A} (fn : Db -> result (Db * A) DbError) db e :
  snd (transaction fn db) = Err e -> fst (transaction fn db) = db.
Proof.
  unfold transaction. destruct (fn db) as [[db' a] | e']; simpl; congruence.
Qed.

Lemma transaction_commits {A} (fn : Db -> result (Db * A) DbError) db a :
  snd (transaction fn db) = Ok a -> fn db = Ok (fst (transaction fn db), a).
Proof.
  unfold transaction. destruct (fn db) as [[db' a'] | e']; simpl; congruence.
Qed.

Lemma find_existsb_uuid id (ss : list Session) :
  List.find (has_uuid id) ss = None -> existsb (has_uuid id) ss = false.
Proof.
  induction ss as [| s ss IH]; simpl; [easy |].
  destruct (has_uuid id s); [discriminate | exact IH].
Qed.

Lemma find_some_existsb_uuid id (ss : list Session) s :
  List.find (has_uuid id) ss = Some s -> existsb (has_uuid id) ss = true.
Proof.
  induction ss as [| s0 ss IH]; simpl; [discriminate |].
  destruct (has_uuid id s0); [reflexivity | exact IH].
Qed.

Lemma filter_all {A} (p : A -> bool) (l : list A) :
  Forall (fun x => p x = true) l -> List.filter p l = l.
Proof.
  induction 1 as [| x l Hx _ IH]; simpl; [reflexivity |].
  now rewrite Hx, IH.
Qed.

Lemma filter_none {A} (p : A -> bool) (l : list A) :
  Forall (fun x => p x = false) l -> List.filter p l = [].
Proof.
  induction 1 as [| x l Hx _ IH]; simpl; [reflexivity |].
  now rewrite Hx.
Qed.

Lemma filter_neg_then_pos {A} (p : A -> bool) (l : list A) :
  List.filter p (List.filter (fun x => negb (p x)) l) = [].
Proof.
  apply filter_none, List.Forall_forall. intros x Hx.
  apply List.filter_In in Hx. destruct Hx as [_ Hx].
  now destruct (p x).
Qed.

End StoreFacts.

(** ** The transaction body *)

Section TransactionFacts.
Variable w : World.
Variables sessionId folderPath galleryPath : string.

Lemma insertLoop_inv files : forall i c db db' n,
  insertLoop w sessionId folderPath galleryPath files i c db = Ok (db', n) ->
  n = (c + List.length files)%nat /\
  sessions db' = sessions db /\
  photos db' = (photos db ++ rowsFrom w sessionId folderPath galleryPath files i)%list.
Proof.
  induction files as [| f files IH]; simpl; intros i c db db' n H.
  - injection H as <- <-. rewrite Nat.add_0_r, app_nil_r. auto.
  - destruct (insertPhoto _ _ db) as [db1 | e] eqn:E; [| discriminate].
    apply insertPhoto_Ok in E. subst db1.
    apply IH in H. simpl in H. destruct H as (-> & -> & ->).
    repeat split; [lia |]. now rewrite <- app_assoc.
Qed.

Lemma rowsFrom_numbers files : forall i,
  map photo_number (rowsFrom w sessionId folderPath galleryPath files i)
  = seq (i + 1) (List.length files).
Proof.
  induction files as [| f files IH]; simpl; intros i; [reflexivity |].
  rewrite IH. now replace (i + 1 + 1)%nat with (S (i + 1)) by lia.
Qed.

Lemma rowsFrom_length files : forall i,
  List.length (rowsFrom w sessionId folderPath galleryPath files i)
  = List.length files.
Proof. induction files; simpl; intros; [reflexivity | now rewrite IHfiles]. Qed.

Lemma rowsFrom_owned files : forall i,
  Forall (fun p => of_session sessionId p = true)
         (rowsFrom w sessionId folderPath galleryPath files i).
Proof.
  induction files as [| f files IH]; simpl; intros i; constructor; [| apply IH].
  unfold of_session; simpl. apply String.eqb_refl.
Qed.

Lemma rowsFrom_nth files : forall i k f,
  nth_error files k = Some f ->
  nth_error (rowsFrom w sessionId folderPath galleryPath files i) k
  = Some (photoRow w sessionId folderPath galleryPath f (i + k + 1)).
Proof.
  induction files as [| f0 files IH]; intros i k f H.
  - destruct k; discriminate.
  - destruct k as [| k]; simpl in *.
    + injection H as ->. now rewrite Nat.add_0_r.
    + rewrite (IH (i + 1)%nat k f H). do 2 f_equal. lia.
Qed.

Lemma rowsFrom_original files : forall i p,
  In p (rowsFrom w sessionId folderPath galleryPath files i) ->
  exists f, In f files /\ original_path p = path_join folderPath f.
Proof.
  induction files as [| f0 files IH]; simpl; intros i p H; [easy |].
  destruct H as [<- | H].
  - exists f0. auto.
  - destruct (IH _ _ H) as (f & Hf & Hp). exists f. auto.
Qed.

(** Once the old rows are gone, only a fault of the engine or a missing
    session row can make an insert fail. *)
Lemma insertLoop_succeeds files : forall i c db,
  (forall n, w_insert_fault w n = false) ->
  existsb (has_uuid sessionId) (sessions db) = true ->
  (forall p, In p (photos db) -> of_session sessionId p = true ->
             (photo_number p <= i)%nat) ->
  exists db', insertLoop w sessionId folderPath galleryPath files i c db
              = Ok (db', (c + List.length files)%nat).
Proof.
  induction files as [| f files IH]; simpl; intros i c db Hfault Hfk Huniq.
  - exists db. now rewrite Nat.add_0_r.
  - unfold insertPhoto at 1. rewrite Hfault. simpl. rewrite Hfk. simpl.
    destruct (existsb _ (photos db)) eqn:E.
    + apply existsb_exists in E. destruct E as (p & Hp & Hc).
      apply andb_true_iff in Hc. destruct Hc as [Hs Hn].
      apply Nat.eqb_eq in Hn. specialize (Huniq p Hp Hs). lia.
    + destruct (IH (i + 1)%nat (c + 1)%nat
                  {| sessions := sessions db;
                     photos := photos db
                       ++ [photoRow w sessionId folderPath galleryPath f (i + 1)] |})
        as [db' Hdb']; auto.
      * intros p Hp Hs. simpl in Hp. apply in_app_or in Hp.
        destruct Hp as [Hp | [<- | []]]; [| simpl; lia].
        specialize (Huniq p Hp Hs). lia.
      * exists db'. rewrite Hdb'. do 2 f_equal. lia.
Qed.

Lemma insertPhotosBody_inv files db db' n :
  insertPhotosBody w sessionId folderPath galleryPath files db = Ok (db', n) ->
  n = List.length files /\
  sessions db' = sessions db /\
  photos db' = (photosNotOf sessionId db
                ++ rowsFrom w sessionId folderPath galleryPath files 0)%list.
Proof.
  unfold insertPhotosBody. intros H. apply insertLoop_inv in H.
  destruct H as (-> & -> & ->). auto.
Qed.

Lemma insertPhotosBody_succeeds files db :
  (forall n, w_insert_fault w n = false) ->
  existsb (has_uuid sessionId) (sessions db) = true ->
  exists db', insertPhotosBody w sessionId folderPath galleryPath files db
              = Ok (db', List.length files).
Proof.
  intros Hfault Hfk. unfold insertPhotosBody.
  destruct (insertLoop_succeeds files 0 0 (deletePhotos sessionId db))
    as [db' H]; auto.
  - intros p Hp Hs. simpl in Hp. apply List.filter_In in Hp.
    destruct Hp as [_ Hp]. rewrite Hs in Hp. discriminate.
  - exists db'. exact H.
Qed.

End TransactionFacts.

(** ** The validation loop and the reconciler *)

Section ReconcilerFacts.
Variable w : World.

Lemma transformFile_pushed fp gp f n :
  fst (transformFile w fp gp f n) = transformable w f.
Proof.
  unfold transformFile, transformable.
  destruct (isVideoFile f).
  - destruct (w_copy_ok w f); reflexivity.
  - destruct (isImageFile f); [| reflexivity].
    destruct (w_metadata w f) as [[width height] |]; [| reflexivity].
    destruct ((width <? 100) || (height <? 100)); [reflexivity |].
    destruct (String.eqb _ ".gif"); [| reflexivity].
    destruct (w_copy_ok w f); reflexivity.
Qed.

Lemma transformFile_effects fp gp f n :
  Forall (fun e => is_transform e = true) (snd (transformFile w fp gp f n)).
Proof.
  unfold transformFile.
  repeat match goal with
         | |- context [if ?c then _ else _] => destruct c
         | |- context [match w_metadata w f with _ => _ end] =>
             destruct (w_metadata w f) as [[? ?] |]
         end; simpl; repeat constructor.
Qed.

Lemma transformLoop_validated fp gp files : forall acc,
  fst (transformLoop w fp gp files acc)
  = (acc ++ List.filter (transformable w) files)%list.
Proof.
  induction files as [| f files IH]; simpl; intros acc.
  - now rewrite app_nil_r.
  - pose proof (transformFile_pushed fp gp f (List.length acc + 1)) as Hp.
    destruct (transformFile w fp gp f (List.length acc + 1)) as [pushed effs].
    simpl in Hp. subst pushed.
    specialize (IH (if transformable w f then (acc ++ [f])%list else acc)).
    destruct (transformLoop w fp gp files _) as [final effs'].
    simpl in *. rewrite IH.
    destruct (transformable w f); [now rewrite <- app_assoc | reflexivity].
Qed.

Lemma transformLoop_effects fp gp files : forall acc,
  Forall (fun e => is_transform e = true) (snd (transformLoop w fp gp files acc)).
Proof.
  induction files as [| f files IH]; simpl; intros acc; [constructor |].
  pose proof (transformFile_effects fp gp f (List.length acc + 1)) as He.
  destruct (transformFile w fp gp f (List.length acc + 1)) as [pushed effs].
  specialize (IH (if pushed then (acc ++ [f])%list else acc)).
  destruct (transformLoop w fp gp files _) as [final effs'].
  simpl in *. apply Forall_app. auto.
Qed.

Lemma validatedFiles_filter F fp pf :
  validatedFiles w F fp pf = List.filter (transformable w) (candidates w fp pf).
Proof. unfold validatedFiles. now rewrite transformLoop_validated. Qed.

(** What [processMedia] can leave behind, by outcome. *)
Lemma processMedia_inv sid fp pf log0 db db' log o :
  processMedia w sid fp pf log0 db = (db', log, o) ->
  let v := fst (transformLoop w fp (path_join GALLERY_FOLDER sid) pf []) in
  let rows := rowsFrom w sid fp (path_join GALLERY_FOLDER sid) v 0 in
  sessions db' = sessions db /\
  (exists rest, log = (log0 ++ rest)%list) /\
  match o with
  | Skipped _ | Errored AtSessionInsert => False
  | Completed sid' n =>
      sid' = sid /\ n = List.length v /\
      photos db' = (photosNotOf sid db ++ rows)%list
  | Errored AtGalleryHtml => photos db' = (photosNotOf sid db ++ rows)%list
  | Errored AtGalleryDir | Errored AtTransaction => db' = db
  end.
Proof.
  intros H. cbv zeta. unfold processMedia in H.
  destruct (w_mkdir_ok w); simpl in H.
  2:{ injection H as <- <- <-. repeat split; eauto. }
  destruct (transformLoop w fp (path_join GALLERY_FOLDER sid) pf [])
    as [validated tlog]; simpl.
  unfold insertPhotosTxn, transaction in H.
  destruct (insertPhotosBody w sid fp _ validated db) as [[db1 n] | e] eqn:E.
  - apply insertPhotosBody_inv in E. destruct E as (-> & Hs & Hp).
    destruct (w_gallery_ok w); injection H as <- <- <-;
      repeat split; eauto.
    all: rewrite <- app_assoc; eauto.
  - injection H as <- <- <-. repeat split; eauto.
Qed.

(** The gates, read off the three early returns. *)
Lemma gates_closed F fp pf db :
  passesGates w fp pf = false ->
  exists why, scanAndProcessSession w F fp pf db = (db, [], Skipped why).
Proof.
  unfold passesGates, scanAndProcessSession. intros H.
  destruct (List.length pf <? MIN_FILES_PER_SESSION)%nat; [eauto |].
  destruct (w_dir_ok w); [| eauto]. simpl in *.
  destruct (totalFiles _ <? MIN_FILES_PER_SESSION)%nat; [eauto | discriminate].
Qed.

Lemma gates_open F fp pf db :
  passesGates w fp pf = true ->
  scanAndProcessSession w F fp pf db =
  if insertAborts w F db then (db, [], Errored AtSessionInsert)
  else processMedia w F fp (candidates w fp pf) (sessionPrefix w F fp db)
         (withSession w F db).
Proof.
  unfold passesGates, scanAndProcessSession. intros H.
  destruct (List.length pf <? MIN_FILES_PER_SESSION)%nat; [discriminate |].
  destruct (w_dir_ok w); [| discriminate]. simpl in *.
  destruct (totalFiles _ <? MIN_FILES_PER_SESSION)%nat; [discriminate |].
  unfold insertAborts, withSession, sessionPrefix, selectSession.
  destruct (List.find (has_uuid F) (sessions db)) eqn:E.
  - unfold activateSession. now destruct (w_session_fault w).
  - unfold insertSession. destruct (w_session_fault w); [reflexivity |]. simpl.
    now rewrite (find_existsb_uuid _ _ E).
Qed.

(** The photo rows are not touched by the session statement. *)
Lemma withSession_photos F db : photos (withSession w F db) = photos db.
Proof.
  unfold withSession. destruct (selectSession F db); [| reflexivity].
  now destruct (w_session_fault w).
Qed.

(** The photos table after any run, by outcome. *)
Lemma scanAndProcessSession_photos F fp pf db db' log o :
  scanAndProcessSession w F fp pf db = (db', log, o) ->
  match o with
  | Completed sid n =>
      sid = F /\ n = List.length (validatedFiles w F fp pf) /\
      photos db' = (photosNotOf F db ++ newRows w F fp pf)%list
  | Errored AtGalleryHtml =>
      photos db' = (photosNotOf F db ++ newRows w F fp pf)%list
  | _ => photos db' = photos db
  end.
Proof.
  intros H. destruct (passesGates w fp pf) eqn:G.
  - rewrite (gates_open _ _ _ _ G) in H.
    destruct (insertAborts w F db); [now injection H as <- <- <- |].
    apply processMedia_inv in H. destruct H as (_ & _ & H).
    unfold photosNotOf in H. rewrite withSession_photos in H.
    destruct o as [? | ? ? | []]; try contradiction; try exact H;
      subst db'; apply withSession_photos.
  - destruct (gates_closed F fp pf db G) as [why E].
    rewrite E in H. now injection H as <- <- <-.
Qed.

End ReconcilerFacts.

(** ** Paths and extensions *)

Section PathFacts.

Lemma append_inv_head (s x y : string) : (s ++ x = s ++ y)%string -> x = y.
Proof.
  induction s as [| c s IH]; simpl; intros H; [exact H |].
  injection H as H. auto.
Qed.

Lemma path_join_inj dir a b : path_join dir a = path_join dir b -> a = b.
Proof.
  unfold path_join. intros H.
  apply append_inv_head in H. now apply (append_inv_head "/") in H.
Qed.

Lemma image_ext_cases e :
  includes SUPPORTED_IMAGE_TYPES e = true ->
  In e SUPPORTED_IMAGE_TYPES.
Proof.
  unfold includes. intros H. apply existsb_exists in H.
  destruct H as (x & Hx & He). apply String.eqb_eq in He. now subst.
Qed.

Lemma image_not_video f : isImageFile f = true -> isVideoFile f = false.
Proof.
  unfold isImageFile, isVideoFile. intros H.
  apply image_ext_cases in H. simpl in H.
  destruct H as [<- | [<- | [<- | [<- | [<- | []]]]]]; reflexivity.
Qed.

Lemma image_is_media f :
  isImageFile f = true ->
  includes SUPPORTED_MEDIA_TYPES (toLowerCase (extname f)) = true.
Proof.
  unfold isImageFile, includes, SUPPORTED_MEDIA_TYPES. intros H.
  rewrite existsb_app, H. reflexivity.
Qed.

Lemma media_image_or_video f :
  includes SUPPORTED_MEDIA_TYPES (toLowerCase (extname f)) = true ->
  isVideoFile f = true \/ (isVideoFile f = false /\ isImageFile f = true).
Proof.
  unfold isImageFile, isVideoFile, includes, SUPPORTED_MEDIA_TYPES.
  rewrite existsb_app. intros H.
  destruct (existsb _ SUPPORTED_VIDEO_TYPES); [now left |].
  right. now rewrite orb_false_r in H.
Qed.

End PathFacts.

(** ** Replacing the photo rows *)

Section ReplaceFacts.
Variable w : World.
Variables F folderPath : string.
Variable photoFiles : list string.

Lemma newRows_owned :
  Forall (fun p => of_session F p = true) (newRows w F folderPath photoFiles).
Proof. apply rowsFrom_owned. Qed.

Lemma photosOf_replaced db db' :
  photos db' = (photosNotOf F db ++ newRows w F folderPath photoFiles)%list ->
  photosOf F db' = newRows w F folderPath photoFiles /\
  photosNotOf F db' = photosNotOf F db.
Proof.
  intros H. unfold photosOf, photosNotOf in *. rewrite H, !List.filter_app.
  split.
  - rewrite filter_neg_then_pos. simpl. apply filter_all, newRows_owned.
  - rewrite (filter_none _ (newRows _ _ _ _)), app_nil_r.
    + apply filter_all, List.Forall_forall. intros p Hp.
      apply List.filter_In in Hp. tauto.
    + eapply List.Forall_impl; [| apply newRows_owned].
      simpl. now intros p ->.
Qed.

End ReplaceFacts.

Lemma completed_rows w F folderPath photoFiles db db' log sid N :
  scanAndProcessSession w F folderPath photoFiles db = (db', log, Completed sid N) ->
  sid = F /\ N = List.length (validatedFiles w F folderPath photoFiles) /\
  photosOf F db' = newRows w F folderPath photoFiles /\
  map photo_number (photosOf F db') = seq 1 N.
Proof.
  intros H. apply scanAndProcessSession_photos in H.
  destruct H as (-> & -> & H).
  apply (photosOf_replaced w F folderPath photoFiles) in H. destruct H as [H _].
  rewrite H. repeat split. apply rowsFrom_numbers.
Qed.

(** C1 — dense numbering.  When a reconciliation of folder [F] runs to
    completion with [N] rows written, [N] is the number of files that came
    through the validation loop, the rows of [F] in the store carry the
    photo numbers 1, 2, ..., [N] in this order (so: no duplicate, no gap),
    and the row at position [i] of the validated list has number [i + 1] and
    points at that file. *)
Theorem dense_numbering w F folderPath photoFiles db db' log sid N :
  scanAndProcessSession w F folderPath photoFiles db = (db', log, Completed sid N) ->
  N = List.length (validatedFiles w F folderPath photoFiles) /\
  map photo_number (photosOf F db') = seq 1 N /\
  NoDup (map photo_number (photosOf F db')) /\
  (forall n, In n (map photo_number (photosOf F db')) <-> (1 <= n <= N)%nat) /\
  (forall i f, nth_error (validatedFiles w F folderPath photoFiles) i = Some f ->
     exists p, nth_error (photosOf F db') i = Some p /\
               photo_number p = (i + 1)%nat /\
               original_path p = path_join folderPath f).
Proof.
  intros H. apply completed_rows in H. destruct H as (-> & HN & Hrows & Hnum).
  split; [exact HN |]. split; [exact Hnum |]. rewrite Hnum.
  split; [apply NoDup_seq |]. split.
  - intros n. rewrite List.in_seq. lia.
  - intros i f Hf. rewrite Hrows. eexists.
    split; [apply rowsFrom_nth, Hf |]. simpl. auto.
Qed.

Lemma dense_numbering_witness :
  let r := scanAndProcessSession Samples.worldCorruptC "Event1" "/photos/Event1"
             Samples.event1Files Samples.dbDeletedEvent1 in
  snd r = Completed "Event1" 2 /\
  map photo_number (photosOf "Event1" (fst (fst r))) = [1; 2]%nat.
Proof.
  split; [reflexivity |].
  refine (proj1 (proj2 (dense_numbering Samples.worldCorruptC "Event1"
            "/photos/Event1" Samples.event1Files Samples.dbDeletedEvent1
            _ _ "Event1" 2%nat _))).
  vm_compute. reflexivity.
Defined.

(** C9 — small images.  In a completed reconciliation, a file with an
    image extension (so: one the classifier and the scanner accept as
    media) whose decoded width or height is below 100 is not among the
    validated files, no row of the session points at it, and the rows are
    still numbered 1, ..., [N]. *)
Theorem small_image_excluded w F folderPath photoFiles db db' log sid N f width height :
  scanAndProcessSession w F folderPath photoFiles db = (db', log, Completed sid N) ->
  isImageFile f = true ->
  w_metadata w f = Some (width, height) ->
  width < 100 \/ height < 100 ->
  includes SUPPORTED_MEDIA_TYPES (toLowerCase (extname f)) = true /\
  ~ In f (validatedFiles w F folderPath photoFiles) /\
  (forall p, In p (photosOf F db') -> original_path p <> path_join folderPath f) /\
  map photo_number (photosOf F db') = seq 1 N.
Proof.
  intros H Himg Hmeta Hsmall.
  assert (Hout : ~ In f (validatedFiles w F folderPath photoFiles)).
  { rewrite validatedFiles_filter. intros Hin.
    apply List.filter_In in Hin. destruct Hin as [_ Ht].
    unfold transformable in Ht.
    rewrite (image_not_video _ Himg), Himg, Hmeta in Ht.
    assert (Hs : (width <? 100) || (height <? 100) = true)
      by (apply orb_true_iff; rewrite !Z.ltb_lt; exact Hsmall).
    rewrite Hs in Ht. discriminate. }
  split; [now apply image_is_media |].
  split; [exact Hout |].
  apply completed_rows in H. destruct H as (_ & _ & Hrows & Hnum).
  split; [| exact Hnum]. rewrite Hrows.
  intros p Hp Heq. apply rowsFrom_original in Hp.
  destruct Hp as (f' & Hf' & Hp). rewrite Hp in Heq.
  apply path_join_inj in Heq. subst f'. contradiction.
Qed.

Lemma small_image_excluded_witness :
  let r := scanAndProcessSession Samples.worldSmallA "Event1" "/photos/Event1"
             Samples.event1Files Samples.emptyDb in
  snd r = Completed "Event1" 2 /\
  ~ In "a.jpg" (validatedFiles Samples.worldSmallA "Event1" "/photos/Event1"
                  Samples.event1Files) /\
  map photo_number (photosOf "Event1" (fst (fst r))) = [1; 2]%nat.
Proof.
  split; [reflexivity |].
  assert (E : scanAndProcessSession Samples.worldSmallA "Event1" "/photos/Event1"
                Samples.event1Files Samples.emptyDb
              = (fst (fst (scanAndProcessSession Samples.worldSmallA "Event1"
                             "/photos/Event1" Samples.event1Files Samples.emptyDb)),
                 snd (fst (scanAndProcessSession Samples.worldSmallA "Event1"
                             "/photos/Event1" Samples.event1Files Samples.emptyDb)),
                 Completed "Event1" 2%nat))
    by (vm_compute; reflexivity).
  destruct (small_image_excluded Samples.worldSmallA "Event1" "/photos/Event1"
              Samples.event1Files Samples.emptyDb _ _ "Event1" 2%nat
              "a.jpg" 80 600 E eq_refl eq_refl (or_introl eq_refl))
    as (_ & Hout & _ & Hnum).
  split; [exact Hout | exact Hnum].
Defined.

(** ** The session row *)

Section SessionFacts.

Lemma has_uuid_eq id s : has_uuid id s = true -> session_uuid s = id.
Proof. unfold has_uuid. apply String.eqb_eq. Qed.

Lemma find_has_uuid id ss s :
  List.find (has_uuid id) ss = Some s -> session_uuid s = id.
Proof. intros H. apply List.find_some in H. now apply has_uuid_eq. Qed.

Lemma find_activated id now ss :
  List.find (has_uuid id)
    (map (fun s => if has_uuid id s then set_active now s else s) ss)
  = option_map (set_active now) (List.find (has_uuid id) ss).
Proof.
  induction ss as [| s ss IH]; simpl; [reflexivity |].
  destruct (has_uuid id s) eqn:E.
  - unfold has_uuid in *. simpl. now rewrite E.
  - now rewrite E.
Qed.

Lemma uuids_activated id now ss :
  map session_uuid
    (map (fun s => if has_uuid id s then set_active now s else s) ss)
  = map session_uuid ss.
Proof.
  rewrite map_map. apply map_ext. intros s. now destruct (has_uuid id s).
Qed.

Lemma find_appended id ss s :
  List.find (has_uuid id) ss = None -> has_uuid id s = true ->
  List.find (has_uuid id) (ss ++ [s]) = Some s.
Proof.
  induction ss as [| s0 ss IH]; simpl; intros Hn Hs.
  - now rewrite Hs.
  - destruct (has_uuid id s0); [discriminate | auto].
Qed.

Lemma withSession_select w F db :
  selectSession F (withSession w F db) = Some (rowAfter w F db).
Proof.
  unfold withSession, rowAfter, selectSession.
  destruct (List.find (has_uuid F) (sessions db)) as [s |] eqn:E.
  - destruct (w_session_fault w); [exact E |].
    simpl. now rewrite find_activated, E.
  - simpl. apply find_appended; [exact E |]. unfold has_uuid. simpl.
    apply String.eqb_refl.
Qed.

Lemma withSession_uuids w F db s :
  selectSession F db = Some s ->
  map session_uuid (sessions (withSession w F db)) = map session_uuid (sessions db).
Proof.
  unfold withSession. intros ->.
  destruct (w_session_fault w); [reflexivity | apply uuids_activated].
Qed.

Lemma rowAfter_uuid w F db : session_uuid (rowAfter w F db) = F.
Proof.
  unfold rowAfter, selectSession.
  destruct (List.find (has_uuid F) (sessions db)) as [s |] eqn:E; [| reflexivity].
  apply find_has_uuid in E. now destruct (w_session_fault w).
Qed.

Lemma rowAfter_active w F db :
  w_session_fault w = false -> status (rowAfter w F db) = active.
Proof.
  unfold rowAfter. intros ->. now destruct (selectSession F db).
Qed.

(** A run that gets past the gates and is stopped by the session INSERT. *)
Lemma aborted_run w F fp pf db db' log o :
  passesGates w fp pf = true ->
  scanAndProcessSession w F fp pf db = (db', log, o) ->
  insertAborts w F db = true ->
  db' = db /\ log = [] /\ o = Errored AtSessionInsert.
Proof.
  intros G H A. rewrite (gates_open _ _ _ _ _ G), A in H.
  now injection H as <- <- <-.
Qed.

Lemma session_after_run w F fp pf db db' log o :
  passesGates w fp pf = true ->
  scanAndProcessSession w F fp pf db = (db', log, o) ->
  insertAborts w F db = false ->
  sessions db' = sessions (withSession w F db) /\
  (exists rest, log = (sessionPrefix w F fp db ++ rest)%list) /\
  (forall why, o <> Skipped why) /\ o <> Errored AtSessionInsert.
Proof.
  intros G H A. rewrite (gates_open _ _ _ _ _ G), A in H.
  apply processMedia_inv in H.
  destruct H as (Hs & Hl & Ho); (split; [exact Hs |]);
    (split; [exact Hl |]);
    (split; [intros why -> | intros ->]); exact Ho.
Qed.

(** The session row a run leaves when the INSERT did not stop it. *)
Lemma row_after_run w F fp pf db db' log o :
  passesGates w fp pf = true ->
  scanAndProcessSession w F fp pf db = (db', log, o) ->
  insertAborts w F db = false ->
  selectSession F db' = Some (rowAfter w F db).
Proof.
  intros G H A. destruct (session_after_run _ _ _ _ _ _ _ _ G H A) as (Hs & _).
  unfold selectSession. rewrite Hs. apply withSession_select.
Qed.

Lemma aborts_iff w F fp pf db db' log o :
  passesGates w fp pf = true ->
  scanAndProcessSession w F fp pf db = (db', log, o) ->
  insertAborts w F db = true <-> o = Errored AtSessionInsert.
Proof.
  intros G H. destruct (insertAborts w F db) eqn:A.
  - destruct (aborted_run _ _ _ _ _ _ _ _ G H A) as (_ & _ & ->). tauto.
  - destruct (session_after_run _ _ _ _ _ _ _ _ G H A) as (_ & _ & _ & Ho).
    split; [discriminate | contradiction].
Qed.

Lemma insertAborts_spec w F db :
  insertAborts w F db = true <->
  selectSession F db = None /\ w_session_fault w = true.
Proof.
  unfold insertAborts. destruct (selectSession F db); [| tauto].
  split; [discriminate | now intros [? _]].
Qed.

End SessionFacts.

(** C3 as stated does not hold of the code.  Event1 is soft-deleted,
    its folder holds three files again and is rescanned, and the engine
    fails the UPDATE: the [catch] around the statement logs a warning, the
    run goes on, replaces the photo rows and completes, and the session is
    still deleted. *)
Lemma reactivation_lost_when_update_fails :
  ~ (forall w F folderPath photoFiles db db' log sid n s,
       selectSession F db = Some s -> status s = deleted ->
       scanAndProcessSession w F folderPath photoFiles db
       = (db', log, Completed sid n) ->
       exists s', selectSession F db' = Some s' /\ status s' = active).
Proof.
  intros H.
  destruct (H Samples.worldUpdateFails "Event1" "/photos/Event1" Samples.event1Files
              Samples.dbDeletedEvent1
              (fst (fst (scanAndProcessSession Samples.worldUpdateFails "Event1"
                           "/photos/Event1" Samples.event1Files
                           Samples.dbDeletedEvent1)))
              (snd (fst (scanAndProcessSession Samples.worldUpdateFails "Event1"
                           "/photos/Event1" Samples.event1Files
                           Samples.dbDeletedEvent1)))
              "Event1" 3%nat Samples.deletedEvent1 eq_refl eq_refl)
    as (s' & Hsel & Hact).
  - vm_compute. reflexivity.
  - vm_compute in Hsel. injection Hsel as <-. discriminate Hact.
Qed.

(** C3, as amended — identity and reactivation.  A run of the reconciler
    on folder [F] that gets past its gates ends at the session INSERT
    exactly when [F] has no row and the engine fails the statement;
    otherwise it leaves one row whose identifier is [F] itself, and reports
    [F] when it completes.  A second run on the store the first one left
    (any world, any snapshot) resolves to the same identifier [F] and finds
    the row instead of inserting one: its first effect is the UPDATE and
    the identifiers in the sessions table are unchanged.  A run on a store
    where [F] has a row, soft-deleted or not, keeps that very row and adds
    none; the row is switched to active, with only the update stamp
    renewed besides, when the UPDATE goes through, and is left exactly as
    it was when the UPDATE throws, because the failure is caught and the
    run goes on. *)
Theorem session_identity_and_reactivation w F folderPath photoFiles db db' log o :
  passesGates w folderPath photoFiles = true ->
  scanAndProcessSession w F folderPath photoFiles db = (db', log, o) ->
  (o = Errored AtSessionInsert <->
   selectSession F db = None /\ w_session_fault w = true) /\
  (o <> Errored AtSessionInsert ->
   exists s, selectSession F db' = Some s /\ session_uuid s = F /\
             (w_session_fault w = false -> status s = active)) /\
  (forall sid n, o = Completed sid n -> sid = F) /\
  (o <> Errored AtSessionInsert ->
   forall w2 photoFiles2 db2 log2 o2,
     passesGates w2 folderPath photoFiles2 = true ->
     scanAndProcessSession w2 F folderPath photoFiles2 db' = (db2, log2, o2) ->
     (forall sid n, o2 = Completed sid n -> sid = F) /\
     hd_error log2 = Some (SessionActivated F (negb (w_session_fault w2))) /\
     map session_uuid (sessions db2) = map session_uuid (sessions db')) /\
  (forall s, selectSession F db = Some s ->
     selectSession F db'
     = Some (if w_session_fault w then s else set_active (w_sql_now w) s) /\
     session_uuid s = F /\
     status (set_active (w_sql_now w) s) = active /\
     access_token (set_active (w_sql_now w) s) = access_token s /\
     hd_error log = Some (SessionActivated F (negb (w_session_fault w))) /\
     map session_uuid (sessions db') = map session_uuid (sessions db)).
Proof.
  intros G H.
  pose proof (aborts_iff _ _ _ _ _ _ _ _ G H) as Hab.
  assert (Hrow : o <> Errored AtSessionInsert ->
                 selectSession F db' = Some (rowAfter w F db)).
  { intros Ho. apply (row_after_run _ _ _ _ _ _ _ _ G H).
    destruct (insertAborts w F db); [| reflexivity].
    exfalso. apply Ho. now apply Hab. }
  split; [rewrite <- Hab; apply insertAborts_spec |].
  split.
  { intros Ho. exists (rowAfter w F db). split; [auto |].
    split; [apply rowAfter_uuid | apply rowAfter_active]. }
  split.
  { intros sid n ->. apply scanAndProcessSession_photos in H. tauto. }
  split.
  - intros Ho w2 pf2 db2 log2 o2 G2 H2.
    split.
    { intros sid n ->. apply scanAndProcessSession_photos in H2. tauto. }
    specialize (Hrow Ho).
    assert (A2 : insertAborts w2 F db' = false)
      by (unfold insertAborts; now rewrite Hrow).
    destruct (session_after_run _ _ _ _ _ _ _ _ G2 H2 A2) as (Hs & (rest & Hl) & _).
    unfold sessionPrefix in Hl. rewrite Hrow in Hl.
    split; [now rewrite Hl |].
    rewrite Hs. eapply withSession_uuids, Hrow.
  - intros s Hsel.
    assert (A : insertAborts w F db = false)
      by (unfold insertAborts; now rewrite Hsel).
    destruct (session_after_run _ _ _ _ _ _ _ _ G H A) as (Hs & (rest & Hl) & _).
    unfold sessionPrefix in Hl. rewrite Hsel in Hl.
    split.
    { rewrite (row_after_run _ _ _ _ _ _ _ _ G H A). unfold rowAfter.
      now rewrite Hsel. }
    split; [now apply find_has_uuid in Hsel |].
    do 2 (split; [reflexivity |]).
    split; [now rewrite Hl |].
    rewrite Hs. eapply withSession_uuids, Hsel.
Qed.

Lemma session_identity_and_reactivation_witness :
  let r := scanAndProcessSession Samples.worldCorruptC "Event1" "/photos/Event1"
             Samples.event1Files Samples.dbDeletedEvent1 in
  passesGates Samples.worldCorruptC "/photos/Event1" Samples.event1Files = true /\
  status Samples.deletedEvent1 = deleted /\
  selectSession "Event1" (fst (fst r))
  = Some (set_active "2025-12-19 00:00:00" Samples.deletedEvent1) /\
  map session_uuid (sessions (fst (fst r))) = ["Event1"].
Proof.
  split; [reflexivity |]. split; [reflexivity |].
  assert (E : scanAndProcessSession Samples.worldCorruptC "Event1" "/photos/Event1"
                Samples.event1Files Samples.dbDeletedEvent1
              = (fst (fst (scanAndProcessSession Samples.worldCorruptC "Event1"
                   "/photos/Event1" Samples.event1Files Samples.dbDeletedEvent1)),
                 snd (fst (scanAndProcessSession Samples.worldCorruptC "Event1"
                   "/photos/Event1" Samples.event1Files Samples.dbDeletedEvent1)),
                 Completed "Event1" 2%nat))
    by (vm_compute; reflexivity).
  destruct (session_identity_and_reactivation Samples.worldCorruptC "Event1"
              "/photos/Event1" Samples.event1Files Samples.dbDeletedEvent1
              _ _ _ eq_refl E) as (_ & _ & _ & _ & Hre).
  destruct (Hre Samples.deletedEvent1 eq_refl) as (Hsel & _ & _ & _ & _ & Hids).
  split; [exact Hsel | exact Hids].
Defined.

(** ** The scanner *)

Section ScannerFacts.

Local Arguments includes : simpl never.
Local Arguments startsWith : simpl never.
Local Arguments extname : simpl never.
Local Arguments toLowerCase : simpl never.

Lemma scanItems_media items : forall acc fs,
  (scanItems items acc = Ok fs \/ scanItems items acc = Err fs) ->
  Forall (fun n => includes SUPPORTED_MEDIA_TYPES (toLowerCase (extname n)) = true) acc ->
  Forall (fun n => includes SUPPORTED_MEDIA_TYPES (toLowerCase (extname n)) = true) fs.
Proof.
  induction items as [| it items IH]; simpl; intros acc fs H Hacc.
  - destruct H as [[= <-] | [=]]. exact Hacc.
  - destruct (startsWith (d_name it) "_" || startsWith (d_name it) ".");
      [eauto |].
    destruct (includes systemFolders (d_name it)); [eauto |].
    destruct (d_stat it); [| eauto |].
    + destruct (includes SUPPORTED_MEDIA_TYPES _) eqn:E; [| eauto].
      apply (IH _ _ H). apply Forall_app. split; [exact Hacc |].
      constructor; [exact E | constructor].
    + destruct H as [[=] | [= <-]]. exact Hacc.
Qed.

Lemma scan_files_media folderPath node :
  Forall (fun n => includes SUPPORTED_MEDIA_TYPES (toLowerCase (extname n)) = true)
         (files (scanFolderTree folderPath node)).
Proof.
  unfold scanFolderTree. destruct node as [| | | items]; simpl; try constructor.
  destruct (scanItems items []) as [fs | fs] eqn:E; simpl;
    eapply scanItems_media; eauto.
Qed.

(** The scanner keeps the order of the directory read: nothing sorts. *)
Lemma scanItems_order items : forall acc,
  Forall (fun it => d_stat it <> StatThrows) items ->
  scanItems items acc = Ok (acc ++ map d_name (List.filter listed items))%list.
Proof.
  induction items as [| it items IH]; simpl; intros acc H.
  - now rewrite app_nil_r.
  - inversion H as [| ? ? Hit Hitems]; subst. unfold listed at 1.
    destruct (startsWith (d_name it) "_" || startsWith (d_name it) ".");
      simpl; [auto |].
    destruct (includes systemFolders (d_name it)); simpl; [auto |].
    destruct (d_stat it); [| auto | contradiction].
    destruct (includes SUPPORTED_MEDIA_TYPES _); [| auto].
    rewrite (IH _ Hitems). simpl. now rewrite <- app_assoc.
Qed.

Lemma scan_keeps_listing_order folderPath items :
  Forall (fun it => d_stat it <> StatThrows) items ->
  files (scanFolderTree folderPath (Directory items))
  = map d_name (List.filter listed items).
Proof.
  intros H. unfold scanFolderTree. now rewrite (scanItems_order items [] H).
Qed.

(** A scan that counts at least one file completed its loop. *)
Lemma scan_count_length folderPath node :
  (0 < totalFiles (scanFolderTree folderPath node))%nat ->
  totalFiles (scanFolderTree folderPath node)
  = List.length (files (scanFolderTree folderPath node)).
Proof.
  unfold scanFolderTree. destruct node as [| | | items]; simpl; try lia.
  destruct (scanItems items []); simpl; lia.
Qed.

Lemma validate_spec folderPath node expected :
  validateFolderConsistency folderPath node expected = true <->
  totalFiles (scanFolderTree folderPath node) = expected /\
  (MIN_FILES_PER_SESSION <= totalFiles (scanFolderTree folderPath node))%nat.
Proof.
  unfold validateFolderConsistency.
  destruct (Nat.eqb_spec (totalFiles (scanFolderTree folderPath node)) expected);
    simpl; [| split; [discriminate | tauto]].
  destruct (Nat.ltb_spec (totalFiles (scanFolderTree folderPath node))
              MIN_FILES_PER_SESSION); split; try discriminate; try lia; auto.
Qed.

End ScannerFacts.

(** C8 — consistency gate.  If the count the validator finds after the
    settle delay differs from the count of the initial scan, or is below
    the minimum, [validateFolderConsistency] answers false and the debounce
    callback ends without calling the reconciler: the store it returns is
    the store it was given and nothing was attempted. *)
Theorem consistency_gate_rejects w F folderPath initialNode final recheck db :
  let expected := totalFiles (scanFolderTree folderPath initialNode) in
  let found := totalFiles (scanFolderTree folderPath recheck) in
  found <> expected \/ (found < MIN_FILES_PER_SESSION)%nat ->
  validateFolderConsistency folderPath recheck expected = false /\
  exists a,
    debounceCallback w F folderPath initialNode final recheck db = (db, [], a) /\
    (a = BelowThreshold \/ a = Inconsistent).
Proof.
  intros expected found H.
  assert (Hv : validateFolderConsistency folderPath recheck expected = false).
  { destruct (validateFolderConsistency folderPath recheck expected) eqn:E;
      [| reflexivity].
    apply validate_spec in E. subst expected found. lia. }
  split; [exact Hv |].
  unfold debounceCallback. fold expected.
  destruct (expected <? MIN_FILES_PER_SESSION)%nat; [eauto |].
  rewrite Hv. simpl. eauto.
Qed.

(** The startup sweep has the same gate inline. *)
Lemma sweep_rejects_changed_folder w folder folderPath tree recheck db :
  let expected := totalFiles (scanFolderTree folderPath tree) in
  let found := totalFiles (scanFolderTree folderPath recheck) in
  found <> expected \/ (found < MIN_FILES_PER_SESSION)%nat ->
  exists a,
    sweepFolder w folder folderPath tree recheck db = (db, [], a) /\
    (a = BelowThreshold \/ a = Inconsistent).
Proof.
  intros expected found H. unfold sweepFolder.
  destruct (isValid (scanFolderTree folderPath tree)) eqn:Ev; simpl; [| eauto].
  fold expected found.
  destruct (Nat.eqb_spec found expected) as [E | _]; simpl; [| eauto].
  exfalso. destruct H as [H | H]; [contradiction |].
  subst expected found. rewrite E in H. clear E.
  unfold scanFolderTree in Ev, H. destruct tree as [| | | items]; try discriminate.
  destruct (scanItems items []); cbn [isValid totalFiles] in *; [| discriminate].
  apply Nat.leb_le in Ev. lia.
Qed.

Lemma consistency_gate_rejects_witness :
  let shrunk := Directory [file "b.jpg"; file "a.jpg"] in
  totalFiles (scanFolderTree "/photos/Event1" shrunk)
  <> totalFiles (scanFolderTree "/photos/Event1" Samples.event1) /\
  fst (debounceCallback Samples.worldCorruptC "Event1" "/photos/Event1"
         Samples.event1 shrunk shrunk Samples.dbDeletedEvent1)
  = (Samples.dbDeletedEvent1, []).
Proof.
  intros shrunk.
  assert (Hne : totalFiles (scanFolderTree "/photos/Event1" shrunk)
                <> totalFiles (scanFolderTree "/photos/Event1" Samples.event1))
    by (vm_compute; discriminate).
  split; [exact Hne |].
  destruct (consistency_gate_rejects Samples.worldCorruptC "Event1" "/photos/Event1"
              Samples.event1 shrunk shrunk Samples.dbDeletedEvent1 (or_introl Hne))
    as (_ & a & -> & _).
  reflexivity.
Defined.

(** ** Worlds in which a chosen part of the folder transforms *)

Section KeepingFacts.

Lemma inb_In x xs : inb x xs = true <-> In x xs.
Proof.
  unfold inb. rewrite existsb_exists. split.
  - intros (y & Hy & E). apply String.eqb_eq in E. now subst.
  - intros H. exists x. split; [exact H | apply String.eqb_refl].
Qed.

Lemma filter_firstn (names : list string) : forall k,
  List.NoDup names ->
  List.filter (fun n => inb n (firstn k names)) names = firstn k names.
Proof.
  induction names as [| x names IH]; intros k Hnd.
  - now destruct k.
  - inversion Hnd as [| ? ? Hx Hnd']; subst.
    destruct k as [| k]; simpl.
    + apply filter_none, List.Forall_forall. now intros.
    + rewrite String.eqb_refl. simpl. f_equal.
      etransitivity; [| apply (IH k Hnd')].
      apply List.filter_ext_in. intros y Hy.
      destruct (String.eqb_spec y x) as [-> | _]; [contradiction | reflexivity].
Qed.

Lemma transformable_keeping node keep n :
  includes SUPPORTED_MEDIA_TYPES (toLowerCase (extname n)) = true ->
  transformable (worldKeeping node keep) n = inb n keep.
Proof.
  intros H. unfold transformable, worldKeeping; simpl.
  destruct (media_image_or_video _ H) as [-> | [-> ->]].
  - apply andb_true_r.
  - destruct (inb n keep); [| reflexivity]. simpl.
    now destruct (String.eqb _ ".gif").
Qed.

Lemma processMedia_completes w sid fp pf log0 db :
  w_mkdir_ok w = true -> w_gallery_ok w = true ->
  (forall n, w_insert_fault w n = false) ->
  existsb (has_uuid sid) (sessions db) = true ->
  exists db' log,
    processMedia w sid fp pf log0 db
    = (db', log,
       Completed sid (List.length
         (fst (transformLoop w fp (path_join GALLERY_FOLDER sid) pf [])))).
Proof.
  intros Hmk Hg Hfault Hfk. unfold processMedia. rewrite Hmk, Hg. simpl.
  destruct (transformLoop w fp (path_join GALLERY_FOLDER sid) pf [])
    as [validated tlog]. simpl.
  unfold insertPhotosTxn, transaction.
  destruct (insertPhotosBody_succeeds w sid fp (path_join GALLERY_FOLDER sid)
              validated db Hfault Hfk) as [db' ->].
  eauto.
Qed.

Lemma run_completes w F fp pf db :
  passesGates w fp pf = true ->
  insertAborts w F db = false ->
  w_mkdir_ok w = true -> w_gallery_ok w = true ->
  (forall n, w_insert_fault w n = false) ->
  exists db' log,
    scanAndProcessSession w F fp pf db
    = (db', log, Completed F (List.length (validatedFiles w F fp pf))).
Proof.
  intros G A Hmk Hg Hfault. rewrite (gates_open _ _ _ _ _ G), A.
  unfold validatedFiles.
  apply processMedia_completes; auto.
  eapply find_some_existsb_uuid, withSession_select.
Qed.

End KeepingFacts.

(** C10 as stated does not hold of the code.  Event1 is soft-deleted
    and its folder passes the threshold; the engine fails the UPDATE, whose
    [catch] lets the run go on, and no file can be decoded: the run
    completes with no photo row and the session does not persist as active,
    it is still deleted.  And for a new session whose QR code cannot be
    written, the [catch] around the QR library lets the run go on too: it
    completes, and no QR code was written. *)
Lemma session_not_active_or_qr_missing :
  ~ (forall w F folderPath photoFiles db db' log o,
       passesGates w folderPath photoFiles = true ->
       scanAndProcessSession w F folderPath photoFiles db = (db', log, o) ->
       exists s, selectSession F db' = Some s /\ status s = active) /\
  ~ (forall w F folderPath photoFiles db db' log sid n,
       selectSession F db = None ->
       scanAndProcessSession w F folderPath photoFiles db
       = (db', log, Completed sid n) ->
       exists qrPath token, In (QrCodeWritten qrPath F token true) log).
Proof.
  split; intros H.
  - destruct (H Samples.worldUpdateFailsNoMedia "Event1" "/photos/Event1"
                Samples.event1Files Samples.dbDeletedEvent1
                Samples.dbDeletedEvent1Emptied
                [SessionActivated "Event1" false;
                 GalleryDirEnsured "public/gallery/Event1" true;
                 MetadataRead "/photos/Event1/b.jpg" None;
                 MetadataRead "/photos/Event1/a.jpg" None;
                 MetadataRead "/photos/Event1/c.jpg" None;
                 PhotosReplaced "Event1" 0;
                 GalleryHtmlWritten "Event1" true]
                (Completed "Event1" 0) eq_refl)
      as (s' & Hsel & Hact).
    + vm_compute. reflexivity.
    + vm_compute in Hsel. injection Hsel as <-. discriminate Hact.
  - destruct (H Samples.worldQrFails "Event1" "/photos/Event1"
                Samples.event1Files Samples.emptyDb
                (fst (fst (scanAndProcessSession Samples.worldQrFails "Event1"
                             "/photos/Event1" Samples.event1Files Samples.emptyDb)))
                (snd (fst (scanAndProcessSession Samples.worldQrFails "Event1"
                             "/photos/Event1" Samples.event1Files Samples.emptyDb)))
                "Event1" 2%nat eq_refl)
      as (qrPath & token & Hin).
    + vm_compute. reflexivity.
    + vm_compute in Hin.
      repeat (destruct Hin as [Hin | Hin]; [discriminate Hin |]).
      exact Hin.
Qed.

Lemma rowAfter_cases w F db :
  status (rowAfter w F db) = active \/
  (w_session_fault w = true /\ selectSession F db = Some (rowAfter w F db)).
Proof.
  unfold rowAfter. destruct (selectSession F db) as [s |]; [| now left].
  destruct (w_session_fault w); [now right | now left].
Qed.

(** C10, as amended — the session statement comes first.  A run that
    gets past the gates either ends at the session INSERT (no row for [F]
    and the engine fails the statement: nothing is written and no
    transform runs), or its log starts with the session effects (insert
    and QR attempt for a new session, the UPDATE for an existing one),
    none of which is a transform, so every transform comes after them, and
    the row of [F] is in the store whatever the transforms and the
    transaction do afterwards.  That row is active, unless it existed
    before and the UPDATE threw: then it is the row from before the run.
    A completed run persists at most as many rows as it had candidates.
    And every count from 0 up to the number of files in the folder
    occurs: for each [k] there are transform outcomes, on the same folder,
    under which the run completes with exactly [k] rows and an active
    session row. *)
Theorem session_committed_before_transforms w F folderPath photoFiles db db' log o :
  passesGates w folderPath photoFiles = true ->
  scanAndProcessSession w F folderPath photoFiles db = (db', log, o) ->
  let names := files (scanFolderTree folderPath (w_final_scan w)) in
  (insertAborts w F db = true ->
     db' = db /\ log = [] /\ o = Errored AtSessionInsert) /\
  (insertAborts w F db = false ->
     selectSession F db' = Some (rowAfter w F db) /\
     (status (rowAfter w F db) = active \/
      (w_session_fault w = true /\ selectSession F db = Some (rowAfter w F db))) /\
     exists rest,
       log = (sessionPrefix w F folderPath db ++ rest)%list /\
       forallb (fun e => negb (is_transform e)) (sessionPrefix w F folderPath db)
       = true) /\
  (forall sid n, o = Completed sid n ->
     List.length (photosOf F db') = n /\
     (n <= List.length (candidates w folderPath photoFiles))%nat) /\
  (forall k, (k <= List.length names)%nat -> List.NoDup names ->
     exists w' db'' log'',
       w_final_scan w' = w_final_scan w /\
       scanAndProcessSession w' F folderPath names db = (db'', log'', Completed F k) /\
       List.length (photosOf F db'') = k /\
       exists s, selectSession F db'' = Some s /\ status s = active).
Proof.
  intros G H names.
  split; [apply (aborted_run _ _ _ _ _ _ _ _ G H) |].
  split.
  { intros A. split; [apply (row_after_run _ _ _ _ _ _ _ _ G H A) |].
    split; [apply rowAfter_cases |].
    destruct (session_after_run _ _ _ _ _ _ _ _ G H A) as (_ & (rest & ->) & _).
    exists rest. split; [reflexivity |].
    unfold sessionPrefix. now destruct (selectSession F db). }
  split.
  { intros sid n ->. apply scanAndProcessSession_photos in H.
    destruct H as (_ & -> & H). apply photosOf_replaced in H.
    destruct H as [-> _]. unfold newRows. rewrite rowsFrom_length.
    split; [reflexivity |].
    rewrite validatedFiles_filter. apply List.filter_length_le. }
  intros k Hk Hnd.
  set (node := w_final_scan w) in *.
  set (w' := worldKeeping node (firstn k names)).
  assert (Hmin : (MIN_FILES_PER_SESSION <= totalFiles (scanFolderTree folderPath node))%nat).
  { unfold passesGates in G. apply andb_true_iff in G. destruct G as [_ G].
    apply negb_true_iff, Nat.ltb_ge in G. exact G. }
  assert (Hlen : totalFiles (scanFolderTree folderPath node) = List.length names).
  { apply scan_count_length. unfold MIN_FILES_PER_SESSION in Hmin. lia. }
  assert (G' : passesGates w' folderPath names = true).
  { unfold passesGates. simpl. rewrite <- Hlen.
    apply Nat.ltb_ge in Hmin. now rewrite Hmin. }
  assert (Hc : candidates w' folderPath names = names).
  { unfold candidates. simpl. fold names. now rewrite Hlen, Nat.eqb_refl. }
  assert (Hv : validatedFiles w' F folderPath names = firstn k names).
  { rewrite validatedFiles_filter, Hc.
    etransitivity; [| apply (filter_firstn names k Hnd)].
    apply List.filter_ext_in. intros n Hn.
    apply transformable_keeping.
    pose proof (scan_files_media folderPath node) as Hm.
    rewrite List.Forall_forall in Hm. now apply Hm. }
  assert (A' : insertAborts w' F db = false)
    by (unfold insertAborts; now destruct (selectSession F db)).
  destruct (run_completes w' F folderPath names db G' A' eq_refl eq_refl
              (fun _ => eq_refl)) as (db'' & log'' & Hrun).
  rewrite Hv, length_firstn, Nat.min_l in Hrun by exact Hk.
  exists w', db'', log''. split; [reflexivity |]. split; [exact Hrun |].
  split.
  - pose proof (scanAndProcessSession_photos _ _ _ _ _ _ _ _ Hrun) as (_ & _ & Hp).
    apply photosOf_replaced in Hp. destruct Hp as [-> _].
    unfold newRows. rewrite rowsFrom_length, Hv, length_firstn. lia.
  - exists (rowAfter w' F db).
    split; [apply (row_after_run _ _ _ _ _ _ _ _ G' Hrun A') |].
    now apply rowAfter_active.
Qed.

Lemma session_committed_before_transforms_witness :
  let w := worldKeeping Samples.event1 [] in
  let r := scanAndProcessSession w "Event1" "/photos/Event1"
             Samples.event1Files Samples.emptyDb in
  passesGates w "/photos/Event1" Samples.event1Files = true /\
  snd r = Completed "Event1" 0 /\
  option_map status (selectSession "Event1" (fst (fst r))) = Some active.
Proof.
  intros w r. split; [reflexivity |]. split; [reflexivity |].
  assert (E : scanAndProcessSession w "Event1" "/photos/Event1"
                Samples.event1Files Samples.emptyDb
              = (fst (fst r), snd (fst r), Completed "Event1" 0%nat))
    by (vm_compute; reflexivity).
  destruct (session_committed_before_transforms w "Event1" "/photos/Event1"
              Samples.event1Files Samples.emptyDb _ _ _ eq_refl E)
    as (_ & Hrow & _).
  destruct (Hrow eq_refl) as (-> & _). reflexivity.
Defined.

(** ** Resize modes *)

Section SharpFacts.

Lemma cover_crops_unless_same_ratio w h W H :
  0 < w -> 0 < h -> 0 < W -> 0 < H ->
  discards_content cover w h W H = true <-> W * h <> H * w.
Proof.
  intros Hw Hh HW HH. unfold discards_content, visible_source.
  destruct (Z.leb_spec (W * h) (H * w)) as [Hle | Hgt].
  - rewrite Z.ltb_irrefl, orb_false_r, Z.ltb_lt. split.
    + intros Hlt Heq.
      assert (h * W / H = w); [| lia].
      replace (h * W) with (w * H) by lia. now apply Z.div_mul; lia.
    + intros Hne. apply Z.div_lt_upper_bound; lia.
  - rewrite Z.ltb_irrefl. simpl. rewrite Z.ltb_lt. split; [lia |].
    intros _. apply Z.div_lt_upper_bound; lia.
Qed.

Lemma letterbox_modes_keep_everything f w h W H :
  f = inside \/ f = contain ->
  discards_content f w h W H = false.
Proof.
  intros [-> | ->]; unfold discards_content; simpl;
    now rewrite !Z.ltb_irrefl.
Qed.

End SharpFacts.

(** C4 — thumbnails.  The reconciler resizes with [fit: 'cover']: every
    thumbnail effect of the validation loop carries the options
    1920 x 1080, cover, centre.  Under cover a 5472 x 3648 frame keeps
    only 3078 of its 3648 rows (570 rows are cut), where the letterboxing
    modes would keep them all; the run on the sample folder makes the
    thumbnail of [b.jpg] this way. *)
Theorem thumbnails_use_cover_fit :
  r_fit thumbnailResize = cover /\
  (forall w folderPath galleryPath f n src dst opts ok,
     In (ThumbnailResized src dst opts ok)
        (snd (transformFile w folderPath galleryPath f n)) ->
     opts = thumbnailResize) /\
  visible_source (r_fit thumbnailResize) 5472 3648
                 (r_width thumbnailResize) (r_height thumbnailResize)
  = (5472, 3078) /\
  discards_content (r_fit thumbnailResize) 5472 3648
                   (r_width thumbnailResize) (r_height thumbnailResize) = true /\
  discards_content inside 5472 3648 1920 1080 = false /\
  In (ThumbnailResized "/photos/Event1/b.jpg" "public/gallery/Event1/photo_1.jpg"
        thumbnailResize true)
     (snd (fst (scanAndProcessSession Samples.worldSmallA "Event1" "/photos/Event1"
                  Samples.event1Files Samples.emptyDb))).
Proof.
  split; [reflexivity |]. split.
  - intros w fp gp f n src dst opts ok. unfold transformFile.
    repeat match goal with
           | |- context [if ?c then _ else _] => destruct c
           | |- context [match w_metadata w f with _ => _ end] =>
               destruct (w_metadata w f) as [[? ?] |]
           end; simpl; intros Hin;
      repeat (destruct Hin as [Hin | Hin]; [try discriminate |]);
      try contradiction; now injection Hin as _ _ <- _.
  - do 3 (split; [vm_compute; reflexivity |]). vm_compute. tauto.
Qed.

(** C5 — order of the numbering.  The watcher path numbers the files in
    the order the directory read returned them.  On the sample folder,
    listed as b.jpg, a.jpg, c.jpg, the debounce callback gives number 1 to
    b.jpg and number 2 to a.jpg although a.jpg sorts first; and a manual
    rescan, which sorts its own listing, ends with the same rows as soon
    as its count differs from the scanner's (here it also lists the
    dot-file the scanner hides). *)
Theorem numbering_follows_listing_order :
  let w := worldKeeping Samples.event1 Samples.event1Files in
  let viaWatcher :=
    debounceCallback w "Event1" "/photos/Event1"
      Samples.event1 Samples.event1 Samples.event1 Samples.emptyDb in
  let sortedListing :=
    manualListing ["b.jpg"; "a.jpg"; "._a.jpg"; "_qrcode.png"; "c.jpg"] in
  let viaRescan :=
    scanAndProcessSession w "Event1" "/photos/Event1" sortedListing Samples.emptyDb in
  map (fun p => (photo_number p, original_path p))
      (photosOf "Event1" (fst (fst viaWatcher)))
  = [(1%nat, "/photos/Event1/b.jpg"); (2%nat, "/photos/Event1/a.jpg");
     (3%nat, "/photos/Event1/c.jpg")] /\
  snd viaWatcher = Reconciled (Completed "Event1" 3) /\
  String.ltb "a.jpg" "b.jpg" = true /\
  sortedListing = ["._a.jpg"; "a.jpg"; "b.jpg"; "c.jpg"] /\
  map (fun p => (photo_number p, original_path p))
      (photosOf "Event1" (fst (fst viaRescan)))
  = [(1%nat, "/photos/Event1/b.jpg"); (2%nat, "/photos/Event1/a.jpg");
     (3%nat, "/photos/Event1/c.jpg")].
Proof. vm_compute. repeat split. Qed.

(** ** The event loop *)

Section ListFacts.
Context {A B : Type} (g : A -> B).

Lemma NoDup_map_filter (p : A -> bool) (l : list A) :
  List.NoDup (map g l) -> List.NoDup (map g (List.filter p l)).
Proof.
  induction l as [| x l IH]; simpl; intros H; [constructor |].
  inversion H as [| ? ? Hx Hl]; subst.
  destruct (p x); simpl; [| auto].
  constructor; [| auto].
  intros Hin. apply Hx. apply in_map_iff in Hin.
  destruct Hin as (y & Hy & Hin). apply List.filter_In in Hin.
  apply in_map_iff. exists y. tauto.
Qed.

Lemma NoDup_map_snoc (l : list A) (x : A) :
  List.NoDup (map g l) -> ~ In (g x) (map g l) ->
  List.NoDup (map g (l ++ [x])).
Proof.
  induction l as [| y l IH]; simpl; intros H Hx.
  - constructor; [easy | constructor].
  - inversion H as [| ? ? Hy Hl]; subst. constructor.
    + rewrite map_app, in_app_iff. simpl. intros [Hin | [Heq | []]]; [auto |].
      apply Hx. now left.
    + apply IH; [exact Hl |]. intros Hin. apply Hx. now right.
Qed.

Lemma NoDup_map_inj (l : list A) (a b : A) :
  List.NoDup (map g l) -> In a l -> In b l -> g a = g b -> a = b.
Proof.
  induction l as [| x l IH]; simpl; intros H Ha Hb Hg; [easy |].
  inversion H as [| ? ? Hx Hl]; subst.
  destruct Ha as [-> | Ha], Hb as [-> | Hb]; auto.
  - exfalso. apply Hx. rewrite Hg. now apply in_map.
  - exfalso. apply Hx. rewrite <- Hg. now apply in_map.
Qed.

End ListFacts.

Section LoopFacts.

Lemma busy_spec f s : busy f s = true <-> In f (map j_folder (jobs s)).
Proof.
  unfold busy. rewrite existsb_exists, in_map_iff. split.
  - intros (j & Hj & E). apply String.eqb_eq in E. eauto.
  - intros (j & E & Hj). exists j. split; [exact Hj |]. now apply String.eqb_eq.
Qed.

Lemma busy_false f s : busy f s = false <-> ~ In f (map j_folder (jobs s)).
Proof.
  rewrite <- busy_spec. destruct (busy f s); split; intros H; easy.
Qed.

Lemma startReconcile_folders id js :
  map j_folder (startReconcile id js) = map j_folder js.
Proof.
  unfold startReconcile. rewrite map_map. apply map_ext.
  intros j. now destruct (j_id j =? id)%nat.
Qed.

Lemma dropJob_folders id js f :
  In f (map j_folder (dropJob id js)) -> In f (map j_folder js).
Proof.
  unfold dropJob. rewrite !in_map_iff. intros (j & E & Hj).
  apply List.filter_In in Hj. exists j. tauto.
Qed.

Lemma serial_initial wf : Serial (initial wf).
Proof. constructor; simpl; try easy; constructor. Qed.

Lemma serial_set_queue q s : Serial s -> Serial (set_queue q s).
Proof. intros [Ht Hi Ha Hj]. constructor; assumption. Qed.

Lemma serial_processPhotoSession f fp quick s :
  Serial s -> busy f s = false -> Serial (processPhotoSession f fp quick s).
Proof.
  intros [Ht Hi Ha Hj] Hidle.
  set (armed1 := match folderProcessingTimers s !! f with
                 | Some oldTimer => clearTimeout (timer oldTimer) (armed s)
                 | None => armed s
                 end).
  assert (HA : forall t, In t armed1 -> In t (armed s) /\ t_folder t <> f).
  { intros t Hin. subst armed1.
    destruct (folderProcessingTimers s !! f) as [e |] eqn:E.
    - apply List.filter_In in Hin. destruct Hin as [Hin Hid].
      split; [exact Hin |]. intros Hf.
      destruct (Ht t Hin) as (e' & He' & Hid'). rewrite Hf, E in He'.
      injection He' as <-. rewrite Hid', Nat.eqb_refl in Hid. discriminate.
    - split; [exact Hin |]. intros Hf.
      destruct (Ht t Hin) as (e' & He' & _). rewrite Hf, E in He'. discriminate. }
  assert (HB : List.NoDup (map t_folder armed1)).
  { subst armed1. destruct (folderProcessingTimers s !! f);
      [now apply NoDup_map_filter | exact Ha]. }
  unfold processPhotoSession. fold armed1.
  constructor; simpl.
  - intros t Hin. apply in_app_or in Hin. destruct Hin as [Hin | [<- | []]].
    + destruct (HA t Hin) as [Hin' Hne].
      rewrite lookup_insert_ne by congruence. now apply Ht.
    + simpl. rewrite lookup_insert_eq. eauto.
  - intros t Hin. apply in_app_or in Hin. destruct Hin as [Hin | [<- | []]].
    + apply (Hi t). now apply HA.
    + exact Hidle.
  - apply NoDup_map_snoc; [exact HB |]. simpl. intros Hin.
    apply in_map_iff in Hin. destruct Hin as (t & Hf & Hin).
    now apply (HA t Hin).
  - exact Hj.
Qed.

Lemma serial_finallyDelete f s :
  Serial s -> (forall t, In t (armed s) -> t_folder t <> f) ->
  Serial (finallyDelete f s).
Proof.
  intros [Ht Hi Ha Hj] Hne. constructor; simpl; try assumption.
  intros t Hin. rewrite lookup_delete_ne by (intros E; now apply (Hne t Hin)).
  now apply Ht.
Qed.

Lemma serial_drop id s :
  Serial s -> Serial (set_jobs (dropJob id (jobs s)) s).
Proof.
  intros [Ht Hi Ha Hj]. constructor; simpl; try assumption.
  - intros t Hin. apply busy_false. simpl. intros Hb.
    apply dropJob_folders in Hb. now apply (proj1 (busy_false _ _) (Hi t Hin)).
  - now apply NoDup_map_filter.
Qed.

Lemma serial_add_job j s :
  Serial s -> busy (j_folder j) s = false ->
  (forall t, In t (armed s) -> t_folder t <> j_folder j) ->
  Serial (set_jobs (jobs s ++ [j]) s).
Proof.
  intros [Ht Hi Ha Hj] Hidle Hne. constructor; simpl; try assumption.
  - intros t Hin. apply busy_false. simpl. rewrite map_app, in_app_iff. simpl.
    intros [Hb | [Hb | []]].
    + now apply (proj1 (busy_false _ _) (Hi t Hin)).
    + now apply (Hne t Hin).
  - apply NoDup_map_snoc; [exact Hj |]. now apply busy_false.
Qed.

Lemma armed_apart_from_jobs s j :
  Serial s -> In j (jobs s) ->
  forall t, In t (armed s) -> t_folder t <> j_folder j.
Proof.
  intros Hs Hj t Hin E.
  apply (proj1 (busy_false _ _) (armed_idle s Hs t Hin)).
  rewrite E. now apply in_map.
Qed.

(** A direct call of the reconciler for an idle folder. *)
Lemma serial_called j s :
  Serial s ->
  negb (busy (j_folder j) s)
  && match armedFor (j_folder j) s with [] => true | _ => false end = true ->
  Serial {| WATCH_FOLDER := WATCH_FOLDER s; clock := clock s;
            nextId := S (nextId s); armed := armed s;
            processingQueue := processingQueue s;
            folderProcessingTimers := folderProcessingTimers s;
            jobs := jobs s ++ [j]; attempts := attempts s |}.
Proof.
  intros Hs Hd. apply andb_true_iff in Hd. destruct Hd as [Hb Harm].
  apply negb_true_iff in Hb.
  assert (Hnone : forall t, In t (armed s) -> t_folder t <> j_folder j).
  { intros t Hin Hf. unfold armedFor in Harm.
    assert (Hin' : In t (List.filter (fun t => String.eqb (t_folder t) (j_folder j))
                           (armed s)))
      by (apply List.filter_In; split; [exact Hin | now apply String.eqb_eq]).
    destruct (List.filter _ (armed s)); [easy | discriminate]. }
  destruct Hs as [Ht Hi Ha Hj]. constructor; simpl; try assumption.
  - intros t Hin. apply busy_false. simpl. rewrite map_app, in_app_iff. simpl.
    intros [Hb' | [Hb' | []]].
    + now apply (proj1 (busy_false _ _) (Hi t Hin)).
    + now apply (Hnone t Hin).
  - apply NoDup_map_snoc; [exact Hj |]. now apply busy_false.
Qed.

(** One serialised step keeps the invariant. *)
Lemma serial_step l s s' :
  Serial s -> serialised l s = true -> step l s = Some s' -> Serial s'.
Proof.
  intros Hs Hd Hstep.
  destruct l as [dt | parts isFile quick | id node | id recheck | id | f | f];
    simpl in Hd, Hstep.
  - destruct (0 <=? dt); [| discriminate]. injection Hstep as <-.
    destruct Hs as [Ht Hi Ha Hj]. constructor; assumption.
  - injection Hstep as <-. unfold onWatchEvent.
    destruct (List.length parts <? 2)%nat; [exact Hs |].
    destruct (negb isFile); [exact Hs |].
    destruct (_ && _); [| exact Hs].
    apply serial_set_queue, serial_processPhotoSession;
      [now apply serial_set_queue |].
    apply negb_true_iff in Hd. exact Hd.
  - destruct (List.find _ (armed s)) as [t |] eqn:E; [| discriminate].
    destruct (t_deadline t <=? clock s); [| discriminate].
    injection Hstep as <-. apply List.find_some in E. destruct E as [Hin Hid].
    apply Nat.eqb_eq in Hid.
    set (s1 := {| WATCH_FOLDER := WATCH_FOLDER s; clock := clock s;
                  nextId := nextId s;
                  armed := clearTimeout (t_id t) (armed s);
                  processingQueue := processingQueue s;
                  folderProcessingTimers := folderProcessingTimers s;
                  jobs := jobs s;
                  attempts := attempts s ++ [(t_folder t, clock s)] |}).
    assert (Hother : forall t', In t' (armed s1) -> t_folder t' <> t_folder t).
    { intros t' Hin' Hf. simpl in Hin'. apply List.filter_In in Hin'.
      destruct Hin' as [Hin' Hne].
      assert (t' = t) by (eapply NoDup_map_inj; eauto using armed_one).
      subst t'. rewrite Nat.eqb_refl in Hne. discriminate. }
    assert (Hs1 : Serial s1).
    { destruct Hs as [Ht Hi Ha Hj]. constructor; simpl.
      - intros t' Hin'. apply List.filter_In in Hin'. now apply Ht.
      - intros t' Hin'. apply List.filter_In in Hin'. now apply Hi.
      - now apply NoDup_map_filter.
      - exact Hj. }
    unfold timerFires. fold s1.
    destruct (totalFiles _ <? MIN_FILES_PER_SESSION)%nat.
    + now apply serial_finallyDelete.
    + apply (serial_add_job _ s1 Hs1); simpl; [| exact Hother].
      exact (armed_idle s Hs t Hin).
  - destruct (List.find _ (jobs s)) as [j |] eqn:E; [| discriminate].
    destruct (j_phase j) as [expected resumeAt |]; [| discriminate].
    destruct (resumeAt <=? clock s); [| discriminate].
    injection Hstep as <-. apply List.find_some in E. destruct E as [Hin _].
    unfold settled. destruct (negb _).
    + apply serial_finallyDelete; [now apply serial_drop |].
      simpl. now apply armed_apart_from_jobs.
    + destruct Hs as [Ht Hi Ha Hj]. constructor; simpl; try assumption.
      * intros t Ht'. apply busy_false. simpl. rewrite startReconcile_folders.
        now apply (proj1 (busy_false _ _) (Hi t Ht')).
      * now rewrite startReconcile_folders.
  - destruct (List.find _ (jobs s)) as [j |] eqn:E; [| discriminate].
    destruct (j_phase j); [discriminate |].
    injection Hstep as <-. apply List.find_some in E. destruct E as [Hin _].
    unfold reconcileEnds. destruct (j_origin j); [| now apply serial_drop ..].
    apply serial_finallyDelete; [now apply serial_drop |].
    simpl. now apply armed_apart_from_jobs.
  - injection Hstep as <-. unfold manualRescan.
    refine (serial_called _ s Hs _). exact Hd.
  - injection Hstep as <-. unfold sweepReconcile.
    refine (serial_called _ s Hs _). exact Hd.
Qed.

Lemma serial_run ls : forall s s',
  Serial s -> runSerialised ls s = Some s' -> Serial s'.
Proof.
  induction ls as [| l ls IH]; simpl; intros s s' Hs H.
  - now injection H as <-.
  - destruct (serialised l s) eqn:Hd; [| discriminate].
    destruct (step l s) as [s1 |] eqn:E; [| discriminate].
    eapply IH; [| exact H]. eapply serial_step; eauto.
Qed.

Lemma one_per_folder f (js : list Job) :
  List.NoDup (map j_folder js) ->
  (List.length (List.filter (is_reconciling f) js) <= 1)%nat.
Proof.
  induction js as [| j js IH]; simpl; intros H; [lia |].
  inversion H as [| ? ? Hj Hjs]; subst.
  destruct (is_reconciling f j) eqn:E; [| auto].
  simpl. rewrite (filter_none (is_reconciling f) js); [simpl; lia |].
  apply List.Forall_forall. intros j' Hj'.
  destruct (is_reconciling f j') eqn:E'; [| reflexivity].
  exfalso. apply Hj. unfold is_reconciling in E, E'.
  apply andb_true_iff in E, E'. destruct E as [E _], E' as [E' _].
  apply String.eqb_eq in E, E'. rewrite E, <- E'. now apply in_map.
Qed.

(** The file-path guard of the watch callback is taken and released
    within one macrotask: at every macrotask boundary the set is empty, so
    its membership test never turns an event away. *)
Lemma processingQueue_always_empty ls : forall s s',
  processingQueue s = ∅ -> run ls s = Some s' -> processingQueue s' = ∅.
Proof.
  induction ls as [| l ls IH]; simpl; intros s s' Hq H.
  - now injection H as <-.
  - destruct (step l s) as [s1 |] eqn:E; [| discriminate].
    apply (IH s1 s'); [| exact H]. clear IH H.
    destruct l as [dt | parts isFile quick | id node | id recheck | id | f | f];
      simpl in E.
      + destruct (0 <=? dt); [| discriminate]. now injection E as <-.
    + injection E as <-. unfold onWatchEvent.
      destruct (List.length parts <? 2)%nat; [exact Hq |].
      destruct (negb isFile); [exact Hq |].
      destruct (_ && _); [| exact Hq].
      simpl. rewrite Hq, (right_id_L ∅ (∪)). apply difference_diag_L.
    + destruct (List.find _ (armed s)) as [t |]; [| discriminate].
      destruct (t_deadline t <=? clock s); [| discriminate].
      injection E as <-. unfold timerFires.
      now destruct (totalFiles _ <? MIN_FILES_PER_SESSION)%nat.
    + destruct (List.find _ (jobs s)) as [j |]; [| discriminate].
      destruct (j_phase j) as [expected resumeAt |]; [| discriminate].
      destruct (resumeAt <=? clock s); [| discriminate].
      injection E as <-. unfold settled. now destruct (negb _).
    + destruct (List.find _ (jobs s)) as [j |]; [| discriminate].
      destruct (j_phase j); [discriminate |].
      injection E as <-. unfold reconcileEnds. now destruct (j_origin j).
    + now injection E as <-.
    + now injection E as <-.
Qed.

End LoopFacts.

Lemma runSerialised_run ls : forall s s',
  runSerialised ls s = Some s' -> run ls s = Some s'.
Proof.
  induction ls as [| l ls IH]; simpl; intros s s' H; [exact H |].
  destruct (serialised l s); [| discriminate].
  destruct (step l s); [now apply IH | discriminate].
Qed.

Lemma runUndue_run f ls : forall s s',
  runUndue f ls s = Some s' -> run ls s = Some s'.
Proof.
  induction ls as [| l ls IH]; simpl; intros s s' H; [exact H |].
  destruct (step l s) as [s1 |]; [| discriminate].
  destruct (noneDue f s1); [now apply IH | discriminate].
Qed.

(** In a serialised interleaving a folder has at most one armed timer. *)
Lemma one_timer_per_folder f s :
  Serial s -> (List.length (armedFor f s) <= 1)%nat.
Proof.
  intros Hs. pose proof (armed_one s Hs) as H. unfold armedFor.
  induction (armed s) as [| t ts IH]; simpl in *; [lia |].
  inversion H as [| ? ? Ht Hts]; subst.
  destruct (String.eqb_spec (t_folder t) f) as [E | _]; [| auto].
  simpl. rewrite (filter_none _ ts); [simpl; lia |].
  apply List.Forall_forall. intros t' Ht'.
  destruct (String.eqb_spec (t_folder t') f) as [E' | _]; [| reflexivity].
  exfalso. apply Ht. rewrite E, <- E'. now apply in_map.
Qed.

(** The rescan route is a caller of its own: a manual rescan posted
    while the reconciliation started by the watcher runs makes a second
    one for the same folder. *)
Lemma two_reconciliations_in_flight :
  ~ (forall ls s folder,
       run ls (initial "/photos") = Some s -> (in_flight folder s <= 1)%nat).
Proof.
  intros H.
  assert (E : exists s, run Samples.rescanDuringReconcile (initial "/photos") = Some s
                        /\ in_flight "Event1" s = 2%nat).
  { eexists. split; vm_compute; reflexivity. }
  destruct E as (s & Hrun & Hin).
  specialize (H _ _ "Event1" Hrun). lia.
Qed.

(** When a folder is left alone while it is worked on (no watch event
    of the folder is handled while a callback, a rescan or the sweep is at
    work on it, and a rescan or the sweep turns to it only when it has
    neither a running callback nor an armed timer), it has at most one
    reconciliation in flight and at most one armed debounce timer. *)
Lemma serialised_at_most_one_in_flight watchFolder ls s folder :
  runSerialised ls (initial watchFolder) = Some s ->
  (in_flight folder s <= 1)%nat /\
  (List.length (armedFor folder s) <= 1)%nat.
Proof.
  intros H.
  assert (Hs : Serial s) by (eapply serial_run; [apply serial_initial | exact H]).
  split; [apply one_per_folder, (jobs_one s Hs) | now apply one_timer_per_folder].
Qed.

Example rescan_after_reconcile_is_serialised :
  option_map (in_flight "Event1")
    (runSerialised Samples.rescanAfterReconcile (initial "/photos"))
  = Some 1%nat.
Proof. vm_compute. reflexivity. Qed.

(** C6 — one reconciliation per folder.  The code does not keep to it,
    also when only the watcher is at work.  Its guard, [processingQueue],
    holds the path of the file of a watch event just while
    [processPhotoSession] arms the debounce timer: at every boundary
    between two macrotasks the set is empty, so it never turns an event
    away, and it knows nothing of the callback that runs five seconds
    later.  On the sample interleaving (a file at 0, the callback at 5000,
    the reconciler called at 5500 and still running when a second file is
    seen at 5600, whose callback calls the reconciler at 11100) two
    reconciliations of Event1 are in flight, both started by debounce
    timers, with no manual rescan and no sweep among the steps. *)
Theorem watcher_starts_second_reconciliation :
  (forall watchFolder ls s,
     run ls (initial watchFolder) = Some s -> processingQueue s = ∅) /\
  forallb (fun l => match l with
                    | ManualRescan _ | SweepReconcile _ => false
                    | _ => true
                    end) Samples.eventDuringReconcile = true /\
  exists s,
    run Samples.eventDuringReconcile (initial "/photos") = Some s /\
    clock s = 11100 /\
    map (fun j => (j_id j, j_folder j, j_origin j, j_phase j)) (jobs s)
    = [(0%nat, "Event1", FromTimer, Reconciling);
       (1%nat, "Event1", FromTimer, Reconciling)] /\
    in_flight "Event1" s = 2%nat.
Proof.
  split.
  { intros watchFolder ls s H.
    now apply (processingQueue_always_empty ls (initial watchFolder) s). }
  split; [reflexivity |].
  eexists. split; [vm_compute; reflexivity |].
  repeat split.
Qed.

(** ** Bursts *)

Section BurstFacts.
Variable parts : list string.
Variable quick : FsNode.
Hypothesis in_subfolder : (2 <= List.length parts)%nat.
Hypothesis is_media :
  includes SUPPORTED_MEDIA_TYPES (toLowerCase (extname (joinPath parts))) = true.

Local Abbreviation folder := (folderOf parts).

(** With the guard empty, the watch callback is the call of
    [processPhotoSession]. *)
Lemma onWatchEvent_media s :
  processingQueue s = ∅ ->
  onWatchEvent parts true quick s
  = processPhotoSession folder (joinPath (WATCH_FOLDER s :: removelast parts)) quick s.
Proof.
  intros Hq. unfold onWatchEvent.
  destruct (Nat.ltb_spec (List.length parts) 2); [lia |].
  simpl negb. cbv iota. rewrite is_media, Hq.
  rewrite bool_decide_eq_false_2 by apply not_elem_of_empty.
  unfold processPhotoSession, set_queue. simpl. f_equal.
  rewrite Hq, (right_id_L ∅ (∪)). apply difference_diag_L.
Qed.

Lemma processPhotoSession_armedFor fp s :
  tracked folder s ->
  armedFor folder (processPhotoSession folder fp quick s)
  = [{| t_id := nextId s; t_deadline := clock s + FOLDER_DEBOUNCE_DELAY;
        t_folder := folder; t_folderPath := fp |}].
Proof.
  intros Ht. unfold armedFor, processPhotoSession. simpl.
  rewrite List.filter_app. simpl. rewrite String.eqb_refl.
  rewrite filter_none; [reflexivity |].
  apply List.Forall_forall. intros t Hin.
  destruct (String.eqb_spec (t_folder t) folder) as [E | _]; [| reflexivity].
  exfalso. destruct (folderProcessingTimers s !! folder) as [e |] eqn:Em.
  - apply List.filter_In in Hin. destruct Hin as [Hin Hid].
    destruct (Ht t Hin E) as (e' & He' & Hid'). rewrite Em in He'.
    injection He' as <-. rewrite Hid', Nat.eqb_refl in Hid. discriminate.
  - destruct (Ht t Hin E) as (e' & He' & _). rewrite Em in He'. discriminate.
Qed.

Lemma processPhotoSession_tracked fp s :
  tracked folder s -> tracked folder (processPhotoSession folder fp quick s).
Proof.
  intros Ht t Hin Hf.
  assert (Hin' : In t (armedFor folder (processPhotoSession folder fp quick s)))
    by (apply List.filter_In; split; [exact Hin | now apply String.eqb_eq]).
  rewrite (processPhotoSession_armedFor fp s Ht) in Hin'.
  destruct Hin' as [<- | []]. simpl. rewrite lookup_insert_eq. eauto.
Qed.

(** A burst that finds every armed timer of the folder tracked: while it
    lasts no timer of the folder comes due, and it leaves one armed timer
    for the folder, set at the last event for the full delay. *)
Lemma burst_coalesces gaps : forall s,
  processingQueue s = ∅ ->
  tracked folder s ->
  Forall (fun g => 0 <= g < FOLDER_DEBOUNCE_DELAY) gaps ->
  exists s',
    runUndue folder (burst parts quick gaps) s = Some s' /\
    clock s' = clock s + fold_right Z.add 0 gaps /\
    armedFor folder s'
    = [{| t_id := (nextId s + List.length gaps)%nat;
          t_deadline := clock s' + FOLDER_DEBOUNCE_DELAY;
          t_folder := folder;
          t_folderPath := joinPath (WATCH_FOLDER s :: removelast parts) |}] /\
    attempts s' = attempts s /\ jobs s' = jobs s.
Proof.
  induction gaps as [| g gaps IH]; intros s Hq Ht Hg.
  - simpl. rewrite (onWatchEvent_media s Hq).
    pose proof (processPhotoSession_armedFor
                  (joinPath (WATCH_FOLDER s :: removelast parts)) s Ht) as Ha.
    unfold noneDue. rewrite Ha. simpl.
    destruct (Z.ltb_spec (clock s) (clock s + FOLDER_DEBOUNCE_DELAY)) as [_ | Hc];
      [| unfold FOLDER_DEBOUNCE_DELAY in Hc; lia].
    simpl. eexists. split; [reflexivity |]. simpl.
    rewrite Z.add_0_r, Nat.add_0_r. auto.
  - inversion Hg as [| ? ? Hg0 Hg']; subst.
    change (burst parts quick (g :: gaps))
      with (FileEvent parts true quick :: Advance g :: burst parts quick gaps).
    cbn [runUndue step]. rewrite (onWatchEvent_media s Hq).
    set (fp := joinPath (WATCH_FOLDER s :: removelast parts)).
    set (s1 := processPhotoSession folder fp quick s).
    pose proof (processPhotoSession_armedFor fp s Ht) as Ha. fold s1 in Ha.
    assert (Hd1 : noneDue folder s1 = true).
    { unfold noneDue. rewrite Ha. simpl.
      destruct (Z.ltb_spec (clock s) (clock s + FOLDER_DEBOUNCE_DELAY)) as [_ | Hc];
        [reflexivity | unfold FOLDER_DEBOUNCE_DELAY in Hc; lia]. }
    rewrite Hd1.
    destruct (Z.leb_spec 0 g) as [_ | Hc]; [| lia].
    set (s2 := {| WATCH_FOLDER := WATCH_FOLDER s1; clock := clock s1 + g;
                  nextId := nextId s1; armed := armed s1;
                  processingQueue := processingQueue s1;
                  folderProcessingTimers := folderProcessingTimers s1;
                  jobs := jobs s1; attempts := attempts s1 |}).
    assert (Hd2 : noneDue folder s2 = true).
    { unfold noneDue. change (armedFor folder s2) with (armedFor folder s1).
      rewrite Ha. simpl.
      destruct (Z.ltb_spec (clock s + g) (clock s + FOLDER_DEBOUNCE_DELAY))
        as [_ | Hc]; [reflexivity | lia]. }
    rewrite Hd2.
    destruct (IH s2) as (s' & Hrun & Hclock & Harm & Hatt & Hjobs).
    + exact Hq.
    + exact (processPhotoSession_tracked fp s Ht).
    + exact Hg'.
    + exists s'. split; [exact Hrun |].
      split; [rewrite Hclock; simpl; lia |].
      split; [| split; [exact Hatt | exact Hjobs]].
      rewrite Harm. simpl. f_equal. f_equal. lia.
Qed.

End BurstFacts.

(** Every armed timer is tracked in a fresh loop, and in every state a
    serialised interleaving reaches. *)
Lemma serial_tracked f s : Serial s -> tracked f s.
Proof. intros Hs t Hin <-. exact (armed_tracked s Hs t Hin). Qed.

(** In a fresh loop, and in every state a serialised interleaving
    reaches, a burst is coalesced. *)
Lemma serialised_burst_coalesces watchFolder ls s parts quick gaps :
  runSerialised ls (initial watchFolder) = Some s ->
  (2 <= List.length parts)%nat ->
  includes SUPPORTED_MEDIA_TYPES (toLowerCase (extname (joinPath parts))) = true ->
  Forall (fun g => 0 <= g < FOLDER_DEBOUNCE_DELAY) gaps ->
  exists s',
    runUndue (folderOf parts) (burst parts quick gaps) s = Some s' /\
    map t_deadline (armedFor (folderOf parts) s')
    = [clock s + fold_right Z.add 0 gaps + FOLDER_DEBOUNCE_DELAY] /\
    attempts s' = attempts s.
Proof.
  intros Hrun Hparts Hmedia Hgaps.
  assert (Hs : Serial s) by (eapply serial_run; [apply serial_initial | exact Hrun]).
  assert (Hq : processingQueue s = ∅).
  { apply runSerialised_run in Hrun.
    now apply (processingQueue_always_empty ls (initial watchFolder) s). }
  destruct (burst_coalesces parts quick Hparts Hmedia gaps s Hq
              (serial_tracked _ s Hs) Hgaps)
    as (s' & Hb & Hclock & Harm & Hatt & _).
  exists s'. split; [exact Hb |]. split; [| exact Hatt].
  rewrite Harm. simpl. now rewrite Hclock.
Qed.

(** C7 — a burst that overlaps a running callback.  On the sample
    interleaving the callback of an earlier timer is still waiting out its
    settle delay when the first event of the burst (5100) re-arms the
    folder's timer; the callback's [finally] then deletes the map entry of
    that new timer, so the second event (5700) finds nothing to cancel.
    After the burst two timers of Event1 are armed, due at 10100 and 10700,
    and both fire: two attempts for one burst of two events 600 ms apart. *)
Theorem burst_during_callback_fires_twice :
  (exists s,
     run Samples.burstDuringCallback (initial "/photos") = Some s /\
     clock s = 5700 /\
     map (fun t => (t_id t, t_deadline t)) (armedFor "Event1" s)
     = [(1%nat, 10100); (2%nat, 10700)] /\
     jobs s = []) /\
  (exists s,
     run Samples.burstDuringCallbackFired (initial "/photos") = Some s /\
     attempts s = [("Event1", 5000); ("Event1", 10100); ("Event1", 10700)]).
Proof.
  split; eexists; (split; [vm_compute; reflexivity |]); vm_compute; auto.
Qed.

(** * Further properties of the reconciler *)

Import Sweep Routes MoreNotions.

Section FrameFacts.

Lemma find_other_appended G (ss : list Session) s :
  has_uuid G s = false ->
  List.find (has_uuid G) (ss ++ [s]) = List.find (has_uuid G) ss.
Proof.
  intros H. induction ss as [| s0 ss IH]; simpl; [now rewrite H |].
  now destruct (has_uuid G s0).
Qed.

Lemma find_other_mapped (g : Session -> Session) F G (ss : list Session) :
  F <> G -> (forall s, session_uuid (g s) = session_uuid s) ->
  List.find (has_uuid G) (map (fun s => if has_uuid F s then g s else s) ss)
  = List.find (has_uuid G) ss.
Proof.
  intros Hne Hg. induction ss as [| s ss IH]; simpl; [reflexivity |].
  destruct (has_uuid F s) eqn:EF.
  - apply has_uuid_eq in EF.
    assert (E1 : has_uuid G (g s) = false).
    { unfold has_uuid. rewrite Hg. apply String.eqb_neq. congruence. }
    assert (E2 : has_uuid G s = false).
    { unfold has_uuid. apply String.eqb_neq. congruence. }
    now rewrite E1, E2.
  - now rewrite IH.
Qed.

Lemma photosOf_other F G (l rows : list Photo) :
  F <> G ->
  Forall (fun p => of_session F p = true) rows ->
  List.filter (of_session G)
    (List.filter (fun p => negb (of_session F p)) l ++ rows)
  = List.filter (of_session G) l.
Proof.
  intros Hne Hrows. rewrite List.filter_app.
  rewrite (filter_none (of_session G) rows), app_nil_r.
  - induction l as [| p l IH]; simpl; [reflexivity |].
    destruct (of_session F p) eqn:EF; simpl.
    + assert (of_session G p = false) as ->; [| exact IH].
      unfold of_session in *. apply String.eqb_eq in EF.
      apply String.eqb_neq. congruence.
    + now rewrite IH.
  - eapply List.Forall_impl; [| exact Hrows]. simpl. intros p Hp.
    unfold of_session in *. apply String.eqb_eq in Hp.
    apply String.eqb_neq. congruence.
Qed.

(** The sessions table after any run. *)
Lemma sessions_after_any_run w F fp pf db db' log o :
  scanAndProcessSession w F fp pf db = (db', log, o) ->
  sessions db' = sessions db \/
  (selectSession F db = None /\
   sessions db' = (sessions db ++ [newSession w F F])%list) \/
  (exists s, selectSession F db = Some s /\
   sessions db' = sessions (activated F (w_sql_now w) db)).
Proof.
  intros H. destruct (passesGates w fp pf) eqn:G.
  - destruct (insertAborts w F db) eqn:A.
    { destruct (aborted_run _ _ _ _ _ _ _ _ G H A) as (-> & _). now left. }
    destruct (session_after_run _ _ _ _ _ _ _ _ G H A) as (Hs & _).
    unfold withSession in Hs.
    destruct (selectSession F db) as [s |] eqn:E; [| right; left; eauto].
    destruct (w_session_fault w); [now left | right; right; eauto].
  - destruct (gates_closed w F fp pf db G) as [why E]. rewrite E in H.
    injection H as <- _ _. now left.
Qed.

End FrameFacts.

Lemma run_frame w F folderPath photoFiles db db' log o G :
  scanAndProcessSession w F folderPath photoFiles db = (db', log, o) ->
  G <> F ->
  selectSession G db' = selectSession G db /\
  photosOf G db' = photosOf G db /\
  (List.length (sessions db) <= List.length (sessions db')
   <= S (List.length (sessions db)))%nat.
Proof.
  intros H Hne.
  pose proof (sessions_after_any_run _ _ _ _ _ _ _ _ H) as Hs.
  pose proof (scanAndProcessSession_photos _ _ _ _ _ _ _ _ H) as Hp.
  assert (Hphotos : photosOf G db' = photosOf G db).
  { assert (Hrep : photos db' = (photosNotOf F db ++ newRows w F folderPath photoFiles)%list
                   -> photosOf G db' = photosOf G db).
    { intros E. unfold photosOf, photosNotOf in *. rewrite E.
      apply photosOf_other; [congruence | apply newRows_owned]. }
    destruct o as [? | sid n | []]; try (unfold photosOf; now rewrite Hp);
      [apply Hrep; tauto | now apply Hrep]. }
  unfold selectSession.
  destruct Hs as [-> | [(_ & ->) | (s & _ & ->)]].
  - repeat split; auto.
  - rewrite find_other_appended, length_app; simpl.
    + repeat split; auto; lia.
    + unfold has_uuid. simpl. apply String.eqb_neq. congruence.
  - simpl. rewrite find_other_mapped, length_map; auto.
Qed.

(** X1 — isolation.  A run of the reconciler for folder [F] changes
    nothing that belongs to another session: for every other identifier
    the session row and the photo rows are the ones from before, and the
    sessions table grows by at most one row. *)
Theorem reconcile_leaves_other_sessions_alone
    w F folderPath photoFiles db db' log o G :
  scanAndProcessSession w F folderPath photoFiles db = (db', log, o) ->
  G <> F ->
  selectSession G db' = selectSession G db /\
  photosOf G db' = photosOf G db /\
  (List.length (sessions db) <= List.length (sessions db')
   <= S (List.length (sessions db)))%nat.
Proof. apply run_frame. Qed.

Lemma reconcile_leaves_other_sessions_alone_witness :
  let older : Photo :=
    {| p_session_uuid := "Wedding"; photo_number := 1;
       original_path := "/photos/Wedding/x.jpg";
       processed_path := "public/gallery/Wedding/photo_1.jpg";
       upload_timestamp := "2025-11-30T09:00:00.000Z" |} in
  let db := {| sessions := sessions Samples.dbDeletedEvent1;
               photos := older :: photos Samples.dbDeletedEvent1 |} in
  let r := scanAndProcessSession Samples.worldCorruptC "Event1" "/photos/Event1"
             Samples.event1Files db in
  "Wedding" <> "Event1" /\
  photosOf "Wedding" (fst (fst r)) = [older].
Proof.
  intros older db r.
  assert (Hne : "Wedding" <> "Event1") by discriminate.
  split; [exact Hne |].
  assert (E : scanAndProcessSession Samples.worldCorruptC "Event1" "/photos/Event1"
                Samples.event1Files db = (fst (fst r), snd (fst r), snd r))
    by (unfold r; now destruct (scanAndProcessSession _ _ _ _ _) as [[? ?] ?]).
  destruct (reconcile_leaves_other_sessions_alone _ _ _ _ _ _ _ _ "Wedding" E Hne)
    as (_ & Hp & _).
  rewrite Hp. reflexivity.
Defined.

Section LogFacts.

(** After the session effects the log holds the gallery folder, the
    transforms, and on a commit the replacement and the page. *)
Lemma processMedia_log w sid fp pf log0 db db' log o :
  processMedia w sid fp pf log0 db = (db', log, o) ->
  exists rest,
    log = (log0 ++ rest)%list /\
    forallb (fun e => negb (is_qr e) && negb (is_session_insert e)) rest = true.
Proof.
  unfold processMedia. intros H.
  destruct (w_mkdir_ok w); simpl in H.
  2:{ injection H as <- <- <-. eexists. split; reflexivity. }
  pose proof (transformLoop_effects w fp (path_join GALLERY_FOLDER sid) pf []) as Ht.
  destruct (transformLoop w fp (path_join GALLERY_FOLDER sid) pf [])
    as [validated tlog]. simpl in Ht.
  assert (Hq : forallb (fun e => negb (is_qr e) && negb (is_session_insert e)) tlog
               = true).
  { apply forallb_forall. intros e He.
    rewrite List.Forall_forall in Ht. specialize (Ht e He).
    now destruct e. }
  destruct (insertPhotosTxn w sid fp _ validated db) as [db1 [n | e]].
  - destruct (w_gallery_ok w); injection H as <- <- <-;
      (eexists; split; [rewrite <- app_assoc; reflexivity |]);
      simpl; rewrite forallb_app, Hq; reflexivity.
  - injection H as <- <- <-. eexists. split; [reflexivity |].
    simpl. exact Hq.
Qed.

(** A run for a folder whose session row exists inserts no session and
    writes no QR code. *)
Lemma existing_session_log w F fp pf db db' log o s :
  selectSession F db = Some s ->
  scanAndProcessSession w F fp pf db = (db', log, o) ->
  forallb (fun e => negb (is_qr e) && negb (is_session_insert e)) log = true.
Proof.
  intros Hsel H. destruct (passesGates w fp pf) eqn:G.
  - rewrite (gates_open _ _ _ _ _ G) in H. unfold insertAborts in H.
    rewrite Hsel in H.
    apply processMedia_log in H. destruct H as (rest & -> & Hrest).
    unfold sessionPrefix. rewrite Hsel. simpl. exact Hrest.
  - destruct (gates_closed w F fp pf db G) as [why E]. rewrite E in H.
    now injection H as _ <- _.
Qed.

End LogFacts.

(** X2 — reprocessing an existing session.  When the session row of [F]
    exists already (whatever its status) and the run gets past the gates,
    the row is kept.  When the UPDATE goes through, its status is set to
    active and its update stamp to the engine's current time; when the
    UPDATE throws, the row stays exactly as it was.  Either way
    identifier, folder name, creation time, visibility, access token and
    also the deletion stamp stay as they were; the run inserts no session
    row and writes no QR code. *)
Theorem reprocessing_keeps_the_session_row
    w F folderPath photoFiles db db' log o s :
  passesGates w folderPath photoFiles = true ->
  selectSession F db = Some s ->
  scanAndProcessSession w F folderPath photoFiles db = (db', log, o) ->
  exists s',
    selectSession F db' = Some s' /\
    s' = (if w_session_fault w then s else set_active (w_sql_now w) s) /\
    session_uuid s' = session_uuid s /\
    folder_name s' = folder_name s /\
    access_token s' = access_token s /\
    created_at s' = created_at s /\
    is_public s' = is_public s /\
    deleted_at s' = deleted_at s /\
    List.length (sessions db') = List.length (sessions db) /\
    forallb (fun e => negb (is_qr e) && negb (is_session_insert e)) log = true.
Proof.
  intros G Hsel H.
  assert (A : insertAborts w F db = false)
    by (unfold insertAborts; now rewrite Hsel).
  pose proof (session_after_run _ _ _ _ _ _ _ _ G H A) as (Hs & _).
  pose proof (row_after_run _ _ _ _ _ _ _ _ G H A) as Hrow.
  unfold rowAfter in Hrow. rewrite Hsel in Hrow.
  eexists. split; [exact Hrow |]. split; [reflexivity |].
  do 6 (split; [now destruct (w_session_fault w) |]).
  split.
  { rewrite <- (length_map session_uuid (sessions db')),
            <- (length_map session_uuid (sessions db)), Hs.
    f_equal. eapply withSession_uuids, Hsel. }
  exact (existing_session_log _ _ _ _ _ _ _ _ _ Hsel H).
Qed.

Lemma reprocessing_keeps_the_session_row_witness :
  let r := scanAndProcessSession Samples.worldCorruptC "Event1" "/photos/Event1"
             Samples.event1Files Samples.dbDeletedEvent1 in
  passesGates Samples.worldCorruptC "/photos/Event1" Samples.event1Files = true /\
  selectSession "Event1" Samples.dbDeletedEvent1 = Some Samples.deletedEvent1 /\
  option_map deleted_at (selectSession "Event1" (fst (fst r)))
  = Some (Some "2025-12-09T03:00:00.000Z") /\
  option_map status (selectSession "Event1" (fst (fst r))) = Some active /\
  option_map updated_at (selectSession "Event1" (fst (fst r)))
  = Some "2025-12-19 00:00:00".
Proof.
  intros r. split; [reflexivity |]. split; [reflexivity |].
  assert (E : scanAndProcessSession Samples.worldCorruptC "Event1" "/photos/Event1"
                Samples.event1Files Samples.dbDeletedEvent1
              = (fst (fst r), snd (fst r), snd r))
    by (unfold r; now destruct (scanAndProcessSession _ _ _ _ _) as [[? ?] ?]).
  destruct (reprocessing_keeps_the_session_row Samples.worldCorruptC "Event1"
              "/photos/Event1" Samples.event1Files Samples.dbDeletedEvent1 _ _ _
              Samples.deletedEvent1 eq_refl eq_refl E) as (s' & -> & -> & _).
  repeat split.
Defined.

Section IdempotenceFacts.

Lemma completed_passes_gates w F fp pf db db' log sid n :
  scanAndProcessSession w F fp pf db = (db', log, Completed sid n) ->
  passesGates w fp pf = true.
Proof.
  intros H. destruct (passesGates w fp pf) eqn:G; [reflexivity |].
  destruct (gates_closed w F fp pf db G) as [why E]. rewrite E in H.
  discriminate.
Qed.

Lemma completed_row w F fp pf db db' log sid n :
  scanAndProcessSession w F fp pf db = (db', log, Completed sid n) ->
  selectSession F db' = Some (rowAfter w F db).
Proof.
  intros H. pose proof (completed_passes_gates _ _ _ _ _ _ _ _ _ H) as G.
  apply (row_after_run _ _ _ _ _ _ _ _ G H).
  destruct (insertAborts w F db) eqn:A; [| reflexivity].
  now destruct (aborted_run _ _ _ _ _ _ _ _ G H A) as (_ & _ & ?).
Qed.

Lemma transformable_same w1 w2 f :
  sameTransforms w1 w2 -> transformable w1 f = transformable w2 f.
Proof.
  intros (Hc & Hp & Hm & Ht). unfold transformable.
  now rewrite Hc, Hp, Hm, Ht.
Qed.

Lemma rowsFrom_keys w1 w2 sid fp gp files : forall i,
  map rowKey (rowsFrom w1 sid fp gp files i)
  = map rowKey (rowsFrom w2 sid fp gp files i).
Proof.
  induction files as [| f files IH]; simpl; intros i; [reflexivity |].
  now rewrite IH.
Qed.

Lemma rowsFrom_same_clock w1 w2 sid fp gp files : forall i,
  w_now w1 = w_now w2 ->
  rowsFrom w1 sid fp gp files i = rowsFrom w2 sid fp gp files i.
Proof.
  induction files as [| f files IH]; simpl; intros i E; [reflexivity |].
  rewrite (IH _ E). unfold photoRow. now rewrite E.
Qed.

End IdempotenceFacts.

(** X3 — idempotence.  After a completed run, a second run on the same
    folder in a world where every file transforms as before and nothing
    else fails completes with the same count and leaves the same photo
    rows (same session, numbers, original and processed paths; only the
    time stamp is the second run's), and no other session's rows change. *)
Theorem reconcile_twice_same_rows
    w F folderPath photoFiles db db1 log1 sid N w2 :
  scanAndProcessSession w F folderPath photoFiles db = (db1, log1, Completed sid N) ->
  w_final_scan w2 = w_final_scan w ->
  sameTransforms w w2 ->
  calm w2 ->
  exists db2 log2,
    scanAndProcessSession w2 F folderPath photoFiles db1
    = (db2, log2, Completed F N) /\
    map rowKey (photosOf F db2) = map rowKey (photosOf F db1) /\
    photosNotOf F db2 = photosNotOf F db /\
    (w_now w2 = w_now w -> photos db2 = photos db1).
Proof.
  intros H Hscan Hsame (Hdir & Hmk & Hg & Hfault).
  pose proof (completed_passes_gates _ _ _ _ _ _ _ _ _ H) as G.
  assert (G2 : passesGates w2 folderPath photoFiles = true).
  { unfold passesGates in *. rewrite Hscan, Hdir.
    apply andb_true_iff in G. destruct G as [G G3].
    apply andb_true_iff in G. destruct G as [G1 _].
    now rewrite G1, G3. }
  assert (Hv : validatedFiles w2 F folderPath photoFiles
               = validatedFiles w F folderPath photoFiles).
  { rewrite !validatedFiles_filter. unfold candidates. rewrite Hscan.
    apply List.filter_ext. intros f. symmetry. now apply transformable_same. }
  assert (A2 : insertAborts w2 F db1 = false).
  { assert (A : insertAborts w F db = false).
    { destruct (insertAborts w F db) eqn:A; [| reflexivity].
      now destruct (aborted_run _ _ _ _ _ _ _ _ G H A) as (_ & _ & ?). }
    unfold insertAborts. now rewrite (row_after_run _ _ _ _ _ _ _ _ G H A). }
  destruct (run_completes w2 F folderPath photoFiles db1 G2 A2 Hmk Hg Hfault)
    as (db2 & log2 & Hrun).
  pose proof (scanAndProcessSession_photos _ _ _ _ _ _ _ _ H) as (-> & -> & Hp1).
  pose proof (photosOf_replaced _ _ _ _ _ _ Hp1) as (Hrows1 & Hnot1).
  rewrite Hv in Hrun. exists db2, log2. split; [exact Hrun |].
  pose proof (scanAndProcessSession_photos _ _ _ _ _ _ _ _ Hrun) as (_ & _ & Hp2).
  pose proof (photosOf_replaced _ _ _ _ _ _ Hp2) as (Hrows2 & Hnot2).
  split.
  { rewrite Hrows1, Hrows2. unfold newRows. rewrite Hv. apply rowsFrom_keys. }
  split; [congruence |].
  intros Hnow. rewrite Hp1, Hp2, Hnot1. f_equal.
  unfold newRows. rewrite Hv. apply rowsFrom_same_clock. now symmetry.
Qed.

Lemma reconcile_twice_same_rows_witness :
  let r1 := scanAndProcessSession Samples.worldCorruptC "Event1" "/photos/Event1"
              Samples.event1Files Samples.dbDeletedEvent1 in
  let r2 := scanAndProcessSession Samples.worldCorruptC "Event1" "/photos/Event1"
              Samples.event1Files (fst (fst r1)) in
  snd r1 = Completed "Event1" 2 /\
  snd r2 = Completed "Event1" 2 /\
  map rowKey (photosOf "Event1" (fst (fst r2)))
  = map rowKey (photosOf "Event1" (fst (fst r1))).
Proof.
  intros r1 r2. split; [reflexivity |].
  assert (E : scanAndProcessSession Samples.worldCorruptC "Event1" "/photos/Event1"
                Samples.event1Files Samples.dbDeletedEvent1
              = (fst (fst r1), snd (fst r1), Completed "Event1" 2%nat))
    by (vm_compute; reflexivity).
  destruct (reconcile_twice_same_rows Samples.worldCorruptC "Event1" "/photos/Event1"
              Samples.event1Files Samples.dbDeletedEvent1 _ _ _ _
              Samples.worldCorruptC E eq_refl)
    as (db2 & log2 & Hrun & Hkeys & _).
  - repeat split.
  - repeat split.
  - unfold r2. rewrite Hrun. split; [reflexivity | exact Hkeys].
Defined.


(** * Further properties of the classifier and the scanner *)

Section CaseFacts.

Lemma lower_ascii_slash c :
  Ascii.eqb (lower_ascii c) CHAR_FORWARD_SLASH = Ascii.eqb c CHAR_FORWARD_SLASH.
Proof. destruct c as [[] [] [] [] [] [] [] []]; reflexivity. Qed.

Lemma lower_ascii_dot c :
  Ascii.eqb (lower_ascii c) CHAR_DOT = Ascii.eqb c CHAR_DOT.
Proof. destruct c as [[] [] [] [] [] [] [] []]; reflexivity. Qed.

Lemma lower_ascii_idem c : lower_ascii (lower_ascii c) = lower_ascii c.
Proof. destruct c as [[] [] [] [] [] [] [] []]; reflexivity. Qed.

Lemma chars_lower s :
  list_ascii_of_string (toLowerCase s) = map lower_ascii (list_ascii_of_string s).
Proof. induction s as [| c s IH]; simpl; [reflexivity | now rewrite IH]. Qed.

Lemma extLoop_lower l : forall i st,
  extLoop (map lower_ascii l) i st = extLoop l i st.
Proof.
  induction l as [| c l IH]; intros i st; [reflexivity |].
  cbn [map extLoop]. rewrite lower_ascii_slash, lower_ascii_dot.
  destruct (Ascii.eqb c CHAR_FORWARD_SLASH); [now rewrite IH | now rewrite IH].
Qed.

Lemma substring_lower s : forall n m,
  String.substring n m (toLowerCase s) = toLowerCase (String.substring n m s).
Proof.
  induction s as [| c s IH]; intros n m.
  - destruct n, m; reflexivity.
  - destruct n as [| n]; simpl.
    + destruct m as [| m]; simpl; [reflexivity | now rewrite IH].
    + apply IH.
Qed.

Lemma toLowerCase_idem s : toLowerCase (toLowerCase s) = toLowerCase s.
Proof.
  induction s as [| c s IH]; simpl; [reflexivity |].
  now rewrite lower_ascii_idem, IH.
Qed.

(** Lower-casing commutes with taking the extension. *)
Lemma extname_lower s : extname (toLowerCase s) = toLowerCase (extname s).
Proof.
  unfold extname. rewrite chars_lower, <- map_rev, length_map, extLoop_lower.
  destruct (_ || _); [reflexivity | apply substring_lower].
Qed.

End CaseFacts.

(** X4 — letter case.  Two file names that differ only in the case of
    their ASCII letters are classified alike: both images, both videos or
    both unsupported; in particular IMG_1.JPG is an image as img_1.jpg is. *)
Theorem classification_ignores_case f g :
  toLowerCase f = toLowerCase g ->
  isImageFile f = isImageFile g /\
  isVideoFile f = isVideoFile g /\
  includes SUPPORTED_MEDIA_TYPES (toLowerCase (extname f))
  = includes SUPPORTED_MEDIA_TYPES (toLowerCase (extname g)).
Proof.
  intros H. unfold isImageFile, isVideoFile.
  now rewrite <- !extname_lower, H.
Qed.

Lemma classification_ignores_case_witness :
  toLowerCase "IMG_1.JPG" = toLowerCase "img_1.jpg" /\
  isImageFile "IMG_1.JPG" = isImageFile "img_1.jpg" /\
  isImageFile "img_1.jpg" = true.
Proof.
  split; [reflexivity |].
  split; [| reflexivity].
  exact (proj1 (classification_ignores_case "IMG_1.JPG" "img_1.jpg" eq_refl)).
Defined.

Section MoreScannerFacts.

Local Arguments includes : simpl never.
Local Arguments startsWith : simpl never.
Local Arguments extname : simpl never.
Local Arguments toLowerCase : simpl never.

Lemma scanItems_sound items : forall acc fs,
  (scanItems items acc = Ok fs \/ scanItems items acc = Err fs) ->
  exists kept,
    fs = (acc ++ map d_name kept)%list /\
    (forall it, In it kept -> In it items /\ listed it = true) /\
    (List.length kept <= List.length items)%nat.
Proof.
  induction items as [| it items IH]; simpl; intros acc fs H.
  - exists []. rewrite app_nil_r. destruct H as [[= <-] | [=]]. auto.
  - unfold listed.
    destruct (startsWith (d_name it) "_" || startsWith (d_name it) ".") eqn:Eh.
    { destruct (IH _ _ H) as (kept & -> & Hk & Hl).
      exists kept. repeat split; auto; [right; now apply Hk | now apply Hk]. }
    destruct (includes systemFolders (d_name it)) eqn:Es.
    { destruct (IH _ _ H) as (kept & -> & Hk & Hl).
      exists kept. repeat split; auto; [right; now apply Hk | now apply Hk]. }
    destruct (d_stat it) eqn:Est.
    + destruct (includes SUPPORTED_MEDIA_TYPES _) eqn:Em.
      * destruct (IH _ _ H) as (kept & -> & Hk & Hl).
        exists (it :: kept). rewrite <- app_assoc. simpl.
        repeat split; auto; [| | lia].
        -- destruct H0 as [<- | H0]; [now left | right; now apply Hk].
        -- destruct H0 as [<- | H0]; [| now apply Hk].
           unfold listed. now rewrite Eh, Es, Est, Em.
      * destruct (IH _ _ H) as (kept & -> & Hk & Hl).
        exists kept. repeat split; auto; [right; now apply Hk | now apply Hk].
    + destruct (IH _ _ H) as (kept & -> & Hk & Hl).
      exists kept. repeat split; auto; [right; now apply Hk | now apply Hk].
    + exists []. rewrite app_nil_r. destruct H as [[=] | [= <-]].
      repeat split; auto; try easy. simpl. lia.
Qed.

Lemma isValid_threshold folderPath node :
  isValid (scanFolderTree folderPath node)
  = (MIN_FILES_PER_SESSION <=? totalFiles (scanFolderTree folderPath node))%nat.
Proof.
  unfold scanFolderTree. destruct node as [| | | items]; try reflexivity.
  destruct (scanItems items []); reflexivity.
Qed.

Lemma scanItems_prefix pre : forall rest acc,
  Forall (fun it => d_stat it <> StatThrows) pre ->
  scanItems (pre ++ rest) acc
  = scanItems rest (acc ++ map d_name (List.filter listed pre))%list.
Proof.
  induction pre as [| it pre IH]; simpl; intros rest acc H.
  - now rewrite app_nil_r.
  - inversion H as [| ? ? Hit Hpre]; subst. unfold listed at 1.
    destruct (startsWith (d_name it) "_" || startsWith (d_name it) ".");
      simpl; [auto |].
    destruct (includes systemFolders (d_name it)); simpl; [auto |].
    destruct (d_stat it); [| auto | contradiction].
    destruct (includes SUPPORTED_MEDIA_TYPES _); [| auto].
    rewrite (IH _ _ Hpre). simpl. now rewrite <- app_assoc.
Qed.

End MoreScannerFacts.

(** X5 — what the scanner lists.  Whatever the directory read returns,
    every name in the scan result is the name of an entry of the listing
    that is a regular file with a supported media extension and is neither
    hidden (leading dot or underscore) nor a system name; the count never
    exceeds the number of names kept, which never exceeds the number of
    entries; and the folder is valid exactly when the count reaches the
    minimum. *)
Theorem scan_lists_only_visible_media_files folderPath node :
  let r := scanFolderTree folderPath node in
  (forall name, In name (files r) ->
     exists items it,
       node = Directory items /\ In it items /\ d_name it = name /\
       d_stat it = StatFile /\
       startsWith name "_" = false /\ startsWith name "." = false /\
       includes systemFolders name = false /\
       (isImageFile name = true \/ isVideoFile name = true)) /\
  (totalFiles r <= List.length (files r))%nat /\
  (forall items, node = Directory items ->
     (List.length (files r) <= List.length items)%nat) /\
  isValid r = (MIN_FILES_PER_SESSION <=? totalFiles r)%nat.
Proof.
  intros r. subst r. split; [| split; [| split]].
  - intros name Hin. unfold scanFolderTree in Hin.
    destruct node as [| | | items]; try contradiction.
    assert (E : exists fs, (scanItems items [] = Ok fs \/ scanItems items [] = Err fs)
                           /\ In name fs).
    { destruct (scanItems items []) as [fs | fs]; exists fs; auto. }
    destruct E as (fs & Hfs & Hname).
    destruct (scanItems_sound items [] fs Hfs) as (kept & -> & Hk & _).
    simpl in Hname. apply in_map_iff in Hname. destruct Hname as (it & <- & Hit).
    destruct (Hk it Hit) as [Hitems Hl]. exists items, it.
    unfold listed in Hl. apply andb_true_iff in Hl. destruct Hl as [Hl Hm].
    apply andb_true_iff in Hl. destruct Hl as [Hh Hs].
    apply negb_true_iff in Hh, Hs. apply orb_false_iff in Hh.
    destruct (d_stat it); try discriminate.
    repeat split; try tauto.
    destruct (media_image_or_video _ Hm); tauto.
  - unfold scanFolderTree. destruct node as [| | | items]; simpl; try lia.
    destruct (scanItems items []); simpl; lia.
  - intros items ->. unfold scanFolderTree.
    assert (E : exists fs, (scanItems items [] = Ok fs \/ scanItems items [] = Err fs)
                           /\ files (match scanItems items [] with
                                     | Ok fs0 => {| path := folderPath; files := fs0;
                                          totalFiles := List.length fs0;
                                          isValid := (MIN_FILES_PER_SESSION
                                                      <=? List.length fs0)%nat |}
                                     | Err fs0 => {| path := folderPath; files := fs0;
                                          totalFiles := 0%nat; isValid := false |}
                                     end) = fs).
    { destruct (scanItems items []) as [fs | fs]; exists fs; auto. }
    destruct E as (fs & Hfs & ->).
    destruct (scanItems_sound items [] fs Hfs) as (kept & -> & _ & Hl).
    simpl. now rewrite length_map.
  - apply isValid_threshold.
Qed.

(** X6 — a directory entry that cannot be stat'ed.  When the loop
    reaches a visible entry whose [statSync] throws, the scan ends there:
    the result keeps the names pushed before it, but its count is 0 and the
    folder is reported invalid, whatever the folder holds. *)
Theorem scan_stat_error_discards_count folderPath pre it post :
  Forall (fun e => d_stat e <> StatThrows) pre ->
  d_stat it = StatThrows ->
  startsWith (d_name it) "_" = false ->
  startsWith (d_name it) "." = false ->
  includes systemFolders (d_name it) = false ->
  scanFolderTree folderPath (Directory (pre ++ it :: post))
  = {| path := folderPath;
       files := map d_name (List.filter listed pre);
       totalFiles := 0%nat;
       isValid := false |}.
Proof.
  intros Hpre Hit Hu Hd Hs. unfold scanFolderTree.
  rewrite (scanItems_prefix pre (it :: post) [] Hpre).
  cbn [scanItems app]. now rewrite Hu, Hd, Hs, Hit.
Qed.

Lemma scan_stat_error_discards_count_witness :
  let broken := {| d_name := "link.jpg"; d_stat := StatThrows |} in
  scanFolderTree "/photos/Event1"
    (Directory ([file "a.jpg"; file "b.jpg"] ++ broken :: [file "c.jpg"]))
  = {| path := "/photos/Event1"; files := ["a.jpg"; "b.jpg"];
       totalFiles := 0%nat; isValid := false |}.
Proof.
  intros broken.
  refine (scan_stat_error_discards_count "/photos/Event1"
            [file "a.jpg"; file "b.jpg"] broken [file "c.jpg"] _ eq_refl eq_refl
            eq_refl eq_refl).
  repeat constructor; discriminate.
Defined.

(** X7 — validating an unchanged folder.  Checked against the count of
    its own scan, a folder passes the consistency check exactly when that
    scan found it valid. *)
Theorem unchanged_folder_validates_iff_valid folderPath node :
  validateFolderConsistency folderPath node
    (totalFiles (scanFolderTree folderPath node))
  = isValid (scanFolderTree folderPath node).
Proof.
  unfold validateFolderConsistency. rewrite Nat.eqb_refl, isValid_threshold.
  cbn [negb]. cbv iota.
  destruct (Nat.ltb_spec (totalFiles (scanFolderTree folderPath node))
              MIN_FILES_PER_SESSION) as [Hlt | Hge];
    symmetry; [apply Nat.leb_gt | apply Nat.leb_le]; assumption.
Qed.

(** * The outcome of a run and the startup sweep *)

Section OutcomeFacts.
Variable w : World.

Lemma insertLoop_decides sid fp gp files : forall i c db,
  existsb (has_uuid sid) (sessions db) = true ->
  (forall p, In p (photos db) -> of_session sid p = true ->
             (photo_number p <= i)%nat) ->
  insertLoop w sid fp gp files i c db =
  if forallb (fun k => negb (w_insert_fault w k)) (seq (i + 1) (List.length files))
  then Ok ({| sessions := sessions db;
              photos := photos db ++ rowsFrom w sid fp gp files i |},
           (c + List.length files)%nat)
  else Err IoFault.
Proof.
  induction files as [| f files IH]; intros i c db Hfk Huniq.
  - simpl. rewrite Nat.add_0_r, app_nil_r. now destruct db.
  - cbn [insertLoop List.length seq forallb rowsFrom].
    unfold insertPhoto at 1.
    destruct (w_insert_fault w (i + 1)); [reflexivity |].
    cbn [negb andb p_session_uuid photoRow]. rewrite Hfk. cbn [negb].
    destruct (existsb _ (photos db)) eqn:E.
    { apply existsb_exists in E. destruct E as (p & Hp & Hc).
      apply andb_true_iff in Hc. destruct Hc as [Hs Hn].
      apply Nat.eqb_eq in Hn. specialize (Huniq p Hp Hs).
      simpl in Hn. lia. }
    rewrite IH; cbn [sessions photos]; auto.
    + replace (S (i + 1)) with (i + 1 + 1)%nat by lia.
      destruct (forallb _ _); [| reflexivity].
      rewrite <- app_assoc. do 2 f_equal. lia.
    + intros p Hp Hs. apply in_app_or in Hp.
      destruct Hp as [Hp | [<- | []]]; [| simpl; lia].
      specialize (Huniq p Hp Hs). lia.
Qed.

Lemma processMedia_outcome sid fp pf log0 db :
  existsb (has_uuid sid) (sessions db) = true ->
  snd (processMedia w sid fp pf log0 db) =
  let n := List.length (fst (transformLoop w fp (path_join GALLERY_FOLDER sid) pf [])) in
  if negb (w_mkdir_ok w) then Errored AtGalleryDir
  else if negb (faultFree w n) then Errored AtTransaction
  else if w_gallery_ok w then Completed sid n
  else Errored AtGalleryHtml.
Proof.
  intros Hfk. unfold processMedia.
  destruct (w_mkdir_ok w); [| reflexivity]. cbn [negb].
  destruct (transformLoop w fp (path_join GALLERY_FOLDER sid) pf [])
    as [validated tlog]. cbn [fst].
  unfold insertPhotosTxn, transaction, insertPhotosBody.
  rewrite insertLoop_decides.
  - unfold faultFree. change (0 + 1)%nat with 1%nat.
    destruct (forallb _ (seq 1 (List.length validated))); cbn [negb];
      [| reflexivity].
    now destruct (w_gallery_ok w).
  - exact Hfk.
  - intros p Hp Hs. simpl in Hp. apply List.filter_In in Hp.
    destruct Hp as [_ Hp]. rewrite Hs in Hp. discriminate.
Qed.

Lemma run_outcome F fp pf db :
  snd (scanAndProcessSession w F fp pf db) =
  if passesGates w fp pf && insertAborts w F db then Errored AtSessionInsert
  else outcomeOf w F fp pf.
Proof.
  destruct (passesGates w fp pf) eqn:G.
  - rewrite (gates_open _ _ _ _ _ G). cbn [andb].
    destruct (insertAborts w F db); [reflexivity |].
    unfold outcomeOf, validatedFiles.
    unfold passesGates in G.
    apply andb_true_iff in G. destruct G as [G G3].
    apply andb_true_iff in G. destruct G as [G1 G2].
    apply negb_true_iff in G1, G3. rewrite G1, G2, G3. cbn [negb].
    rewrite processMedia_outcome; [reflexivity |].
    eapply find_some_existsb_uuid, withSession_select.
  - cbn [andb]. unfold outcomeOf, scanAndProcessSession. unfold passesGates in G.
    destruct (List.length pf <? MIN_FILES_PER_SESSION)%nat; [reflexivity |].
    destruct (w_dir_ok w); [| reflexivity]. simpl in G. cbn [negb].
    destruct (totalFiles _ <? MIN_FILES_PER_SESSION)%nat;
      [reflexivity | discriminate].
Qed.



End OutcomeFacts.

(** C2 — atomic replacement.  Every run of the reconciler that gets as
    far as the transaction (past the gates, the session statement and the
    gallery folder) either commits or leaves the photos table untouched.
    When the engine fails none of the inserts, the table after the run is
    the table from before without the rows of the session, followed by the
    new rows, one per validated file: every old row of the session is
    gone, every new row is there, and the run goes on to the gallery page.
    When the engine fails one of the inserts, the table is the one from
    before the run, old rows of the session included, and the run ends in
    the error of the transaction.  A run that does not get as far changes
    no photo row.  In no case does a row of another session change.  (Of
    the statements of the transaction, the world lets the engine fail the
    inserts.) *)
Theorem photos_replaced_all_or_nothing w F folderPath photoFiles db db' log o :
  scanAndProcessSession w F folderPath photoFiles db = (db', log, o) ->
  let n := List.length (validatedFiles w F folderPath photoFiles) in
  let rows := newRows w F folderPath photoFiles in
  (if reachesTransaction w F folderPath photoFiles db
   then if faultFree w n
        then photos db' = (photosNotOf F db ++ rows)%list /\
             photosOf F db' = rows /\
             (o = Completed F n \/ o = Errored AtGalleryHtml)
        else photos db' = photos db /\ o = Errored AtTransaction
   else photos db' = photos db /\
        o <> Errored AtTransaction /\ (forall c, o <> Completed F c)) /\
  photosNotOf F db' = photosNotOf F db /\
  List.length rows = n.
Proof.
  intros H n rows.
  assert (Hlen : List.length rows = n) by apply rowsFrom_length.
  assert (Hsame : photos db' = photos db -> photosNotOf F db' = photosNotOf F db)
    by (unfold photosNotOf; now intros ->).
  pose proof (run_outcome w F folderPath photoFiles db) as Ho.
  rewrite H in Ho. cbn [snd] in Ho.
  pose proof (scanAndProcessSession_photos _ _ _ _ _ _ _ _ H) as Hp.
  unfold reachesTransaction.
  destruct (passesGates w folderPath photoFiles) eqn:G; cbn [andb] in *.
  2:{ destruct (gates_closed w F folderPath photoFiles db G) as [why E].
      rewrite E in H. injection H as <- _ <-.
      repeat split; try reflexivity; try discriminate. exact Hlen. }
  destruct (insertAborts w F db) eqn:A; cbn [andb negb] in *.
  { subst o. repeat split; auto; discriminate. }
  unfold outcomeOf in Ho. fold n in Ho. unfold passesGates in G.
  apply andb_true_iff in G. destruct G as [G G3].
  apply andb_true_iff in G. destruct G as [G1 G2].
  apply negb_true_iff in G1, G3. rewrite G1, G2, G3 in Ho. cbn [negb] in Ho.
  destruct (w_mkdir_ok w); cbn [negb] in Ho.
  2:{ subst o. repeat split; auto; discriminate. }
  destruct (faultFree w n); cbn [negb] in Ho.
  2:{ subst o. repeat split; auto. }
  assert (Hrep : photos db' = (photosNotOf F db ++ rows)%list)
    by (destruct (w_gallery_ok w); subst o; tauto).
  destruct (photosOf_replaced _ _ _ _ _ _ Hrep) as [Hof Hnot].
  repeat split; auto.
  destruct (w_gallery_ok w); auto.
Qed.

Lemma photos_replaced_all_or_nothing_witness :
  let committed :=
    scanAndProcessSession Samples.worldCorruptC "Event1" "/photos/Event1"
      Samples.event1Files Samples.dbDeletedEvent1 in
  let failed :=
    scanAndProcessSession Samples.worldFaultySecondInsert "Event1" "/photos/Event1"
      Samples.event1Files Samples.dbDeletedEvent1 in
  map original_path (photos Samples.dbDeletedEvent1)
  = ["/photos/Event1/old1.jpg"; "/photos/Event1/old2.jpg"] /\
  map original_path (photos (fst (fst committed)))
  = ["/photos/Event1/b.jpg"; "/photos/Event1/a.jpg"] /\
  photos (fst (fst failed)) = photos Samples.dbDeletedEvent1 /\
  snd failed = Errored AtTransaction.
Proof.
  intros committed failed. split; [reflexivity |].
  assert (Ec : scanAndProcessSession Samples.worldCorruptC "Event1" "/photos/Event1"
                 Samples.event1Files Samples.dbDeletedEvent1
               = (fst (fst committed), snd (fst committed), snd committed))
    by (unfold committed; now destruct (scanAndProcessSession _ _ _ _ _) as [[? ?] ?]).
  assert (Ef : scanAndProcessSession Samples.worldFaultySecondInsert "Event1"
                 "/photos/Event1" Samples.event1Files Samples.dbDeletedEvent1
               = (fst (fst failed), snd (fst failed), snd failed))
    by (unfold failed; now destruct (scanAndProcessSession _ _ _ _ _) as [[? ?] ?]).
  pose proof (proj1 (photos_replaced_all_or_nothing _ _ _ _ _ _ _ _ Ec)) as Hc.
  pose proof (proj1 (photos_replaced_all_or_nothing _ _ _ _ _ _ _ _ Ef)) as Hf.
  destruct Hc as (Hc & _). destruct Hf as (Hf1 & Hf2).
  split; [rewrite Hc; vm_compute; reflexivity |].
  split; [exact Hf1 | exact Hf2].
Defined.

(** X8 — the store never makes a run fail.  How a run ends is decided
    by the folder and the world: the early returns by the counts and the
    folder check, an error at the gallery folder, the transaction or the
    page by the corresponding failure, and a completed run otherwise.  Of
    the store only one thing matters, and only when the engine fails the
    statement on the sessions table: for a folder without a row that
    statement is the INSERT and its failure ends the run, for a folder with
    a row it is the UPDATE, whose failure is caught.  In particular the
    transaction fails only when the engine fails one of the inserts; no
    state of the store can make it hit the unique key or the foreign key of
    the photo rows, nor the unique key of the session row.  (Of the
    engine's own faults the world holds those of the session statement and
    of the photo inserts.) *)
Theorem outcome_does_not_depend_on_store w F folderPath photoFiles db :
  snd (scanAndProcessSession w F folderPath photoFiles db)
  = (if passesGates w folderPath photoFiles && insertAborts w F db
     then Errored AtSessionInsert
     else outcomeOf w F folderPath photoFiles) /\
  (w_session_fault w = false ->
   snd (scanAndProcessSession w F folderPath photoFiles db)
   = outcomeOf w F folderPath photoFiles) /\
  (snd (scanAndProcessSession w F folderPath photoFiles db) = Errored AtTransaction ->
   exists k, (1 <= k <= List.length (validatedFiles w F folderPath photoFiles))%nat /\
             w_insert_fault w k = true).
Proof.
  rewrite run_outcome. split; [reflexivity |].
  split.
  { intros Hf. unfold insertAborts. rewrite Hf.
    destruct (selectSession F db); now rewrite andb_false_r. }
  destruct (passesGates w folderPath photoFiles && insertAborts w F db);
    [discriminate |].
  unfold outcomeOf.
  - repeat match goal with
           | |- context [if ?c then _ else _] => destruct c eqn:?
           end; try discriminate.
    intros _. apply negb_true_iff in Heqb3. unfold faultFree in Heqb3.
    assert (E : exists k, In k (seq 1 (List.length
                  (validatedFiles w F folderPath photoFiles)))
                /\ negb (w_insert_fault w k) = false).
    { clear - Heqb3.
      induction (seq 1 (List.length (validatedFiles w F folderPath photoFiles)))
        as [| k ks IH]; simpl in *; [discriminate |].
      destruct (negb (w_insert_fault w k)) eqn:E; simpl in *.
      - destruct (IH Heqb3) as (k' & Hk' & E'). exists k'. auto.
      - exists k. auto. }
    destruct E as (k & Hk & E). apply List.in_seq in Hk.
    apply negb_false_iff in E. exists k. split; [lia | exact E].
Qed.

Lemma outcome_does_not_depend_on_store_witness :
  snd (scanAndProcessSession Samples.worldFaultySecondInsert "Event1"
         "/photos/Event1" Samples.event1Files Samples.dbDeletedEvent1)
  = Errored AtTransaction /\
  exists k, (1 <= k <= List.length (validatedFiles Samples.worldFaultySecondInsert
                          "Event1" "/photos/Event1" Samples.event1Files))%nat /\
            w_insert_fault Samples.worldFaultySecondInsert k = true.
Proof.
  split; [vm_compute; reflexivity |].
  apply (proj2 (proj2 (outcome_does_not_depend_on_store
                         Samples.worldFaultySecondInsert
                         "Event1" "/photos/Event1" Samples.event1Files
                         Samples.dbDeletedEvent1))).
  vm_compute. reflexivity.
Defined.

Section SweepFacts.
Variable watchFolder : string.
Variable reads : string -> FolderReads.

Lemma insertNewest_perm x l : Permutation (insertNewest x l) (x :: l).
Proof.
  induction l as [| y l IH]; simpl; [reflexivity |].
  destruct (birthtimeMs y <=? birthtimeMs x)%Z; [reflexivity |].
  rewrite IH. apply perm_swap.
Qed.

Lemma newestFirst_perm l : Permutation (newestFirst l) l.
Proof.
  induction l as [| x l IH]; simpl; [reflexivity |].
  rewrite insertNewest_perm. now constructor.
Qed.




Lemma sweepAlone_reconciled F db :
  is_reconciled (snd (sweepAlone watchFolder reads F db)) = sweepGates watchFolder reads F.
Proof.
  unfold sweepAlone, sweepFolder, sweepGates.
  destruct (isValid _); [| reflexivity]. cbn [negb andb].
  destruct (_ =? _)%nat; [| reflexivity]. cbn [negb].
  now destruct (scanAndProcessSession _ _ _ _ db) as [[? ?] ?].
Qed.

Lemma sweepAlone_closed F db :
  sweepGates watchFolder reads F = false ->
  fst (fst (sweepAlone watchFolder reads F db)) = db.
Proof.
  unfold sweepAlone, sweepFolder, sweepGates.
  destruct (isValid _); [| reflexivity]. cbn [negb andb].
  destruct (_ =? _)%nat; [discriminate | reflexivity].
Qed.

Lemma sweepAlone_frame F G db :
  G <> F ->
  selectSession G (fst (fst (sweepAlone watchFolder reads F db))) = selectSession G db /\
  photosOf G (fst (fst (sweepAlone watchFolder reads F db))) = photosOf G db.
Proof.
  intros Hne. unfold sweepAlone, sweepFolder.
  destruct (negb (isValid _)); [now split |].
  destruct (negb (_ =? _)%nat); [now split |].
  destruct (scanAndProcessSession _ _ _ _ db) as [[db' log] o] eqn:E.
  destruct (run_frame _ _ _ _ _ _ _ _ G E Hne) as (H1 & H2 & _).
  now split.
Qed.


(** One turn of the loop. *)
Lemma sweepLoop_cons f rest acc :
  exists acc',
    sweepLoop watchFolder reads (f :: rest) acc = sweepLoop watchFolder reads rest acc' /\
    sw_db acc' = fst (fst (sweepAlone watchFolder reads f (sw_db acc))) /\
    sw_trace acc'
    = (sw_trace acc ++ [(f, snd (sweepAlone watchFolder reads f (sw_db acc)))])%list /\
    processedCount acc'
    = (processedCount acc + if sweepGates watchFolder reads f then 1 else 0)%nat /\
    skippedCount acc'
    = (skippedCount acc + if sweepGates watchFolder reads f then 0 else 1)%nat.
Proof.
  rewrite <- (sweepAlone_reconciled f (sw_db acc)).
  cbn [sweepLoop]. unfold sweepAlone.
  destruct (sweepFolder _ _ _ _ _ _) as [[db' log] a].
  destruct a; eexists; (split; [reflexivity |]); cbn; repeat split; lia.
Qed.



(** Folders whose reads do not pass the gates of the sweep leave the
    store as it was for their name. *)
Lemma sweepLoop_untouched G : forall folders acc,
  (In G folders -> sweepGates watchFolder reads G = false) ->
  selectSession G (sw_db (sweepLoop watchFolder reads folders acc))
  = selectSession G (sw_db acc) /\
  photosOf G (sw_db (sweepLoop watchFolder reads folders acc))
  = photosOf G (sw_db acc).
Proof.
  induction folders as [| f rest IH]; intros acc HG; [now split |].
  destruct (sweepLoop_cons f rest acc) as (acc' & -> & Hdb & _).
  destruct (IH acc') as (IH1 & IH2); [intros Hin; apply HG; now right |].
  rewrite IH1, IH2, Hdb.
  destruct (String.eqb_spec G f) as [<- | Hne].
  - rewrite sweepAlone_closed; [now split | apply HG; now left].
  - now apply sweepAlone_frame.
Qed.



End SweepFacts.




(** X11 — the sweep changes the store only for folders it accepted.  A
    name keeps its session row and its photo rows through the whole sweep
    unless the watch root lists a directory of that name, not starting with
    a dot or an underscore, whose two reads agree on at least two media
    files: loose files, hidden folders, folders below the threshold and
    folders still filling up never gain or lose anything. *)
Theorem sweep_changes_only_accepted_folders watchFolder entries reads db G :
  (forall e, In e entries -> r_name e = G -> keepRootEntry e = true ->
             sweepGates watchFolder reads G = false) ->
  let r := scanExistingFolders watchFolder (Some entries) reads db in
  selectSession G (sw_db r) = selectSession G db /\
  photosOf G (sw_db r) = photosOf G db.
Proof.
  intros H r. unfold r, scanExistingFolders.
  apply (sweepLoop_untouched watchFolder reads G).
  intros Hin.
  apply (Permutation_in _ (Permutation_map r_name
           (newestFirst_perm (List.filter keepRootEntry entries)))) in Hin.
  apply in_map_iff in Hin. destruct Hin as (e & He & Hin).
  apply List.filter_In in Hin. destruct Hin as [Hin Hk]. eauto.
Qed.


Lemma sweep_changes_only_accepted_folders_witness :
  let r := scanExistingFolders "/photos" (Some SweepSamples.rootListing)
             SweepSamples.sweepReads Samples.dbDeletedEvent1 in
  selectSession "Event3" (sw_db r) = selectSession "Event3" Samples.dbDeletedEvent1 /\
  photosOf "Event3" (sw_db r) = photosOf "Event3" Samples.dbDeletedEvent1.
Proof.
  apply (sweep_changes_only_accepted_folders "/photos" SweepSamples.rootListing
           SweepSamples.sweepReads Samples.dbDeletedEvent1 "Event3").
  intros e _ _ _. vm_compute. reflexivity.
Defined.

(** * The session routes *)

Section RouteFacts.

Lemma find_self_mapped (g : Session -> Session) id ss :
  (forall s, session_uuid (g s) = session_uuid s) ->
  List.find (has_uuid id) (map (fun s => if has_uuid id s then g s else s) ss)
  = option_map g (List.find (has_uuid id) ss).
Proof.
  intros Hg. induction ss as [| s ss IH]; simpl; [reflexivity |].
  destruct (has_uuid id s) eqn:E.
  - unfold has_uuid in *. now rewrite Hg, E.
  - now rewrite E.
Qed.

Lemma insertLatest_perm x l : Permutation (insertLatest x l) (x :: l).
Proof.
  induction l as [| y l IH]; simpl; [reflexivity |].
  destruct (String.leb (created_at y) (created_at x)); [reflexivity |].
  rewrite IH. apply perm_swap.
Qed.

Lemma latestFirst_perm l : Permutation (latestFirst l) l.
Proof.
  induction l as [| x l IH]; simpl; [reflexivity |].
  rewrite insertLatest_perm. now constructor.
Qed.

Lemma insertLatest_sorted x l :
  Sorted (fun a b => String.leb (created_at b) (created_at a) = true) l ->
  Sorted (fun a b => String.leb (created_at b) (created_at a) = true)
         (insertLatest x l).
Proof.
  induction 1 as [| y l Hl IH Hy]; simpl.
  - repeat constructor.
  - destruct (String.leb (created_at y) (created_at x)) eqn:E.
    + constructor; [now constructor |]. now constructor.
    + constructor; [exact IH |].
      assert (Hyx : String.leb (created_at x) (created_at y) = true).
      { destruct (String.leb_total (created_at x) (created_at y)) as [H | H];
          [exact H | congruence]. }
      destruct l as [| z l]; simpl; [now constructor |].
      destruct (String.leb (created_at z) (created_at x)); constructor;
        [exact Hyx |].
      now inversion Hy.
Qed.

Lemma latestFirst_sorted l :
  Sorted (fun a b => String.leb (created_at b) (created_at a) = true)
         (latestFirst l).
Proof.
  induction l as [| x l IH]; simpl; [constructor |].
  now apply insertLatest_sorted.
Qed.

Lemma Sorted_firstn {A : Type} (R : A -> A -> Prop) n : forall l,
  Sorted R l -> Sorted R (firstn n l).
Proof.
  induction n as [| n IH]; intros l H; [constructor |].
  destruct l as [| x l]; [constructor |]. simpl.
  inversion H as [| ? ? Hl Hx]; subst. constructor; [now apply IH |].
  destruct l as [| y l]; [destruct n; constructor |].
  destruct n; simpl; constructor. now inversion Hx.
Qed.

Lemma Sorted_map {A B : Type} (f : A -> B) (R : B -> B -> Prop) l :
  Sorted (fun a b => R (f a) (f b)) l -> Sorted R (map f l).
Proof.
  induction 1 as [| x l Hl IH Hx]; simpl; constructor; [exact IH |].
  destruct l; simpl; constructor. now inversion Hx.
Qed.

Lemma In_firstn {A : Type} (x : A) n : forall l, In x (firstn n l) -> In x l.
Proof.
  induction n as [| n IH]; intros [| y l]; simpl; try tauto.
  intros [H | H]; [now left | right; now apply IH].
Qed.

Lemma activeSessions_In db s n :
  In (s, n) (activeSessions db) ->
  In s (sessions db) /\ eligible db s = true /\ n = photoCount s db.
Proof.
  unfold activeSessions. intros H. apply In_firstn in H.
  apply in_map_iff in H. destruct H as (s' & E & H). injection E as <- <-.
  apply (Permutation_in _ (latestFirst_perm _)) in H.
  apply List.filter_In in H. unfold eligible. tauto.
Qed.

Lemma listedIds_eligible db id :
  In id (listedIds db) ->
  exists s, In s (sessions db) /\ session_uuid s = id /\ eligible db s = true.
Proof.
  unfold listedIds. intros H. apply in_map_iff in H.
  destruct H as ([s n] & <- & H). apply activeSessions_In in H.
  exists s. tauto.
Qed.

(** Sorting commutes with a change of rows that keeps [created_at]. *)
Lemma latestFirst_map (g : Session -> Session) l :
  (forall s, created_at (g s) = created_at s) ->
  latestFirst (map g l) = map g (latestFirst l).
Proof.
  intros Hg. induction l as [| x l IH]; simpl; [reflexivity |].
  rewrite IH. clear IH. induction (latestFirst l) as [| y r IHr]; simpl;
    [reflexivity |].
  rewrite !Hg. destruct (String.leb (created_at y) (created_at x)); simpl;
    [reflexivity | now rewrite IHr].
Qed.

End RouteFacts.

(** X12 — what the session list shows.  [GET /active] answers with at
    most 100 rows; every row is a session of the store that is not deleted
    and has at least two photo rows, with their number as its count; the
    rows come latest first; and when the store holds at most 100 sessions,
    every such session is in the answer. *)
Theorem active_listing_shows_live_sessions_with_two_photos db :
  (List.length (activeSessions db) <= 100)%nat /\
  (forall s n, In (s, n) (activeSessions db) ->
     In s (sessions db) /\ status s <> deleted /\
     n = List.length (photosOf (session_uuid s) db) /\ (2 <= n)%nat) /\
  Sorted notOlder (activeSessions db) /\
  ((List.length (sessions db) <= 100)%nat ->
   forall s, In s (sessions db) -> status s <> deleted ->
     (2 <= List.length (photosOf (session_uuid s) db))%nat ->
     In (s, List.length (photosOf (session_uuid s) db)) (activeSessions db)).
Proof.
  split; [| split; [| split]].
  - unfold activeSessions. rewrite length_firstn. lia.
  - intros s n H. apply activeSessions_In in H. destruct H as (Hin & He & ->).
    unfold eligible in He. apply andb_true_iff in He. destruct He as [Hs Hc].
    apply Nat.leb_le in Hc. unfold MIN_PHOTOS in Hc.
    repeat split; try assumption.
    unfold listedStatus in Hs. destruct (status s); congruence.
  - unfold activeSessions, notOlder. apply Sorted_firstn, Sorted_map. simpl.
    apply latestFirst_sorted.
  - intros Hlen s Hin Hst Hc. unfold activeSessions.
    rewrite firstn_all2.
    + apply in_map_iff. exists s. split; [reflexivity |].
      apply (Permutation_in _ (Permutation_sym (latestFirst_perm _))).
      apply List.filter_In. split; [exact Hin |].
      apply andb_true_iff. split.
      * unfold listedStatus. destruct (status s); congruence.
      * apply Nat.leb_le. exact Hc.
    + rewrite length_map, (Permutation_length (latestFirst_perm _)).
      etransitivity; [apply List.filter_length_le | exact Hlen].
Qed.

(** X13 — deleting a session.  When [DELETE /:sessionId] fails or finds
    no session, the store is as before and nothing was removed.  When it
    succeeds, the session row is kept with status deleted and the deletion
    time, every other session row and every photo row, also the deleted
    session's, is as before, and the session is no longer in the session
    list; the answer reports the original folder as not deleted exactly
    when it exists and could not be removed. *)
Theorem delete_is_soft_and_touches_one_session fs watchFolder sessionId now db
    db' removed resp :
  deleteSession fs watchFolder sessionId now db = (db', removed, resp) ->
  photos db' = photos db /\
  (forall G, G <> sessionId -> selectSession G db' = selectSession G db) /\
  match resp with
  | SessionDeleted galleryDeleted originalDeleted _ =>
      (exists s, selectSession sessionId db = Some s /\
                 selectSession sessionId db' = Some (set_deleted now s)) /\
      ~ In sessionId (listedIds db') /\
      galleryDeleted = true /\
      (originalDeleted = false <->
       originalExists fs = true /\ originalRmOk fs = false)
  | _ => db' = db /\ removed = []
  end.
Proof.
  unfold deleteSession. intros H.
  destruct (selectSession sessionId db) as [s |] eqn:E.
  2:{ injection H as <- <- <-. repeat split; auto. }
  destruct (galleryExists fs && negb (galleryRmOk fs)).
  { injection H as <- <- <-. repeat split; auto. }
  injection H as <- <- <-. split; [reflexivity |]. split.
  - intros G HG. unfold selectSession, markDeleted. simpl.
    apply find_other_mapped; [congruence | reflexivity].
  - split; [| split; [| split]].
    + exists s. split; [reflexivity |].
      unfold selectSession, markDeleted in *. simpl.
      rewrite find_self_mapped by reflexivity. now rewrite E.
    + intros Hin. apply listedIds_eligible in Hin.
      destruct Hin as (s' & Hin & Hid & He).
      unfold markDeleted in Hin. simpl in Hin. apply in_map_iff in Hin.
      destruct Hin as (s0 & <- & _).
      unfold eligible in He. apply andb_true_iff in He. destruct He as [He _].
      destruct (has_uuid sessionId s0) eqn:E0; [discriminate |].
      unfold has_uuid in E0. apply String.eqb_neq in E0. contradiction.
    + reflexivity.
    + destruct (originalExists fs), (originalRmOk fs); simpl; intuition congruence.
Qed.

(** X14 — a rescan follows the folder name, not the requested session.
    When the requested session's identifier differs from its folder name,
    [POST /:sessionId/scan-media] reconciles the session named after the
    folder: the requested session keeps its row and its photo rows, and
    the answer still says that the scan completed, with the old number of
    rows. *)
Theorem rescan_of_renamed_session_leaves_it_unchanged w watchFolder sessionId node db
    s db' log resp :
  selectSession sessionId db = Some s ->
  folder_name s <> sessionId ->
  scanMedia w watchFolder sessionId node db = (db', log, resp) ->
  selectSession sessionId db' = Some s /\
  photosOf sessionId db' = photosOf sessionId db /\
  forall items, node = Directory items ->
    resp = ScanCompleted sessionId (folder_name s)
             (List.length (manualListing (map d_name items)))
             (List.length (photosOf sessionId db)).
Proof.
  intros Hs Hne H. unfold scanMedia in H. rewrite Hs in H.
  destruct node as [| | | items];
    try (injection H as <- <- <-; repeat split; [exact Hs | discriminate]).
  destruct (scanAndProcessSession _ _ _ _ db) as [[db1 log1] o] eqn:E.
  injection H as <- <- <-.
  destruct (run_frame _ _ _ _ _ _ _ _ sessionId E) as (H1 & H2 & _);
    [congruence |].
  rewrite H1, H2. repeat split; [exact Hs |].
  intros items' Heq. injection Heq as <-. reflexivity.
Qed.

(** X15 — a session with a single photo is kept but not listed.  When
    a run completes with fewer than two rows, the session row is in the
    store, and [GET /active] does not show it.  The row is active, unless
    it existed before the run and the UPDATE that re-activates it threw:
    then it is the row from before the run, whatever its status was. *)
Theorem session_with_one_photo_is_active_but_hidden w F folderPath photoFiles db
    db' log sid N :
  scanAndProcessSession w F folderPath photoFiles db = (db', log, Completed sid N) ->
  (N < 2)%nat ->
  (exists s, selectSession F db' = Some s /\
     (status s = active \/
      (w_session_fault w = true /\ selectSession F db = Some s))) /\
  ~ In F (listedIds db').
Proof.
  intros H HN. split.
  - exists (rowAfter w F db).
    split; [apply (completed_row _ _ _ _ _ _ _ _ _ H) | apply rowAfter_cases].
  - intros Hin. apply listedIds_eligible in Hin.
    destruct Hin as (s & _ & Hid & He).
    unfold eligible, photoCount in He. apply andb_true_iff in He.
    destruct He as [_ He]. apply Nat.leb_le in He. unfold MIN_PHOTOS in He.
    destruct (completed_rows _ _ _ _ _ _ _ _ _ H) as (_ & _ & _ & Hn).
    rewrite Hid in He. rewrite <- (length_map photo_number), Hn, length_seq in He.
    lia.
Qed.

(** X16 — changing the visibility.  [PATCH /:sessionId/visibility]
    refuses every value but 0 and 1 and every unknown session without
    touching the store; otherwise it changes the flag of that session and
    nothing else: the other fields of its row, the other sessions, the
    photo rows and the session list (which shows private sessions too) are
    as before. *)
Theorem visibility_changes_only_the_flag sessionId v db db' resp :
  setVisibility sessionId v db = (db', resp) ->
  photos db' = photos db /\
  (forall G, G <> sessionId -> selectSession G db' = selectSession G db) /\
  map (fun r => (session_uuid (fst r), snd r)) (activeSessions db')
  = map (fun r => (session_uuid (fst r), snd r)) (activeSessions db) /\
  match resp with
  | VisibilityUpdated v' =>
      v' = v /\ (v = 0 \/ v = 1)%Z /\
      exists s, selectSession sessionId db = Some s /\
                selectSession sessionId db' = Some (set_public (v =? 1)%Z s)
  | _ => db' = db
  end.
Proof.
  unfold setVisibility. intros H.
  destruct (negb (v =? 0)%Z && negb (v =? 1)%Z) eqn:Ev.
  { injection H as <- <-. repeat split; auto. }
  destruct (negb (existsb (has_uuid sessionId) (sessions db))) eqn:Ex.
  { injection H as <- <-. repeat split; auto. }
  injection H as <- <-. split; [reflexivity |]. split; [| split].
  - intros G HG. unfold selectSession. simpl.
    apply find_other_mapped; [congruence | reflexivity].
  - unfold activeSessions. cbn [sessions].
    set (g := fun s => if has_uuid sessionId s
                       then set_public (v =? 1)%Z s else s).
    assert (Hu : forall s, session_uuid (g s) = session_uuid s)
      by (intros s; unfold g; now destruct (has_uuid sessionId s)).
    assert (Hc : forall s, created_at (g s) = created_at s)
      by (intros s; unfold g; now destruct (has_uuid sessionId s)).
    assert (He : forall s, listedStatus (g s) = listedStatus s)
      by (intros s; unfold g; now destruct (has_uuid sessionId s)).
    set (db1 := {| sessions := map g (sessions db); photos := photos db |}).
    assert (Hp : forall s, photoCount (g s) db1 = photoCount s db)
      by (intros s; unfold photoCount, photosOf; now rewrite Hu).
    clearbody db1.
    assert (Hf : forall l,
                 List.filter (fun s => listedStatus s
                                && (MIN_PHOTOS <=? photoCount s db1)%nat)
                   (map g l)
                 = map g (List.filter (fun s => listedStatus s
                                && (MIN_PHOTOS <=? photoCount s db)%nat) l)).
    { induction l as [| s l IH]; [reflexivity |].
      cbn [List.filter map]. rewrite He, Hp.
      destruct (listedStatus s && (MIN_PHOTOS <=? photoCount s db)%nat);
        cbn [map]; now rewrite IH. }
    rewrite Hf, (latestFirst_map g) by exact Hc.
    rewrite <- !firstn_map, !map_map.
    f_equal. apply map_ext. intros s. cbn [fst snd]. now rewrite Hu, Hp.
  - split; [reflexivity |]. split.
    + apply andb_false_iff in Ev. destruct Ev as [Ev | Ev];
        apply negb_false_iff, Z.eqb_eq in Ev; auto.
    + apply negb_false_iff in Ex. apply existsb_exists in Ex.
      destruct Ex as (s0 & Hin & Hs0).
      destruct (selectSession sessionId db) as [s |] eqn:E.
      * exists s. split; [reflexivity |]. unfold selectSession in *. simpl.
        rewrite find_self_mapped by reflexivity. now rewrite E.
      * exfalso. unfold selectSession in E.
        apply (List.find_none _ _ E) in Hin. congruence.
Qed.

Lemma delete_is_soft_and_touches_one_session_witness :
  let id := session_uuid RouteSamples.legacySession in
  let r := deleteSession RouteSamples.lockedOriginal "/photos" id
             "2025-12-20T08:00:00.000Z" RouteSamples.legacyDb in
  snd r = SessionDeleted true false "/photos/Event1" /\
  photos (fst (fst r)) = photos RouteSamples.legacyDb.
Proof.
  intros id r. split; [vm_compute; reflexivity |].
  assert (E : deleteSession RouteSamples.lockedOriginal "/photos" id
                "2025-12-20T08:00:00.000Z" RouteSamples.legacyDb
              = (fst (fst r), snd (fst r), snd r))
    by (vm_compute; reflexivity).
  exact (proj1 (delete_is_soft_and_touches_one_session _ _ _ _ _ _ _ _ E)).
Defined.

Lemma rescan_of_renamed_session_leaves_it_unchanged_witness :
  let id := session_uuid RouteSamples.legacySession in
  let r := scanMedia Samples.worldSmallA "/photos" id Samples.event1
             RouteSamples.legacyDb in
  folder_name RouteSamples.legacySession <> id /\
  selectSession id (fst (fst r)) = Some RouteSamples.legacySession /\
  photosOf id (fst (fst r)) = photosOf id RouteSamples.legacyDb.
Proof.
  intros id r.
  assert (Hne : folder_name RouteSamples.legacySession <> id) by discriminate.
  split; [exact Hne |].
  assert (Hs : selectSession id RouteSamples.legacyDb = Some RouteSamples.legacySession)
    by (vm_compute; reflexivity).
  assert (E : scanMedia Samples.worldSmallA "/photos" id Samples.event1
                RouteSamples.legacyDb = (fst (fst r), snd (fst r), snd r))
    by (unfold r; now destruct (scanMedia _ _ _ _ _) as [[? ?] ?]).
  destruct (rescan_of_renamed_session_leaves_it_unchanged _ _ _ _ _ _ _ _ _ Hs Hne E)
    as (H1 & H2 & _).
  now split.
Defined.

Lemma session_with_one_photo_is_active_but_hidden_witness :
  let r := scanAndProcessSession RouteSamples.worldOnlyA "Event1" "/photos/Event1"
             Samples.event1Files Samples.emptyDb in
  snd r = Completed "Event1" 1 /\
  ~ In "Event1" (listedIds (fst (fst r))).
Proof.
  intros r.
  assert (E : scanAndProcessSession RouteSamples.worldOnlyA "Event1" "/photos/Event1"
                Samples.event1Files Samples.emptyDb
              = (fst (fst r), snd (fst r), Completed "Event1" 1))
    by (vm_compute; reflexivity).
  split; [vm_compute; reflexivity |].
  apply (session_with_one_photo_is_active_but_hidden _ _ _ _ _ _ _ _ _ E). lia.
Defined.

Lemma visibility_changes_only_the_flag_witness :
  let id := session_uuid RouteSamples.legacySession in
  let r := setVisibility id 0 RouteSamples.legacyDb in
  photos (fst r) = photos RouteSamples.legacyDb /\
  map (fun r => (session_uuid (fst r), snd r)) (activeSessions (fst r))
  = [(id, 2%nat)].
Proof.
  intros id r.
  assert (E : setVisibility id 0 RouteSamples.legacyDb = (fst r, snd r))
    by (unfold r; now destruct (setVisibility _ _ _)).
  destruct (visibility_changes_only_the_flag _ _ _ _ _ E) as (H1 & _ & H3 & _).
  split; [exact H1 |]. rewrite H3. vm_compute. reflexivity.
Defined.

(** * Timers of the event loop *)

Section TimerFacts.

Lemma clearTimeout_In id t ts : In t (clearTimeout id ts) -> In t ts.
Proof. unfold clearTimeout. intros H. now apply List.filter_In in H. Qed.

(** What one step does to the armed timers, the identifiers and the
    clock. *)
Lemma step_armed l s s' :
  step l s = Some s' ->
  (nextId s <= nextId s')%nat /\ clock s <= clock s' /\
  forall t, In t (armed s') ->
    In t (armed s) \/
    (t_id t = nextId s /\ (nextId s < nextId s')%nat).
Proof.
  destruct l as [dt | parts isFile quick | id node | id recheck | id | f | f];
    simpl; intros E.
  - destruct (Z.leb_spec 0 dt); [| discriminate]. injection E as <-. simpl.
    repeat split; auto; lia.
  - injection E as <-. unfold onWatchEvent.
    destruct (List.length parts <? 2)%nat; [repeat split; auto; lia |].
    destruct (negb isFile); [repeat split; auto; lia |].
    destruct (_ && _); [| repeat split; auto; lia].
    simpl. repeat split; try lia.
    intros t Hin. apply in_app_or in Hin. destruct Hin as [Hin | [<- | []]].
    + left. destruct (_ !! _); [now apply clearTimeout_In in Hin | exact Hin].
    + right. simpl. lia.
  - destruct (List.find _ (armed s)) as [t0 |]; [| discriminate].
    destruct (t_deadline t0 <=? clock s); [| discriminate].
    injection E as <-. unfold timerFires.
    destruct (_ <? _)%nat; simpl; repeat split; try lia;
      intros t Hin; left; now apply clearTimeout_In in Hin.
  - destruct (List.find _ (jobs s)) as [j |]; [| discriminate].
    destruct (j_phase j) as [expected resumeAt |]; [| discriminate].
    destruct (resumeAt <=? clock s); [| discriminate].
    injection E as <-. unfold settled.
    destruct (negb _); simpl; repeat split; auto; lia.
  - destruct (List.find _ (jobs s)) as [j |]; [| discriminate].
    destruct (j_phase j); [discriminate |].
    injection E as <-. unfold reconcileEnds.
    destruct (j_origin j); simpl; repeat split; auto; lia.
  - injection E as <-. simpl. repeat split; auto; lia.
  - injection E as <-. simpl. repeat split; auto; lia.
Qed.

(** No armed timer carries an identifier that is still to be given out. *)
Lemma fresh_run ls : forall s s',
  (forall t, In t (armed s) -> (t_id t < nextId s)%nat) ->
  run ls s = Some s' ->
  forall t, In t (armed s') -> (t_id t < nextId s')%nat.
Proof.
  induction ls as [| l ls IH]; simpl; intros s s' Hf H.
  - now injection H as <-.
  - destruct (step l s) as [s1 |] eqn:E; [| discriminate].
    apply (IH s1 s'); [| exact H].
    destruct (step_armed _ _ _ E) as (Hn & _ & Ha).
    intros t Hin. destruct (Ha t Hin) as [Hold | [Hid Hlt]].
    + specialize (Hf t Hold). lia.
    + lia.
Qed.

(** Once given out, an identifier names the same timer for good. *)
Lemma timer_kept t0 ls : forall s s',
  (t_id t0 < nextId s)%nat ->
  (forall t, In t (armed s) -> t_id t = t_id t0 -> t = t0) ->
  run ls s = Some s' ->
  clock s <= clock s' /\
  forall t, In t (armed s') -> t_id t = t_id t0 -> t = t0.
Proof.
  induction ls as [| l ls IH]; simpl; intros s s' Hn Hk H.
  - injection H as <-. split; [lia | exact Hk].
  - destruct (step l s) as [s1 |] eqn:E; [| discriminate].
    destruct (step_armed _ _ _ E) as (Hle & Hc & Ha).
    destruct (IH s1 s') as (Hc' & Hk'); try assumption; [lia | | split; [lia | exact Hk']].
    intros t Hin Hid. destruct (Ha t Hin) as [Hold | [Hnew _]]; [auto | lia].
Qed.

End TimerFacts.

(** X17 — a media event in a session folder always sets a timer.  In
    every state the loop can reach, the set of paths being processed is
    empty, so the guard on it never drops an event: the watch callback of
    a media file inside a subfolder leaves a timer for its folder armed,
    due after the full debounce delay, records it in the timer table with
    the file count of the quick scan, and starts nothing yet. *)
Theorem media_event_always_arms_a_timer watchFolder ls s parts quick :
  run ls (initial watchFolder) = Some s ->
  (2 <= List.length parts)%nat ->
  includes SUPPORTED_MEDIA_TYPES (toLowerCase (extname (joinPath parts))) = true ->
  let s' := onWatchEvent parts true quick s in
  let folderPath := joinPath (WATCH_FOLDER s :: removelast parts) in
  processingQueue s = ∅ /\ processingQueue s' = ∅ /\
  In {| t_id := nextId s; t_deadline := clock s + FOLDER_DEBOUNCE_DELAY;
        t_folder := folderOf parts; t_folderPath := folderPath |} (armed s') /\
  folderProcessingTimers s' !! folderOf parts
  = Some {| timer := nextId s;
            fileCount := totalFiles (scanFolderTree folderPath quick);
            startTime := clock s |} /\
  jobs s' = jobs s /\ attempts s' = attempts s.
Proof.
  intros Hrun Hparts Hmedia s' folderPath.
  assert (Hq : processingQueue s = ∅)
    by (eapply processingQueue_always_empty; [| exact Hrun]; reflexivity).
  unfold s'. rewrite (onWatchEvent_media parts quick Hparts Hmedia s Hq).
  unfold processPhotoSession. simpl. repeat split; try assumption.
  - apply in_or_app. right. now left.
  - apply lookup_insert_eq.
Qed.

(** X18 — a debounce callback waits out the full delay.  The timer set
    by a media event can fire, whatever happens in between, only when at
    least [FOLDER_DEBOUNCE_DELAY] milliseconds have passed since that
    event; when it fires, the attempt is one for the folder of the
    event. *)
Theorem callback_waits_full_delay watchFolder ls1 s1 parts quick ls2 s3 node s4 :
  run ls1 (initial watchFolder) = Some s1 ->
  (2 <= List.length parts)%nat ->
  includes SUPPORTED_MEDIA_TYPES (toLowerCase (extname (joinPath parts))) = true ->
  run ls2 (onWatchEvent parts true quick s1) = Some s3 ->
  step (TimerFires (nextId s1) node) s3 = Some s4 ->
  clock s1 + FOLDER_DEBOUNCE_DELAY <= clock s3 /\
  attempts s4 = (attempts s3 ++ [(folderOf parts, clock s3)])%list.
Proof.
  intros Hrun1 Hparts Hmedia Hrun2 Hfire.
  assert (Hq : processingQueue s1 = ∅)
    by (eapply processingQueue_always_empty; [| exact Hrun1]; reflexivity).
  assert (Hfresh : forall t, In t (armed s1) -> (t_id t < nextId s1)%nat)
    by (eapply fresh_run; [| exact Hrun1]; intros t []).
  rewrite (onWatchEvent_media parts quick Hparts Hmedia s1 Hq) in Hrun2.
  set (t0 := {| t_id := nextId s1; t_deadline := clock s1 + FOLDER_DEBOUNCE_DELAY;
                t_folder := folderOf parts;
                t_folderPath := joinPath (WATCH_FOLDER s1 :: removelast parts) |}).
  destruct (timer_kept t0 ls2
              (processPhotoSession (folderOf parts)
                 (joinPath (WATCH_FOLDER s1 :: removelast parts)) quick s1) s3)
    as (Hc & Hk); [simpl; lia | | exact Hrun2 |].
  { simpl. intros t Hin Hid. apply in_app_or in Hin.
    destruct Hin as [Hin | [<- | []]]; [| reflexivity].
    assert (Hin' : In t (armed s1))
      by (destruct (_ !! _); [now apply clearTimeout_In in Hin | exact Hin]).
    specialize (Hfresh t Hin'). lia. }
  simpl in Hc, Hfire.
  destruct (List.find _ (armed s3)) as [t |] eqn:Ef; [| discriminate].
  destruct (List.find_some _ _ Ef) as [Hin Hid]. apply Nat.eqb_eq in Hid.
  rewrite (Hk t Hin Hid) in Hfire. simpl in Hfire.
  destruct (Z.leb_spec (clock s1 + FOLDER_DEBOUNCE_DELAY) (clock s3));
    [| discriminate].
  split; [lia |]. injection Hfire as <-. unfold timerFires.
  now destruct (_ <? _)%nat.
Qed.

Lemma media_event_always_arms_a_timer_witness :
  let s := onWatchEvent ["Event1"; "a.jpg"] true Samples.twoFiles (initial "/photos") in
  map t_deadline (armed (onWatchEvent ["Event1"; "b.jpg"] true Samples.twoFiles s))
  = [5000] /\
  processingQueue s = ∅.
Proof.
  intros s. split; [vm_compute; reflexivity |].
  refine (proj1 (media_event_always_arms_a_timer "/photos"
            [FileEvent ["Event1"; "a.jpg"] true Samples.twoFiles] s
            ["Event1"; "b.jpg"] Samples.twoFiles _ _ _)).
  - reflexivity.
  - simpl. lia.
  - vm_compute. reflexivity.
Defined.

Lemma callback_waits_full_delay_witness :
  exists s3 s4,
    run [Advance 6200]
        (onWatchEvent ["Event1"; "a.jpg"] true Samples.twoFiles (initial "/photos"))
    = Some s3 /\
    step (TimerFires 0 Samples.twoFiles) s3 = Some s4 /\
    0 + FOLDER_DEBOUNCE_DELAY <= clock s3 /\
    attempts s4 = (attempts s3 ++ [("Event1", clock s3)])%list.
Proof.
  eexists. eexists.
  split; [vm_compute; reflexivity |].
  split; [vm_compute; reflexivity |].
  refine (callback_waits_full_delay "/photos" [] (initial "/photos")
            ["Event1"; "a.jpg"] Samples.twoFiles [Advance 6200] _
            Samples.twoFiles _ _ _ _ _ _).
  - reflexivity.
  - simpl. lia.
  - vm_compute. reflexivity.
  - vm_compute. reflexivity.
  - vm_compute. reflexivity.
Defined.

(** X19 — a burst on a folder that is left alone is coalesced.  In any
    state reached by an interleaving that handles no watch event of a
    folder while one of its callbacks runs, watch events for one media
    file arriving less than [FOLDER_DEBOUNCE_DELAY] apart let no timer of
    the folder come due while they last, invoke no callback, and leave
    exactly one armed timer for the folder, due the full delay after the
    last event. *)
Theorem burst_on_idle_folder_leaves_one_timer watchFolder ls s parts quick gaps :
  runSerialised ls (initial watchFolder) = Some s ->
  (2 <= List.length parts)%nat ->
  includes SUPPORTED_MEDIA_TYPES (toLowerCase (extname (joinPath parts))) = true ->
  Forall (fun g => 0 <= g < FOLDER_DEBOUNCE_DELAY) gaps ->
  exists s',
    runUndue (folderOf parts) (burst parts quick gaps) s = Some s' /\
    map t_deadline (armedFor (folderOf parts) s')
    = [clock s + fold_right Z.add 0 gaps + FOLDER_DEBOUNCE_DELAY] /\
    attempts s' = attempts s.
Proof. apply serialised_burst_coalesces. Qed.

Lemma burst_on_idle_folder_leaves_one_timer_witness :
  exists s',
    runUndue "Event1" (burst ["Event1"; "a.jpg"] Samples.twoFiles [1200; 4900])
             (initial "/photos") = Some s' /\
    map t_deadline (armedFor "Event1" s') = [11100] /\
    attempts s' = [].
Proof.
  apply (burst_on_idle_folder_leaves_one_timer "/photos" [] (initial "/photos")
           ["Event1"; "a.jpg"] Samples.twoFiles [1200; 4900]).
  - reflexivity.
  - simpl. lia.
  - vm_compute. reflexivity.
  - unfold FOLDER_DEBOUNCE_DELAY. repeat constructor; lia.
Defined.

(** * The daily cleanup *)

Import Cleanup.

Section CleanupFacts.
Variable now : string.

Lemma set_deleted_idem (s : Session) :
  set_deleted now (set_deleted now s) = set_deleted now s.
Proof. reflexivity. Qed.

Lemma markedBy_app ids1 ids2 ss :
  markedBy now ids2 (markedBy now ids1 ss) = markedBy now (ids1 ++ ids2) ss.
Proof.
  unfold markedBy. rewrite map_map. apply map_ext. intros s.
  rewrite existsb_app.
  destruct (existsb (String.eqb (session_uuid s)) ids1); simpl;
    now destruct (existsb (String.eqb (session_uuid s)) ids2).
Qed.

Lemma markDeleted_markedBy id db :
  sessions (markDeleted id now db) = markedBy now [id] (sessions db).
Proof.
  unfold markDeleted, markedBy. simpl. apply map_ext. intros s.
  unfold has_uuid. now rewrite orb_false_r.
Qed.

Lemma markEach_spec found : forall db,
  sessions (markEach now found db)
  = markedBy now (map session_uuid found) (sessions db) /\
  photos (markEach now found db) = photos db.
Proof.
  induction found as [| s found IH]; intros db.
  - simpl. split; [| reflexivity]. unfold markedBy. simpl. now rewrite map_id.
  - cbn [markEach fold_left]. fold (markEach now found).
    destruct (IH (markDeleted (session_uuid s) now db)) as [H1 H2].
    unfold markEach in *. rewrite H1, H2, markDeleted_markedBy, markedBy_app.
    now split.
Qed.

Lemma markedBy_uuids ids ss :
  map session_uuid (markedBy now ids ss) = map session_uuid ss.
Proof.
  unfold markedBy. rewrite map_map. apply map_ext. intros s.
  now destruct (existsb _ ids).
Qed.

(** A row that is not deleted after the marking was not marked. *)
Lemma markedBy_live ids ss s :
  In s (markedBy now ids ss) -> status s <> deleted ->
  In s ss /\ existsb (String.eqb (session_uuid s)) ids = false.
Proof.
  unfold markedBy. intros Hin Hs. apply in_map_iff in Hin.
  destruct Hin as (s0 & E & Hin).
  destruct (existsb (String.eqb (session_uuid s0)) ids) eqn:Em.
  - subst s. simpl in Hs. congruence.
  - subst s0. now split.
Qed.

Lemma find_markedBy id ids ss :
  List.find (has_uuid id) (markedBy now ids ss)
  = option_map (fun s => if existsb (String.eqb id) ids
                         then set_deleted now s else s)
               (List.find (has_uuid id) ss).
Proof.
  unfold markedBy. induction ss as [| s ss IH]; simpl; [reflexivity |].
  assert (E : has_uuid id (if existsb (String.eqb (session_uuid s)) ids
                           then set_deleted now s else s) = has_uuid id s)
    by (destruct (existsb (String.eqb (session_uuid s)) ids); reflexivity).
  rewrite E. destruct (has_uuid id s) eqn:Eh; [| exact IH].
  simpl. apply has_uuid_eq in Eh. now rewrite Eh.
Qed.

Lemma not_marked_not_found (p : Session -> bool) ss s :
  In s ss ->
  existsb (String.eqb (session_uuid s)) (map session_uuid (List.filter p ss)) = false ->
  p s = false.
Proof.
  intros Hin Hm. destruct (p s) eqn:E; [| reflexivity].
  rewrite <- Hm. symmetry. apply existsb_exists. exists (session_uuid s).
  split; [| apply String.eqb_refl].
  apply in_map. apply List.filter_In. now split.
Qed.

Lemma insertOldest_perm x l : Permutation (insertOldest x l) (x :: l).
Proof.
  induction l as [| y l IH]; simpl; [reflexivity |].
  destruct (String.leb (created_at x) (created_at y)); [reflexivity |].
  rewrite IH. apply perm_swap.
Qed.

Lemma oldestFirst_perm l : Permutation (oldestFirst l) l.
Proof.
  induction l as [| x l IH]; simpl; [reflexivity |].
  rewrite insertOldest_perm. now constructor.
Qed.

End CleanupFacts.

Section AgeLoopFacts.
Variable e : CleanupEnv.
Variable watchFolder : string.

(** The third pass marks sessions of its list that have expired, all of
    them when it runs to its end, and changes nothing else of the store. *)
Lemma ageLoop_spec : forall todo acc,
  exists ids,
    sessions (cl_db (ageLoop e watchFolder todo acc))
    = markedBy (c_nowIso e) ids (sessions (cl_db acc)) /\
    photos (cl_db (ageLoop e watchFolder todo acc)) = photos (cl_db acc) /\
    (cl_finished (ageLoop e watchFolder todo acc) = true ->
     cl_finished acc = true /\
     (forall s, In s todo -> expired e s = true ->
        existsb (String.eqb (session_uuid s)) ids = true) /\
     (deletedCount (ageLoop e watchFolder todo acc)
      + keptCount (ageLoop e watchFolder todo acc)
      = deletedCount acc + keptCount acc + List.length todo)%nat).
Proof.
  induction todo as [| s todo IH]; intros acc.
  - exists []. simpl. unfold markedBy. simpl. rewrite map_id.
    repeat split; auto; try lia.
  - cbn [ageLoop]. destruct (expired e s) eqn:Ex.
    + destruct (existsNow e (cl_removed acc) _ && negb (c_rmOk e _)).
      { exists []. simpl. unfold markedBy. simpl. rewrite map_id.
        repeat split; discriminate. }
      match goal with
      | |- context [if ?c && negb ?d then _ else _] => destruct (c && negb d)
      end.
      { exists []. simpl. unfold markedBy. simpl. rewrite map_id.
        repeat split; discriminate. }
      match goal with
      | |- context [ageLoop e watchFolder todo ?a] =>
          destruct (IH a) as (ids & H1 & H2 & H3)
      end.
      exists (session_uuid s :: ids). cbn [cl_db cl_finished deletedCount keptCount] in *.
      rewrite H1, H2, markDeleted_markedBy, markedBy_app.
      split; [reflexivity |]. split; [reflexivity |].
      intros Hf. destruct (H3 Hf) as (Ha & Hb & Hc).
      split; [exact Ha |]. split; [| simpl; lia].
      intros s' [<- | Hin] Hx; simpl.
      * now rewrite String.eqb_refl.
      * rewrite (Hb s' Hin Hx). apply orb_true_r.
    + match goal with
      | |- context [ageLoop e watchFolder todo ?a] =>
          destruct (IH a) as (ids & H1 & H2 & H3)
      end.
      exists ids. cbn [cl_db cl_finished deletedCount keptCount] in *.
      split; [exact H1 |]. split; [exact H2 |].
      intros Hf. destruct (H3 Hf) as (Ha & Hb & Hc).
      split; [exact Ha |]. split; [| simpl; lia].
      intros s' [<- | Hin] Hx; [congruence | auto].
Qed.

Lemma ageLoop_none : forall todo acc,
  (forall s, In s todo -> expired e s = false) ->
  ageLoop e watchFolder todo acc
  = {| cl_db := cl_db acc; cl_removed := cl_removed acc;
       deletedCount := deletedCount acc;
       keptCount := (keptCount acc + List.length todo)%nat;
       cl_finished := cl_finished acc |}.
Proof.
  induction todo as [| s todo IH]; intros acc H.
  - simpl. rewrite Nat.add_0_r. now destruct acc.
  - cbn [ageLoop]. rewrite (H s) by now left.
    rewrite IH by (intros s' Hs'; apply H; now right).
    simpl. f_equal. lia.
Qed.

(** The store after a cleanup, read off the store before it. *)
Lemma runCleanup_spec db :
  let r := runCleanup e watchFolder db in
  photos (cl_db r) = photos db /\
  (exists ids, sessions (cl_db r) = markedBy (c_nowIso e) ids (sessions db)) /\
  forall s, In s (sessions (cl_db r)) -> status s <> deleted ->
    In s (sessions db) /\ (2 <= photoCount s db)%nat /\
    (cl_finished r = true -> expired e s = false).
Proof.
  intros r. unfold r, runCleanup.
  set (db1 := markEach (c_nowIso e) (orphanSessions db) db).
  set (db2 := markEach (c_nowIso e) (singleFileSessions db1) db1).
  destruct (markEach_spec (c_nowIso e) (orphanSessions db) db) as [S1 P1].
  destruct (markEach_spec (c_nowIso e) (singleFileSessions db1) db1) as [S2 P2].
  fold db1 in S1, P1. fold db2 in S2, P2.
  match goal with
  | |- context [ageLoop e watchFolder ?t ?a] =>
      destruct (ageLoop_spec t a) as (ids3 & S3 & P3 & F3);
      set (res := ageLoop e watchFolder t a) in *
  end.
  cbn [cl_db cl_finished] in S3, P3, F3.
  split; [now rewrite P3, P2, P1 |]. split.
  { eexists. rewrite S3, S2, S1, !markedBy_app. reflexivity. }
  intros s Hin Hs.
  rewrite S3 in Hin. destruct (markedBy_live _ _ _ _ Hin Hs) as [Hin2 Hm3].
  pose proof Hin2 as Hin2'.
  rewrite S2 in Hin2. destruct (markedBy_live _ _ _ _ Hin2 Hs) as [Hin1 Hm2].
  pose proof Hin1 as Hin1'.
  rewrite S1 in Hin1. destruct (markedBy_live _ _ _ _ Hin1 Hs) as [Hin0 Hm1].
  assert (Hl : listedStatus s = true)
    by (unfold listedStatus; destruct (status s); congruence).
  split; [exact Hin0 |].
  apply (not_marked_not_found _ _ _ Hin0) in Hm1.
  apply (not_marked_not_found _ _ _ Hin1') in Hm2.
  cbv beta in Hm1, Hm2. rewrite Hl in Hm1, Hm2. simpl in Hm1, Hm2.
  assert (Hc : photoCount s db1 = photoCount s db)
    by (unfold photoCount, photosOf; now rewrite P1).
  rewrite Hc in Hm2. apply Nat.eqb_neq in Hm1.
  split.
  - destruct (Nat.ltb_spec 0 (photoCount s db)); [| lia].
    simpl in Hm2. apply Nat.ltb_ge in Hm2. exact Hm2.
  - intros Hf. destruct (F3 Hf) as (_ & Hall & _).
    destruct (expired e s) eqn:Ex; [| reflexivity].
    rewrite Hall in Hm3; [discriminate | | exact Ex].
    apply (Permutation_in _ (Permutation_sym (oldestFirst_perm _))).
    apply List.filter_In. now split.
Qed.

End AgeLoopFacts.

(** X20 — what the cleanup leaves.  Whether or not a folder removal
    stops it half-way, [runCleanup] deletes no row: the photo rows and the
    session identifiers are as before, and a session is changed only by
    being marked deleted.  Every session that is not deleted afterwards is
    an unchanged row with at least two photo rows, so the session list then
    shows every live session; and when the cleanup ran to its end, none of
    the live sessions is older than the cutoff. *)
Theorem cleanup_leaves_live_sessions_with_two_photos e watchFolder db :
  let r := runCleanup e watchFolder db in
  photos (cl_db r) = photos db /\
  map session_uuid (sessions (cl_db r)) = map session_uuid (sessions db) /\
  (forall s, In s (sessions (cl_db r)) -> status s <> deleted ->
     In s (sessions db) /\ (2 <= photoCount s (cl_db r))%nat /\
     eligible (cl_db r) s = true /\
     (cl_finished r = true -> expired e s = false)).
Proof.
  intros r. destruct (runCleanup_spec e watchFolder db) as (Hp & (ids & Hs) & Hl).
  fold r in Hp, Hs, Hl.
  split; [exact Hp |]. split; [rewrite Hs; apply markedBy_uuids |].
  intros s Hin Hst. destruct (Hl s Hin Hst) as (H1 & H2 & H3).
  assert (Hc : photoCount s (cl_db r) = photoCount s db)
    by (unfold photoCount, photosOf; now rewrite Hp).
  rewrite Hc. repeat split; try assumption.
  unfold eligible. rewrite Hc. apply andb_true_iff. split.
  - unfold listedStatus. destruct (status s); congruence.
  - apply Nat.leb_le. exact H2.
Qed.

(** X21 — a cleanup that ran to its end has nothing left to do.  Run
    again at the same time on the store it left, [runCleanup] changes
    nothing, removes no folder and deletes no session. *)
Theorem cleanup_twice_changes_nothing e watchFolder db :
  cl_finished (runCleanup e watchFolder db) = true ->
  let r := runCleanup e watchFolder db in
  let again := runCleanup e watchFolder (cl_db r) in
  cl_db again = cl_db r /\ cl_removed again = [] /\
  deletedCount again = 0%nat /\ cl_finished again = true.
Proof.
  intros Hf r again.
  destruct (runCleanup_spec e watchFolder db) as (Hp & _ & Hl). fold r in Hp, Hl.
  assert (Hcount : forall s, photoCount s (cl_db r) = photoCount s db)
    by (intros s; unfold photoCount, photosOf; now rewrite Hp).
  assert (Hlive : forall s, In s (sessions (cl_db r)) -> listedStatus s = true ->
            (2 <= photoCount s (cl_db r))%nat /\ expired e s = false).
  { intros s Hin Hs.
    assert (Hst : status s <> deleted)
      by (unfold listedStatus in Hs; destruct (status s); congruence).
    destruct (Hl s Hin Hst) as (_ & H2 & H3). rewrite Hcount. auto. }
  assert (Ho : orphanSessions (cl_db r) = []).
  { unfold orphanSessions. apply filter_none. apply List.Forall_forall.
    intros s Hin. destruct (listedStatus s) eqn:Hs; [| reflexivity].
    destruct (Hlive s Hin Hs) as [H2 _]. simpl. apply Nat.eqb_neq. lia. }
  assert (Hsingle : singleFileSessions (cl_db r) = []).
  { unfold singleFileSessions. apply filter_none. apply List.Forall_forall.
    intros s Hin. destruct (listedStatus s) eqn:Hs; [| reflexivity].
    destruct (Hlive s Hin Hs) as [H2 _]. simpl.
    apply andb_false_iff. right. apply Nat.ltb_ge. exact H2. }
  assert (E : again = {| cl_db := cl_db r; cl_removed := []; deletedCount := 0;
                         keptCount := List.length (oldestFirst
                           (List.filter listedStatus (sessions (cl_db r))));
                         cl_finished := true |});
    [| now rewrite E].
  unfold again, runCleanup. rewrite Ho. cbn [markEach fold_left].
  rewrite Hsingle. cbn [markEach fold_left].
  rewrite ageLoop_none.
  - reflexivity.
  - intros s Hin.
    apply (Permutation_in _ (oldestFirst_perm _)) in Hin.
    apply List.filter_In in Hin. destruct Hin as [Hin Hs].
    now destruct (Hlive s Hin Hs).
Qed.

(** X22 — a session that completed with a single photo is deleted by the
    next cleanup.  When a reconciliation completes with fewer than two
    rows, the session row it leaves is active, unless it existed before
    and the UPDATE that re-activates it threw (then it is the row from
    before the run); and whenever that row is live, active or completed,
    any cleanup run on that store marks it deleted, with the time of the
    cleanup. *)
Theorem cleanup_deletes_session_with_one_photo w F folderPath photoFiles db db' log
    sid N e watchFolder :
  scanAndProcessSession w F folderPath photoFiles db = (db', log, Completed sid N) ->
  (N < 2)%nat ->
  exists s,
    selectSession F db' = Some s /\
    (status s = active \/
     (w_session_fault w = true /\ selectSession F db = Some s)) /\
    (listedStatus s = true ->
     selectSession F (cl_db (runCleanup e watchFolder db'))
     = Some (set_deleted (c_nowIso e) s)).
Proof.
  intros H HN.
  pose proof (completed_row _ _ _ _ _ _ _ _ _ H) as Hs.
  pose proof (rowAfter_uuid w F db) as Hid.
  pose proof (rowAfter_cases w F db) as Ha.
  set (s := rowAfter w F db) in *. clearbody s.
  exists s. split; [exact Hs |]. split; [exact Ha |]. clear Ha. intros Hl.
  destruct (completed_rows _ _ _ _ _ _ _ _ _ H) as (_ & _ & _ & Hn).
  assert (Hc : photoCount s db' = N).
  { unfold photoCount. rewrite Hid, <- (length_map photo_number), Hn.
    apply length_seq. }
  assert (Hin : In s (sessions db'))
    by (unfold selectSession in Hs; now apply List.find_some in Hs).
  unfold runCleanup.
  set (db1 := markEach (c_nowIso e) (orphanSessions db') db').
  set (db2 := markEach (c_nowIso e) (singleFileSessions db1) db1).
  destruct (markEach_spec (c_nowIso e) (orphanSessions db') db') as [S1 P1].
  destruct (markEach_spec (c_nowIso e) (singleFileSessions db1) db1) as [S2 P2].
  fold db1 in S1, P1. fold db2 in S2, P2.
  match goal with
  | |- context [ageLoop e watchFolder ?t ?a] =>
      destruct (ageLoop_spec e watchFolder t a) as (ids3 & S3 & _)
  end.
  cbn [cl_db] in S3. unfold selectSession in *.
  rewrite S3, S2, S1, !markedBy_app, find_markedBy, Hs. cbn [option_map]. f_equal.
  assert (Hor : In F (map session_uuid (orphanSessions db')) \/
                In F (map session_uuid (singleFileSessions db1))).
  { destruct (existsb (String.eqb (session_uuid s))
                (map session_uuid (orphanSessions db'))) eqn:E1.
    - left. apply existsb_exists in E1. destruct E1 as (x & Hx & Ex).
      apply String.eqb_eq in Ex. congruence.
    - right. pose proof (not_marked_not_found _ _ _ Hin E1) as Hno.
      cbv beta in Hno. rewrite Hl, Hc in Hno. simpl in Hno.
      apply Nat.eqb_neq in Hno.
      assert (Hin1 : In s (sessions db1)).
      { rewrite S1. unfold markedBy. apply in_map_iff. exists s.
        split; [now rewrite E1 | exact Hin]. }
      rewrite <- Hid. apply in_map. apply List.filter_In.
      split; [exact Hin1 |].
      assert (Hc1 : photoCount s db1 = N)
        by (unfold photoCount, photosOf in *; now rewrite P1).
      rewrite Hl, Hc1. simpl. apply andb_true_iff. split.
      + apply Nat.ltb_lt. lia.
      + apply Nat.ltb_lt. unfold Cleanup.MIN_PHOTOS. lia. }
  match goal with
  | |- (if existsb ?f ?l then _ else _) = _ =>
      assert (Hm : existsb f l = true); [| now rewrite Hm]
  end.
  apply existsb_exists. exists F. split; [| apply String.eqb_refl].
  rewrite !in_app_iff. tauto.
Qed.

Lemma cleanup_twice_changes_nothing_witness :
  let r := runCleanup CleanupSamples.december21 "/photos" RouteSamples.legacyDb in
  map status (sessions (cl_db r)) = [deleted] /\
  cl_removed r = ["public/gallery/6f1c2a9e-52b1-4c1d-9a57-0d7f3b1e8a44";
                  "/photos/Event1"] /\
  cl_db (runCleanup CleanupSamples.december21 "/photos" (cl_db r)) = cl_db r.
Proof.
  intros r. split; [vm_compute; reflexivity |]. split; [vm_compute; reflexivity |].
  refine (proj1 (cleanup_twice_changes_nothing CleanupSamples.december21 "/photos"
                   RouteSamples.legacyDb _)).
  vm_compute. reflexivity.
Defined.

Lemma cleanup_deletes_session_with_one_photo_witness :
  let r := scanAndProcessSession RouteSamples.worldOnlyA "Event1" "/photos/Event1"
             Samples.event1Files Samples.emptyDb in
  exists s,
    selectSession "Event1" (fst (fst r)) = Some s /\ status s = active /\
    selectSession "Event1"
      (cl_db (runCleanup CleanupSamples.december21 "/photos" (fst (fst r))))
    = Some (set_deleted (c_nowIso CleanupSamples.december21) s).
Proof.
  intros r.
  assert (E : scanAndProcessSession RouteSamples.worldOnlyA "Event1" "/photos/Event1"
                Samples.event1Files Samples.emptyDb
              = (fst (fst r), snd (fst r), Completed "Event1" 1))
    by (vm_compute; reflexivity).
  destruct (cleanup_deletes_session_with_one_photo _ _ _ _ _ _ _ _ _
              CleanupSamples.december21 "/photos" E) as (s & Hs & Ha & Hc);
    [lia |].
  assert (Hact : status s = active).
  { destruct Ha as [Ha | [Hf _]]; [exact Ha | discriminate Hf]. }
  exists s. split; [exact Hs |]. split; [exact Hact |].
  refine (Hc _). unfold listedStatus. rewrite Hact. reflexivity.
Defined.

(** * The watched folder *)

(** X23 — when the watcher and the routes use the same folder.  After
    start-up, and after every accepted update of the setting to a path
    while the settings row exists, the folder the watcher watches is the
    folder [getWatchFolder] gives the routes, provided that folder exists
    or can be created.  Clearing the setting is different: the routes go
    back to the environment variable or the default, while the watcher
    stays on the folder it had. *)
Theorem watcher_and_routes_use_the_same_folder fs env :
  (forall row,
     Config.usable fs (Config.routesFolder env (Config.boot fs env row)) = true ->
     Config.WATCH_FOLDER (Config.boot fs env row)
     = Config.routesFolder env (Config.boot fs env row)) /\
  (forall st p,
     Config.settingsRow st <> None -> p <> "" -> Config.isAbsolute p = true ->
     Config.usable fs p = true ->
     let st' := fst (Config.putSettings fs env (Config.Text p) st) in
     Config.WATCH_FOLDER st' = p /\ Config.routesFolder env st' = p) /\
  (forall st v,
     v = Config.Null \/ v = Config.Text "" ->
     let st' := fst (Config.putSettings fs env v st) in
     Config.WATCH_FOLDER st' = Config.WATCH_FOLDER st /\
     Config.routesFolder env st' = Config.envOrDefault env).
Proof.
  split; [| split].
  - intros row Hu. unfold Config.boot, Config.routesFolder in *.
    unfold Config.readSettings in *. cbn [Config.settingsRow Config.WATCH_FOLDER] in *.
    unfold Config.startWatcher, Config.usable in *.
    destruct row as [[p |] |]; cbn in *.
    + destruct (String.eqb p ""); cbn in *;
        destruct (Config.f_exists fs _); try reflexivity;
        cbn in Hu; now rewrite Hu.
    + destruct (Config.f_exists fs _); [reflexivity |]. cbn in Hu. now rewrite Hu.
    + destruct (Config.f_exists fs _); [reflexivity |]. cbn in Hu. now rewrite Hu.
  - intros st p Hrow Hp Habs Hu st'. unfold st', Config.putSettings.
    apply String.eqb_neq in Hp. cbn [Config.truthy]. rewrite Hp, Habs.
    cbn [negb fst Config.WATCH_FOLDER]. split.
    + unfold Config.startWatcher, Config.usable in *.
      destruct (Config.f_exists fs p); [reflexivity |]. cbn in Hu. now rewrite Hu.
    + unfold Config.routesFolder, Config.readSettings. cbn [Config.settingsRow].
      destruct (Config.settingsRow st); [| contradiction].
      cbn. now rewrite Hp.
  - intros st v [-> | ->] st'; unfold st', Config.putSettings; cbn;
      (split; [reflexivity |]);
      unfold Config.routesFolder, Config.readSettings; cbn;
      now destruct (Config.settingsRow st).
Qed.

(** * Numbered gallery files *)

Section AlignmentFacts.
Variable w : World.
Variables fp gp : string.











End AlignmentFacts.




(** * Extensions of joined paths *)

Section JoinFacts.

Lemma chars_app a b :
  list_ascii_of_string (a ++ b)
  = (list_ascii_of_string a ++ list_ascii_of_string b)%list.
Proof.
  induction a as [| c a IH]; [reflexivity |].
  change (String c a ++ b)%string with (String c (a ++ b)).
  simpl. now rewrite IH.
Qed.

Lemma chars_length a : List.length (list_ascii_of_string a) = String.length a.
Proof. induction a as [| c a IH]; simpl; [reflexivity | now rewrite IH]. Qed.

Lemma substring_skip a b k m :
  String.substring (String.length a + k) m (a ++ b) = String.substring k m b.
Proof.
  induction a as [| c a IH]; [reflexivity |].
  change (String c a ++ b)%string with (String c (a ++ b)).
  simpl. exact IH.
Qed.

(** Up to the first slash the scan does not look at what comes before. *)
Lemma extLoop_app l rest : forall i st,
  forallb (fun c => negb (Ascii.eqb c CHAR_FORWARD_SLASH)) l = true ->
  extLoop (l ++ rest) i st
  = extLoop rest (i - Z.of_nat (List.length l)) (extLoop l i st).
Proof.
  induction l as [| c l IH]; intros i st H.
  - simpl. now rewrite Z.sub_0_r.
  - cbn [forallb] in H. apply andb_true_iff in H. destruct H as [Hc Hl].
    apply negb_true_iff in Hc.
    cbn [app extLoop]. rewrite Hc. rewrite IH by exact Hl.
    f_equal. cbn [List.length]. lia.
Qed.

Lemma extLoop_step c l i st :
  Ascii.eqb c CHAR_FORWARD_SLASH = false ->
  extLoop (c :: l) i st = extLoop l (i - 1) (extStep i c st).
Proof. intros Hc. cbn [extLoop]. rewrite Hc. reflexivity. Qed.

Lemma eqb_minus_one x : x = -1 \/ (x =? -1) = false.
Proof. destruct (Z.eqb_spec x (-1)); auto. Qed.

Lemma extStep_shift d i c st :
  0 <= d -> 0 <= i -> -1 <= startDot st -> -1 <= endIdx st ->
  extStep (i + d) c (shiftScan d st) = shiftScan d (extStep i c st).
Proof.
  intros Hd Hi Hsd He. destruct st as [sd sp e ms pd].
  cbn [startDot endIdx] in Hsd, He.
  assert (F1 : (i + 1 =? -1) = false) by (apply Z.eqb_neq; lia).
  assert (F2 : (i + d + 1 =? -1) = false) by (apply Z.eqb_neq; lia).
  assert (F3 : (i =? -1) = false) by (apply Z.eqb_neq; lia).
  assert (F4 : (i + d =? -1) = false) by (apply Z.eqb_neq; lia).
  assert (F5 : (i + 1 + d =? -1) = false) by (apply Z.eqb_neq; lia).
  assert (Fe : e = -1 \/ (e + d =? -1) = false)
    by (destruct (Z.eq_dec e (-1)); [now left | right; apply Z.eqb_neq; lia]).
  assert (Fs : sd = -1 \/ (sd + d =? -1) = false)
    by (destruct (Z.eq_dec sd (-1)); [now left | right; apply Z.eqb_neq; lia]).
  unfold extStep, shiftScan.
  destruct (eqb_minus_one e) as [-> | Ee]; [pose proof F1 as Ee; clear Fe;
                                             pose proof F1 as Fe
                                           | destruct Fe as [-> | Fe]; [discriminate Ee |]];
    (destruct (eqb_minus_one sd) as [-> | Es];
       [pose proof F1 as Es; clear Fs; pose proof F1 as Fs
       | destruct Fs as [-> | Fs]; [discriminate Es |]]);
    destruct (Ascii.eqb c CHAR_DOT); destruct (pd =? 1) eqn:Epd;
    do 6 (cbn [startDot endIdx startPart matchedSlash preDotState negb];
          rewrite ?Z.eqb_refl, ?F1, ?F2, ?F3, ?F4, ?F5, ?Fe, ?Fs, ?Ee, ?Es, ?Epd);
    try reflexivity; f_equal; lia.
Qed.

Lemma extStep_keeps i c st :
  0 <= i -> -1 <= startDot st -> -1 <= endIdx st ->
  -1 <= startDot (extStep i c st) /\ -1 <= endIdx (extStep i c st) /\
  startPart (extStep i c st) = startPart st /\
  matchedSlash (extStep i c st)
  = (if endIdx st =? -1 then false else matchedSlash st) /\
  endIdx (extStep i c st) <> -1.
Proof.
  intros Hi Hsd He. destruct st as [sd sp e ms pd].
  cbn [startDot endIdx] in Hsd, He.
  assert (F1 : (i + 1 =? -1) = false) by (apply Z.eqb_neq; lia).
  unfold extStep.
  destruct (eqb_minus_one e) as [-> | Ee]; [pose proof F1 as Ee |];
    (destruct (eqb_minus_one sd) as [-> | Es]; [pose proof F1 as Es |]);
    destruct (Ascii.eqb c CHAR_DOT); destruct (pd =? 1) eqn:Epd;
    do 6 (cbn [startDot endIdx startPart matchedSlash preDotState negb];
          rewrite ?Z.eqb_refl, ?Ee, ?Es, ?Epd);
    repeat split; try lia;
    match goal with
    | H : (e =? -1) = false |- _ => apply Z.eqb_neq in H; lia
    | _ => idtac
    end.
Qed.

Lemma extLoop_shift d l : forall i st,
  0 <= d ->
  forallb (fun c => negb (Ascii.eqb c CHAR_FORWARD_SLASH)) l = true ->
  Z.of_nat (List.length l) - 1 <= i ->
  -1 <= startDot st -> -1 <= endIdx st ->
  extLoop l (i + d) (shiftScan d st) = shiftScan d (extLoop l i st) /\
  -1 <= startDot (extLoop l i st) /\ -1 <= endIdx (extLoop l i st) /\
  startPart (extLoop l i st) = startPart st /\
  (matchedSlash st = false \/ (l <> [] /\ endIdx st = -1) ->
   matchedSlash (extLoop l i st) = false).
Proof.
  induction l as [| c l IH]; intros i st Hd H Hi Hsd He.
  - simpl. repeat split; try assumption.
    intros [Hm | [Hn _]]; [exact Hm | congruence].
  - cbn [forallb] in H. apply andb_true_iff in H. destruct H as [Hc Hl].
    apply negb_true_iff in Hc. cbn [List.length] in Hi.
    rewrite !(extLoop_step c l) by exact Hc.
    destruct (extStep_keeps i c st) as (H1 & H2 & H3 & H4 & _); try lia.
    rewrite extStep_shift by lia.
    destruct (IH (i - 1) (extStep i c st) Hd Hl) as (I1 & I2 & I3 & I4 & I5);
      try lia.
    replace (i + d - 1) with (i - 1 + d) by lia. rewrite I1.
    split; [reflexivity |]. split; [exact I2 |]. split; [exact I3 |].
    split; [congruence |].
    intros Hm. apply I5. left. rewrite H4.
    destruct (Z.eqb_spec (endIdx st) (-1)); [reflexivity |].
    destruct Hm as [Hm | [_ Hm]]; [exact Hm | contradiction].
Qed.

End JoinFacts.

Lemma append_assoc_string (a b c : string) : ((a ++ b) ++ c = a ++ b ++ c)%string.
Proof.
  induction a as [| x a IH]; [reflexivity |].
  change ((String x a ++ b) ++ c)%string with (String x ((a ++ b) ++ c)).
  change (String x a ++ b ++ c)%string with (String x (a ++ b ++ c)).
  now rewrite IH.
Qed.

Lemma append_length (a b : string) :
  String.length (a ++ b) = (String.length a + String.length b)%nat.
Proof.
  induction a as [| x a IH]; [reflexivity |].
  change (String x a ++ b)%string with (String x (a ++ b)).
  simpl. now rewrite IH.
Qed.

(** The extension of a path is the extension of its last segment. *)
Lemma extname_join dir f :
  f <> "" -> slashFree f = true ->
  extname (path_join dir f) = extname f.
Proof.
  intros Hf Hs. unfold slashFree in Hs.
  set (l := rev (list_ascii_of_string f)).
  set (n := Z.of_nat (String.length f)).
  set (d := Z.of_nat (String.length dir) + 1).
  assert (Hl : forallb (fun c => negb (Ascii.eqb c CHAR_FORWARD_SLASH)) l = true).
  { unfold l. apply forallb_forall. intros c Hc. apply in_rev in Hc.
    rewrite forallb_forall in Hs. now apply Hs. }
  assert (Hlen : Z.of_nat (List.length l) = n)
    by (unfold l, n; now rewrite length_rev, chars_length).
  assert (Hne : l <> []).
  { unfold l. destruct f as [| c f]; [congruence |]. simpl.
    intros E. apply (f_equal (@List.length ascii)) in E.
    rewrite length_app in E. simpl in E. lia. }
  assert (Hn : 1 <= n).
  { rewrite <- Hlen. destruct l; [congruence | simpl; lia]. }
  destruct (extLoop_shift d l (n - 1) extInit) as (S1 & S2 & S3 & S4 & S5);
    try (unfold d; simpl; lia); try exact Hl.
  set (sa := extLoop l (n - 1) extInit) in *.
  assert (Hm : matchedSlash sa = false) by (apply S5; right; now split).
  assert (Ea : extLoop (rev (list_ascii_of_string f))
                 (Z.of_nat (List.length (list_ascii_of_string f)) - 1) extInit = sa)
    by (rewrite chars_length; reflexivity).
  assert (Ej : extLoop (rev (list_ascii_of_string (path_join dir f)))
                 (Z.of_nat (List.length (list_ascii_of_string (path_join dir f))) - 1)
                 extInit
               = {| startDot := startDot (shiftScan d sa); startPart := d;
                    endIdx := endIdx (shiftScan d sa);
                    matchedSlash := false;
                    preDotState := preDotState sa |}).
  { unfold path_join. rewrite !chars_app, !length_app, !rev_app_distr.
    rewrite !chars_length. cbn [list_ascii_of_string rev app List.length].
    fold l. rewrite <- app_assoc. cbn [app].
    rewrite extLoop_app by exact Hl. rewrite Hlen.
    replace (Z.of_nat (String.length dir + (String.length "/" + String.length f)) - 1)
      with (n - 1 + d) by (unfold n, d; simpl String.length; lia).
    change extInit with (shiftScan d extInit) at 1. rewrite S1. fold sa.
    cbn [extLoop]. change (Ascii.eqb "/" CHAR_FORWARD_SLASH) with true.
    cbn [shiftScan matchedSlash]. rewrite Hm. cbn [negb].
    f_equal. lia. }
  unfold extname. rewrite Ea, Ej. clear Ea Ej.
  cbn [startDot endIdx startPart preDotState shiftScan].
  assert (Hsp : startPart sa = 0) by (rewrite S4; reflexivity).
  rewrite Hsp.
  destruct (eqb_minus_one (startDot sa)) as [E1 | E1].
  { rewrite E1. reflexivity. }
  destruct (eqb_minus_one (endIdx sa)) as [E2 | E2].
  { rewrite E2, E1. cbn. now rewrite !orb_true_r. }
  rewrite E1, E2.
  pose proof E1 as N1. pose proof E2 as N2. apply Z.eqb_neq in N1, N2.
  replace (startDot sa + d =? -1) with false by (symmetry; apply Z.eqb_neq; lia).
  replace (endIdx sa + d =? -1) with false by (symmetry; apply Z.eqb_neq; lia).
  replace (startDot sa + d =? endIdx sa + d - 1) with (startDot sa =? endIdx sa - 1)
    by (destruct (Z.eqb_spec (startDot sa) (endIdx sa - 1));
        symmetry; [apply Z.eqb_eq | apply Z.eqb_neq]; lia).
  replace (startDot sa + d =? d + 1) with (startDot sa =? 0 + 1)
    by (destruct (Z.eqb_spec (startDot sa) (0 + 1));
        symmetry; [apply Z.eqb_eq | apply Z.eqb_neq]; lia).
  destruct (false || false || (preDotState sa =? 0)
            || (preDotState sa =? 1) && (startDot sa =? endIdx sa - 1)
               && (startDot sa =? 0 + 1)); [reflexivity |].
  replace (endIdx sa + d - (startDot sa + d)) with (endIdx sa - startDot sa) by lia.
  unfold path_join. rewrite <- append_assoc_string.
  replace (Z.to_nat (startDot sa + d))
    with (String.length (dir ++ "/") + Z.to_nat (startDot sa))%nat.
  - apply substring_skip.
  - rewrite append_length. unfold d. simpl. lia.
Qed.

(** * What the watcher reacts to *)

Section WatchedNames.

Lemma joinPath_snoc dirs name :
  dirs <> [] -> joinPath (dirs ++ [name]) = path_join (joinPath dirs) name.
Proof.
  unfold joinPath, path_join. induction dirs as [| x dirs IH]; [congruence |].
  intros _. destruct dirs as [| y dirs]; [reflexivity |].
  change (String.concat "/" ((x :: y :: dirs) ++ [name]))
    with (x ++ "/" ++ String.concat "/" ((y :: dirs) ++ [name]))%string.
  change (String.concat "/" (x :: y :: dirs))
    with (x ++ "/" ++ String.concat "/" (y :: dirs))%string.
  rewrite IH by discriminate. now rewrite !append_assoc_string.
Qed.

(** The watcher classifies a path by the extension of its last segment. *)
Lemma event_extension dirs name :
  dirs <> [] -> name <> "" -> slashFree name = true ->
  extname (joinPath (dirs ++ [name])) = extname name.
Proof.
  intros Hd Hn Hs. rewrite joinPath_snoc by exact Hd. now apply extname_join.
Qed.

Lemma media_name_not_empty name :
  includes SUPPORTED_MEDIA_TYPES (toLowerCase (extname name)) = true -> name <> "".
Proof. intros H ->. vm_compute in H. discriminate. Qed.

Lemma listed_media it :
  listed it = true ->
  includes SUPPORTED_MEDIA_TYPES (toLowerCase (extname (d_name it))) = true.
Proof.
  unfold listed. intros H. apply andb_true_iff in H. destruct H as [_ H].
  now destruct (d_stat it).
Qed.

(** In a reachable state, an event for a media file below the watch
    root leaves a timer for the folder that holds the file. *)
Lemma event_arms watchFolder ls s dirs name quick :
  run ls (initial watchFolder) = Some s ->
  dirs <> [] -> slashFree name = true ->
  includes SUPPORTED_MEDIA_TYPES (toLowerCase (extname name)) = true ->
  In {| t_id := nextId s; t_deadline := clock s + FOLDER_DEBOUNCE_DELAY;
        t_folder := List.last dirs "";
        t_folderPath := joinPath (WATCH_FOLDER s :: dirs) |}
     (armed (onWatchEvent (dirs ++ [name]) true quick s)).
Proof.
  intros Hrun Hd Hs Hm.
  assert (Hq : processingQueue s = ∅)
    by (eapply processingQueue_always_empty; [| exact Hrun]; reflexivity).
  assert (Hlen : (2 <= List.length (dirs ++ [name]))%nat).
  { rewrite length_app. simpl. destruct dirs; [congruence | simpl; lia]. }
  assert (Hmedia : includes SUPPORTED_MEDIA_TYPES
                     (toLowerCase (extname (joinPath (dirs ++ [name])))) = true).
  { rewrite event_extension; auto. now apply media_name_not_empty. }
  rewrite (onWatchEvent_media (dirs ++ [name]) quick Hlen Hmedia s Hq).
  unfold processPhotoSession, folderOf. rewrite removelast_last. simpl.
  apply in_or_app. right. now left.
Qed.

Lemma find_snoc {A} (p : A -> bool) l y :
  (forall x, In x l -> p x = false) -> p y = true ->
  List.find p (l ++ [y]) = Some y.
Proof.
  induction l as [| x l IH]; simpl; intros Hl Hy; [now rewrite Hy |].
  rewrite (Hl x) by now left. apply IH; auto.
Qed.

(** Identifiers are given out once: no armed timer and no job carries
    one that is still to come. *)
Lemma fresh_step l s s' :
  step l s = Some s' ->
  (forall t, In t (armed s) -> (t_id t < nextId s)%nat) ->
  (forall j, In j (jobs s) -> (j_id j < nextId s)%nat) ->
  (forall t, In t (armed s') -> (t_id t < nextId s')%nat) /\
  (forall j, In j (jobs s') -> (j_id j < nextId s')%nat).
Proof.
  intros E Ha Hj.
  destruct (step_armed _ _ _ E) as (Hn & _ & Harm).
  split.
  { intros t Hin. destruct (Harm t Hin) as [Hold | [Hid Hlt]];
      [specialize (Ha t Hold) |]; lia. }
  destruct l as [dt | parts isFile quick | id node | id recheck | id | f | f];
    simpl in E.
  - destruct (0 <=? dt); [| discriminate]. injection E as <-. exact Hj.
  - injection E as <-. intros j Hin.
    assert (Hin' : In j (jobs s)).
    { revert Hin. unfold onWatchEvent.
      destruct (List.length parts <? 2)%nat; [auto |].
      destruct (negb isFile); [auto |].
      destruct (_ && _); auto. }
    specialize (Hj j Hin'). lia.
  - destruct (List.find _ (armed s)) as [t0 |] eqn:Ef; [| discriminate].
    destruct (t_deadline t0 <=? clock s); [| discriminate].
    injection E as <-. apply List.find_some in Ef. destruct Ef as [Hin0 _].
    unfold timerFires. destruct (_ <? _)%nat; simpl; [exact Hj |].
    intros j Hin. apply in_app_or in Hin. destruct Hin as [Hin | [<- | []]];
      [now apply Hj | simpl; now apply Ha].
  - destruct (List.find _ (jobs s)) as [j0 |]; [| discriminate].
    destruct (j_phase j0) as [expected resumeAt |]; [| discriminate].
    destruct (resumeAt <=? clock s); [| discriminate].
    injection E as <-. unfold settled. destruct (negb _); simpl; intros j Hin.
    + apply List.filter_In in Hin. now apply Hj.
    + unfold startReconcile in Hin. apply in_map_iff in Hin.
      destruct Hin as (j1 & <- & Hin). specialize (Hj j1 Hin).
      now destruct (j_id j1 =? j_id j0)%nat.
  - destruct (List.find _ (jobs s)) as [j0 |]; [| discriminate].
    destruct (j_phase j0); [discriminate |].
    injection E as <-. unfold reconcileEnds.
    destruct (j_origin j0); simpl; intros j Hin;
      apply List.filter_In in Hin; now apply Hj.
  - injection E as <-. simpl. intros j Hin.
    apply in_app_or in Hin. destruct Hin as [Hin | [<- | []]];
      [specialize (Hj j Hin) |]; simpl; lia.
  - injection E as <-. simpl. intros j Hin.
    apply in_app_or in Hin. destruct Hin as [Hin | [<- | []]];
      [specialize (Hj j Hin) |]; simpl; lia.
Qed.

Lemma fresh_reachable wf ls : forall s,
  run ls (initial wf) = Some s ->
  (forall t, In t (armed s) -> (t_id t < nextId s)%nat) /\
  (forall j, In j (jobs s) -> (j_id j < nextId s)%nat).
Proof.
  assert (H : forall ls s0 s,
            ((forall t, In t (armed s0) -> (t_id t < nextId s0)%nat) /\
             (forall j, In j (jobs s0) -> (j_id j < nextId s0)%nat)) ->
            run ls s0 = Some s ->
            (forall t, In t (armed s) -> (t_id t < nextId s)%nat) /\
            (forall j, In j (jobs s) -> (j_id j < nextId s)%nat)).
  { clear ls. induction ls as [| l ls IH]; simpl; intros s0 s Hf Hr.
    - now injection Hr as <-.
    - destruct (step l s0) as [s1 |] eqn:E; [| discriminate].
      apply (IH s1 s); [| exact Hr].
      destruct Hf as [Ha Hj]. now apply (fresh_step l s0 s1). }
  intros s. apply H. split; intros ? [].
Qed.

Lemma validate_unchanged folderPath node :
  isValid (scanFolderTree folderPath node) = true ->
  validateFolderConsistency folderPath node
    (totalFiles (scanFolderTree folderPath node)) = true.
Proof.
  rewrite isValid_threshold. intros H. apply Nat.leb_le in H.
  unfold validateFolderConsistency. rewrite Nat.eqb_refl. cbn [negb]. cbv iota.
  destruct (Nat.ltb_spec (totalFiles (scanFolderTree folderPath node))
              MIN_FILES_PER_SESSION); [lia | reflexivity].
Qed.

(** In a reachable state, the event of a media file is followed, when
    nothing else happens to the folder and it still holds enough files, by
    the debounce callback and the call of the reconciler. *)
Lemma event_leads_to_reconcile watchFolder ls s dirs name quick node :
  run ls (initial watchFolder) = Some s ->
  dirs <> [] -> slashFree name = true ->
  includes SUPPORTED_MEDIA_TYPES (toLowerCase (extname name)) = true ->
  isValid (scanFolderTree (joinPath (WATCH_FOLDER s :: dirs)) node) = true ->
  exists s2,
    run [FileEvent (dirs ++ [name]) true quick; Advance FOLDER_DEBOUNCE_DELAY;
         TimerFires (nextId s) node; Advance SETTLE_DELAY;
         Settled (nextId s) node] s = Some s2 /\
    In {| j_id := nextId s; j_folder := List.last dirs "";
          j_folderPath := joinPath (WATCH_FOLDER s :: dirs);
          j_origin := FromTimer; j_phase := Reconciling |} (jobs s2) /\
    attempts s2
    = (attempts s ++ [(List.last dirs "", clock s + FOLDER_DEBOUNCE_DELAY)])%list.
Proof.
  intros Hrun Hd Hs Hm Hv.
  destruct (fresh_reachable _ _ _ Hrun) as [Ha Hj].
  assert (Hq : processingQueue s = ∅)
    by (eapply processingQueue_always_empty; [| exact Hrun]; reflexivity).
  assert (Hlen : (2 <= List.length (dirs ++ [name]))%nat).
  { rewrite length_app. simpl. destruct dirs; [congruence | simpl; lia]. }
  assert (Hmedia : includes SUPPORTED_MEDIA_TYPES
                     (toLowerCase (extname (joinPath (dirs ++ [name])))) = true).
  { rewrite event_extension; auto. now apply media_name_not_empty. }
  set (fp := joinPath (WATCH_FOLDER s :: dirs)) in *.
  set (F := List.last dirs "").
  set (tnew := {| t_id := nextId s; t_deadline := clock s + FOLDER_DEBOUNCE_DELAY;
                  t_folder := F; t_folderPath := fp |}).
  set (armed1 := match folderProcessingTimers s !! F with
                 | Some oldTimer => clearTimeout (timer oldTimer) (armed s)
                 | None => armed s
                 end).
  assert (Harmed1 : forall t, In t armed1 -> (t_id t =? nextId s)%nat = false).
  { intros t Hin. apply Nat.eqb_neq.
    assert (Hin' : In t (armed s)).
    { unfold armed1 in Hin. destruct (_ !! _); [| exact Hin].
      now apply clearTimeout_In in Hin. }
    specialize (Ha t Hin'). lia. }
  assert (Hcount : (totalFiles (scanFolderTree fp node) <? MIN_FILES_PER_SESSION)%nat
                   = false).
  { rewrite isValid_threshold in Hv. apply Nat.leb_le in Hv.
    apply Nat.ltb_ge. exact Hv. }
  cbn [run step].
  rewrite (onWatchEvent_media (dirs ++ [name]) quick Hlen Hmedia s Hq).
  unfold folderOf. rewrite removelast_last. fold F. fold fp.
  unfold processPhotoSession. fold armed1. fold tnew.
  change (0 <=? FOLDER_DEBOUNCE_DELAY) with true.
  change (0 <=? SETTLE_DELAY) with true. cbv iota.
  cbn [armed clock].
  rewrite (find_snoc _ armed1 tnew Harmed1) by (simpl; apply Nat.eqb_refl).
  cbn [t_deadline tnew]. rewrite Z.leb_refl.
  unfold timerFires. cbn [t_folderPath tnew clock jobs armed t_id t_folder
                          WATCH_FOLDER nextId processingQueue
                          folderProcessingTimers attempts].
  rewrite Hcount. unfold set_jobs.
  cbn [clock jobs armed WATCH_FOLDER nextId processingQueue
       folderProcessingTimers attempts].
  rewrite find_snoc;
    [| intros j Hin; apply Nat.eqb_neq; specialize (Hj j Hin); lia
     | simpl; apply Nat.eqb_refl].
  cbn [j_phase]. rewrite Z.leb_refl.
  unfold settled. cbn [j_folderPath j_id j_folder].
  rewrite (validate_unchanged fp node Hv). cbn [negb]. cbv iota.
  eexists. split; [reflexivity |].
  unfold set_jobs. cbn [jobs attempts]. split; [| reflexivity].
  unfold startReconcile. rewrite map_app. apply in_or_app. right.
  cbn [map j_id]. rewrite Nat.eqb_refl. now left.
Qed.

End WatchedNames.

(** X25 — no file the scanner counts is missed by the watcher.  In every
    state the loop can reach, the watch event of a file that the scanner
    would list (a regular file with a supported extension, not hidden, not
    a system file) sets a timer, due after the full delay, for the folder
    that holds the file. *)
Theorem watcher_acts_on_every_file_the_scanner_counts watchFolder ls s dirs it quick :
  run ls (initial watchFolder) = Some s ->
  dirs <> [] -> slashFree (d_name it) = true ->
  listed it = true ->
  In {| t_id := nextId s; t_deadline := clock s + FOLDER_DEBOUNCE_DELAY;
        t_folder := List.last dirs "";
        t_folderPath := joinPath (WATCH_FOLDER s :: dirs) |}
     (armed (onWatchEvent (dirs ++ [d_name it]) true quick s)).
Proof.
  intros Hrun Hd Hs Hl. apply (event_arms watchFolder ls); try assumption.
  now apply listed_media.
Qed.

Lemma watcher_acts_on_every_file_the_scanner_counts_witness :
  In {| t_id := 0; t_deadline := 5000; t_folder := "Event1";
        t_folderPath := "/photos/Event1" |}
     (armed (onWatchEvent ["Event1"; "IMG_0001.JPG"] true Samples.twoFiles
               (initial "/photos"))).
Proof.
  apply (watcher_acts_on_every_file_the_scanner_counts "/photos" []
           (initial "/photos") ["Event1"] (file "IMG_0001.JPG") Samples.twoFiles);
    [reflexivity | discriminate | reflexivity | reflexivity].
Defined.

(** X26 — the QR code of a new session brings its folder one more
    reconciliation.  A run that inserts the session writes [_qrcode.png]
    into the session folder (unless the QR library fails).  The scanner
    never counts that file, but the watcher takes it for a media file: in
    every state the loop can reach, the state in which that run is in
    flight among them, the watch event of the file arms the folder's timer,
    and when nothing else happens to the folder and it still holds enough
    files, the timer fires after the delay, the folder passes the settle
    check and the reconciler is called for it again.  Any such run on the
    store the first one left finds the session row, so it writes no QR
    code and the chain ends there. *)
Theorem qr_code_rearms_the_timer
    watchFolder ls s F quick node w photoFiles db db' log o :
  run ls (initial watchFolder) = Some s ->
  let folderPath := joinPath [WATCH_FOLDER s; F] in
  selectSession F db = None ->
  w_session_fault w = false ->
  passesGates w folderPath photoFiles = true ->
  scanAndProcessSession w F folderPath photoFiles db = (db', log, o) ->
  isValid (scanFolderTree folderPath node) = true ->
  In (QrCodeWritten (joinPath [WATCH_FOLDER s; F; "_qrcode.png"]) F (w_token w)
                    (w_qr_ok w)) log /\
  listed (file "_qrcode.png") = false /\
  (exists s2,
     run [FileEvent [F; "_qrcode.png"] true quick;
          Advance FOLDER_DEBOUNCE_DELAY; TimerFires (nextId s) node;
          Advance SETTLE_DELAY; Settled (nextId s) node] s = Some s2 /\
     In {| j_id := nextId s; j_folder := F; j_folderPath := folderPath;
           j_origin := FromTimer; j_phase := Reconciling |} (jobs s2) /\
     attempts s2 = (attempts s ++ [(F, clock s + FOLDER_DEBOUNCE_DELAY)])%list) /\
  (forall w2 photoFiles2 db2 log2 o2,
     scanAndProcessSession w2 F folderPath photoFiles2 db' = (db2, log2, o2) ->
     forallb (fun e => negb (is_qr e)) log2 = true).
Proof.
  intros Hrun folderPath Hnew Hf G H Hv.
  assert (A : insertAborts w F db = false)
    by (unfold insertAborts; now rewrite Hnew).
  split; [| split; [reflexivity | split]].
  - destruct (session_after_run _ _ _ _ _ _ _ _ G H A) as (_ & (rest & ->) & _).
    unfold sessionPrefix. rewrite Hnew. right. left.
    unfold folderPath, joinPath, path_join. simpl.
    now rewrite append_assoc_string.
  - exact (event_leads_to_reconcile watchFolder ls s [F] "_qrcode.png" quick node
             Hrun ltac:(discriminate) eq_refl eq_refl Hv).
  - intros w2 pf2 db2 log2 o2 H2.
    pose proof (row_after_run _ _ _ _ _ _ _ _ G H A) as Hrow.
    pose proof (existing_session_log _ _ _ _ _ _ _ _ _ Hrow H2) as Hlog.
    rewrite forallb_forall in Hlog. apply forallb_forall. intros e He.
    specialize (Hlog e He). now apply andb_true_iff in Hlog.
Qed.

Lemma qr_code_rearms_the_timer_witness :
  let r := scanAndProcessSession Samples.worldSmallA "Event1" "/photos/Event1"
             Samples.event1Files Samples.emptyDb in
  In (QrCodeWritten "/photos/Event1/_qrcode.png" "Event1"
        "00112233445566778899aabbccddeeff" true) (snd (fst r)) /\
  exists s2,
    run [FileEvent ["Event1"; "_qrcode.png"] true Samples.event1;
         Advance 5000; TimerFires 0 Samples.event1;
         Advance 500; Settled 0 Samples.event1] (initial "/photos") = Some s2 /\
    in_flight "Event1" s2 = 1%nat.
Proof.
  intros r.
  assert (E : scanAndProcessSession Samples.worldSmallA "Event1"
                (joinPath [WATCH_FOLDER (initial "/photos"); "Event1"])
                Samples.event1Files Samples.emptyDb
              = (fst (fst r), snd (fst r), snd r))
    by (vm_compute; reflexivity).
  destruct (qr_code_rearms_the_timer "/photos" [] (initial "/photos") "Event1"
              Samples.event1 Samples.event1 Samples.worldSmallA Samples.event1Files
              Samples.emptyDb _ _ _ eq_refl eq_refl eq_refl eq_refl E eq_refl)
    as (H1 & _ & (s2 & Hrun & _) & _).
  split; [exact H1 |].
  exists s2. split; [exact Hrun |].
  vm_compute in Hrun. injection Hrun as <-. reflexivity.
Defined.

(** X27 — folders of the same name share one timer.  The timers are
    kept by the name of the folder that holds the file, not by its path.
    In an interleaving that leaves folders alone while they are worked on,
    when a media event in one folder is followed by a media event in
    another folder of the same name, the first folder's timer is cleared:
    the only timer left for that name is the second one, for the second
    folder's path and the full delay. *)
Theorem same_named_folders_share_one_timer watchFolder ls s
    dirsA nameA quickA dirsB nameB quickB :
  runSerialised ls (initial watchFolder) = Some s ->
  dirsA <> [] -> dirsB <> [] -> List.last dirsA "" = List.last dirsB "" ->
  slashFree nameA = true -> slashFree nameB = true ->
  includes SUPPORTED_MEDIA_TYPES (toLowerCase (extname nameA)) = true ->
  includes SUPPORTED_MEDIA_TYPES (toLowerCase (extname nameB)) = true ->
  let s1 := onWatchEvent (dirsA ++ [nameA]) true quickA s in
  let s2 := onWatchEvent (dirsB ++ [nameB]) true quickB s1 in
  armedFor (List.last dirsB "") s2
  = [{| t_id := S (nextId s); t_deadline := clock s + FOLDER_DEBOUNCE_DELAY;
        t_folder := List.last dirsB "";
        t_folderPath := joinPath (WATCH_FOLDER s :: dirsB) |}].
Proof.
  intros Hrun HdA HdB Hsame HsA HsB HmA HmB s1 s2.
  assert (Hser : Serial s) by (eapply serial_run; [apply serial_initial | exact Hrun]).
  assert (Hq : processingQueue s = ∅).
  { apply runSerialised_run in Hrun.
    eapply processingQueue_always_empty; [| exact Hrun]. reflexivity. }
  assert (Hlen : forall dirs (name : string), dirs <> [] ->
            (2 <= List.length (dirs ++ [name]))%nat).
  { intros dirs name Hd. rewrite length_app. simpl.
    destruct dirs; [congruence | simpl; lia]. }
  assert (Hmedia : forall dirs name, dirs <> [] -> slashFree name = true ->
            includes SUPPORTED_MEDIA_TYPES (toLowerCase (extname name)) = true ->
            includes SUPPORTED_MEDIA_TYPES
              (toLowerCase (extname (joinPath (dirs ++ [name])))) = true).
  { intros dirs name Hd Hs Hm. rewrite event_extension; auto.
    now apply media_name_not_empty. }
  assert (Hf : forall dirs (name : string), folderOf (dirs ++ [name]) = List.last dirs "")
    by (intros; unfold folderOf; now rewrite removelast_last).
  assert (E1 : s1 = processPhotoSession (folderOf (dirsA ++ [nameA]))
                      (joinPath (WATCH_FOLDER s :: removelast (dirsA ++ [nameA])))
                      quickA s)
    by (apply onWatchEvent_media; auto).
  assert (Ht1 : tracked (folderOf (dirsA ++ [nameA])) s1)
    by (rewrite E1; apply processPhotoSession_tracked, serial_tracked, Hser).
  assert (Hq1 : processingQueue s1 = ∅) by (rewrite E1; exact Hq).
  unfold s2. rewrite (onWatchEvent_media (dirsB ++ [nameB]) quickB) by auto.
  rewrite Hf in Ht1. rewrite Hsame, <- (Hf dirsB nameB) in Ht1.
  rewrite <- (Hf dirsB nameB), processPhotoSession_armedFor by exact Ht1.
  rewrite removelast_last, E1. reflexivity.
Qed.

Lemma same_named_folders_share_one_timer_witness :
  let s1 := onWatchEvent ["Monday"; "raw"; "a.jpg"] true Samples.twoFiles
              (initial "/photos") in
  let s2 := onWatchEvent ["Tuesday"; "raw"; "b.jpg"] true Samples.twoFiles s1 in
  armedFor "raw" s2
  = [{| t_id := 1; t_deadline := 5000; t_folder := "raw";
        t_folderPath := "/photos/Tuesday/raw" |}].
Proof.
  apply (same_named_folders_share_one_timer "/photos" [] (initial "/photos")
           ["Monday"; "raw"] "a.jpg" Samples.twoFiles
           ["Tuesday"; "raw"] "b.jpg" Samples.twoFiles);
    try reflexivity; discriminate.
Defined.

(** * Session details *)

Section DetailFacts.
Variable w : World.
Variables sid fp gp : string.

Lemma byNumber_rowsFrom files : forall i,
  byNumber (rowsFrom w sid fp gp files i) = rowsFrom w sid fp gp files i.
Proof.
  induction files as [| f files IH]; intros i; [reflexivity |].
  cbn [rowsFrom byNumber fold_right]. fold (byNumber (rowsFrom w sid fp gp files (i + 1))).
  rewrite IH. destruct files as [| f' files]; [reflexivity |].
  cbn [rowsFrom insertByNumber photoRow photo_number].
  destruct (Nat.leb_spec (i + 1) (i + 1 + 1)); [reflexivity | lia].
Qed.

Lemma transformable_media f :
  transformable w f = true ->
  includes SUPPORTED_MEDIA_TYPES (toLowerCase (extname f)) = true.
Proof.
  unfold transformable. intros H.
  destruct (isVideoFile f) eqn:V.
  - unfold isVideoFile in V. unfold includes, SUPPORTED_MEDIA_TYPES in *.
    rewrite existsb_app, V. apply orb_true_r.
  - destruct (isImageFile f) eqn:I; [| discriminate]. now apply image_is_media.
Qed.

Lemma mediaTypeOf_joined f :
  f <> "" -> slashFree f = true ->
  mediaTypeOf (path_join fp f) = Some (mediaClass f).
Proof.
  intros Hf Hs. unfold mediaTypeOf, mediaClass.
  assert (E : String.eqb (path_join fp f) "" = false).
  { apply String.eqb_neq. unfold path_join. intros E.
    apply (f_equal String.length) in E. rewrite !append_length in E.
    simpl in E. lia. }
  rewrite E, extname_join by assumption. reflexivity.
Qed.

Lemma details_of_rows files : forall i,
  Forall (fun f => transformable w f = true) files ->
  Forall (fun f => slashFree f = true) files ->
  Forall2 (fun f entry =>
             original_path (fst entry) = path_join fp f /\
             snd entry = Some (mediaClass f))
          files
          (map (fun p => (p, mediaTypeOf (original_path p)))
               (rowsFrom w sid fp gp files i)).
Proof.
  induction files as [| f files IH]; intros i Ht Hs; [constructor |].
  inversion Ht as [| ? ? Htf Ht']; subst. inversion Hs as [| ? ? Hsf Hs']; subst.
  cbn [rowsFrom map]. constructor; [| now apply IH].
  cbn [fst snd photoRow original_path]. split; [reflexivity |].
  apply mediaTypeOf_joined; [| exact Hsf].
  now apply media_name_not_empty, transformable_media.
Qed.

End DetailFacts.

(** X28 — the session details show the rows as the reconciler made
    them.  After a completed run over files whose names hold no slash,
    [GET /:sessionId] answers with the session row of the folder (active,
    unless the row existed before the run and the UPDATE that re-activates
    it threw: then it is the row from before) and one entry per validated
    file, in the order of the numbers 1 to N; the entry of a file carries
    the path of that file and the media type of the branch the validation
    loop took for it: video for the video branch, gif for the GIF branch,
    image otherwise. *)
Theorem session_details_show_rows_and_media_types w F folderPath photoFiles db db'
    log sid N :
  scanAndProcessSession w F folderPath photoFiles db = (db', log, Completed sid N) ->
  Forall (fun f => slashFree f = true) (validatedFiles w F folderPath photoFiles) ->
  exists session entries,
    sessionDetails F db' = Some (session, entries) /\
    session_uuid session = F /\
    (status session = active \/
     (w_session_fault w = true /\ selectSession F db = Some session)) /\
    map (fun entry => photo_number (fst entry)) entries = seq 1 N /\
    Forall2 (fun f entry =>
               original_path (fst entry) = path_join folderPath f /\
               snd entry = Some (mediaClass f))
            (validatedFiles w F folderPath photoFiles) entries.
Proof.
  intros H Hs.
  pose proof (completed_row _ _ _ _ _ _ _ _ _ H) as Hsel.
  destruct (completed_rows _ _ _ _ _ _ _ _ _ H) as (_ & HN & Hrows & Hnum).
  exists (rowAfter w F db). eexists. unfold sessionDetails. rewrite Hsel, Hrows.
  unfold newRows. rewrite byNumber_rowsFrom.
  split; [reflexivity |]. split; [apply rowAfter_uuid |].
  split; [apply rowAfter_cases |]. split.
  - rewrite map_map. cbn [fst]. rewrite Hrows in Hnum. exact Hnum.
  - apply details_of_rows; [| exact Hs].
    rewrite validatedFiles_filter. apply List.Forall_forall.
    intros f Hf. now apply List.filter_In in Hf.
Qed.

Lemma session_details_show_rows_and_media_types_witness :
  let r := scanAndProcessSession Samples.worldCorruptC "Event1" "/photos/Event1"
             Samples.event1Files Samples.emptyDb in
  exists session entries,
    sessionDetails "Event1" (fst (fst r)) = Some (session, entries) /\
    session_uuid session = "Event1" /\
    (status session = active \/
     (w_session_fault Samples.worldCorruptC = true /\
      selectSession "Event1" Samples.emptyDb = Some session)) /\
    map (fun entry => photo_number (fst entry)) entries = seq 1 2 /\
    Forall2 (fun f entry =>
               original_path (fst entry) = path_join "/photos/Event1" f /\
               snd entry = Some (mediaClass f))
            (validatedFiles Samples.worldCorruptC "Event1" "/photos/Event1"
               Samples.event1Files) entries.
Proof.
  intros r.
  assert (E : scanAndProcessSession Samples.worldCorruptC "Event1" "/photos/Event1"
                Samples.event1Files Samples.emptyDb
              = (fst (fst r), snd (fst r), Completed "Event1" 2))
    by (vm_compute; reflexivity).
  apply (session_details_show_rows_and_media_types _ _ _ _ _ _ _ _ _ E).
  vm_compute. repeat constructor.
Defined.

(** * The public photo list *)

Import Gallery.

Section GalleryFacts.

Lemma insertSorted_perm x l : Permutation (insertSorted x l) (x :: l).
Proof.
  induction l as [| y l IH]; simpl; [reflexivity |].
  destruct (String.leb x y); [reflexivity |].
  rewrite IH. apply perm_swap.
Qed.

Lemma sortNames_perm l : Permutation (sortNames l) l.
Proof.
  induction l as [| x l IH]; simpl; [reflexivity |].
  rewrite insertSorted_perm. now constructor.
Qed.

Lemma insertSorted_sorted x l :
  Sorted (fun a b => String.leb a b = true) l ->
  Sorted (fun a b => String.leb a b = true) (insertSorted x l).
Proof.
  induction 1 as [| y l Hl IH Hy]; simpl.
  - repeat constructor.
  - destruct (String.leb x y) eqn:E.
    + constructor; [now constructor |]. now constructor.
    + constructor; [exact IH |].
      assert (Hyx : String.leb y x = true).
      { destruct (String.leb_total x y) as [H | H]; [congruence | exact H]. }
      destruct l as [| z l]; simpl; [now constructor |].
      destruct (String.leb x z); constructor; [exact Hyx |].
      now inversion Hy.
Qed.

Lemma sortNames_sorted l : Sorted (fun a b => String.leb a b = true) (sortNames l).
Proof.
  induction l as [| x l IH]; simpl; [constructor |].
  now apply insertSorted_sorted.
Qed.

Lemma galleryListing_names names f :
  In f (galleryListing names) -> In f names /\ galleryKeeps f = true /\ f <> "".
Proof.
  unfold galleryListing. intros H.
  apply (Permutation_in _ (sortNames_perm _)) in H.
  apply List.filter_In in H. destruct H as [Hin Hk].
  repeat split; try assumption. intros ->. discriminate Hk.
Qed.

Lemma photosFromFs_spec sid files : forall i,
  Forall (fun f => f <> "") files ->
  map sourceFile (photosFromFs sid files i) = files /\
  map photoNumber (photosFromFs sid files i) = seq (i + 1) (List.length files).
Proof.
  induction files as [| f files IH]; intros i H; [now split |].
  inversion H as [| ? ? Hf Hfs]; subst.
  cbn [photosFromFs]. apply String.eqb_neq in Hf. rewrite Hf.
  destruct (IH (i + 1)%nat Hfs) as [I1 I2].
  cbn [map List.length seq entryOf sourceFile photoNumber].
  rewrite I1, I2. split; [reflexivity |]. f_equal. f_equal. lia.
Qed.

Variable job : SyncJob.
Variable now : nat -> string.
Variable fault : nat -> bool.

Lemma syncLoop_decides files : forall i db,
  Forall (fun f => f <> "") files ->
  existsb (has_uuid (sy_sessionId job)) (sessions db) = true ->
  (forall p, In p (photos db) -> of_session (sy_sessionId job) p = true ->
             (photo_number p <= i)%nat) ->
  syncLoop job now fault (photosFromFs (sy_sessionId job) files i) i db =
  if forallb (fun k => negb (fault k)) (seq i (List.length files))
  then Ok ({| sessions := sessions db;
              photos := photos db ++ syncRows job now files i |}, tt)
  else Err IoFault.
Proof.
  induction files as [| f files IH]; intros i db Hne Hfk Hnum.
  - simpl. rewrite app_nil_r. now destruct db.
  - inversion Hne as [| ? ? Hf Hfs]; subst.
    cbn [photosFromFs]. apply String.eqb_neq in Hf. rewrite Hf.
    cbn [syncLoop List.length seq forallb syncRows].
    unfold insertOrReplacePhoto at 1.
    destruct (fault i); [reflexivity |].
    cbn [negb andb syncRow p_session_uuid photo_number entryOf photoNumber].
    rewrite Hfk. cbn [negb].
    rewrite filter_all.
    2:{ apply List.Forall_forall. intros p Hp.
        destruct (of_session (sy_sessionId job) p) eqn:Eo; [| reflexivity].
        specialize (Hnum p Hp Eo). simpl.
        apply negb_true_iff. apply Nat.eqb_neq. lia. }
    rewrite IH; cbn [sessions photos]; auto.
    + replace (S i) with (i + 1)%nat by lia.
      destruct (forallb _ _); [| reflexivity].
      rewrite <- app_assoc. reflexivity.
    + intros p Hp Ho. apply in_app_or in Hp.
      destruct Hp as [Hp | [<- | []]]; [| simpl; lia].
      specialize (Hnum p Hp Ho). lia.
Qed.

Lemma syncRows_spec files : forall i,
  Forall (fun p => of_session (sy_sessionId job) p = true) (syncRows job now files i) /\
  map photo_number (syncRows job now files i) = seq (i + 1) (List.length files) /\
  (Forall (fun f => f <> "") files ->
   map original_path (syncRows job now files i)
   = map (path_join (sy_folderPath job)) files).
Proof.
  induction files as [| f files IH]; intros i; [repeat split; constructor |].
  destruct (IH (i + 1)%nat) as (I1 & I2 & I3).
  cbn [syncRows map List.length seq]. split; [| split].
  - constructor; [| exact I1]. unfold of_session. simpl. apply String.eqb_refl.
  - rewrite I2. simpl. f_equal. f_equal. lia.
  - intros H. inversion H as [| ? ? Hf Hfs]; subst. rewrite (I3 Hfs).
    cbn [syncRow entryOf sourceFile original_path].
    apply String.eqb_neq in Hf. now rewrite Hf.
Qed.

End GalleryFacts.

(** The store after the job of a listing [files]. *)
Lemma runSync_spec sessionId folderPath galleryFolder files now fault db2 :
  Forall (fun f => f <> "") files ->
  existsb (has_uuid sessionId) (sessions db2) = true ->
  let job := {| sy_sessionId := sessionId; sy_folderPath := folderPath;
                sy_galleryFolder := galleryFolder;
                sy_list := photosFromFs sessionId files 0 |} in
  sessions (runSync job now fault db2) = sessions db2 /\
  photosNotOf sessionId (runSync job now fault db2) = photosNotOf sessionId db2 /\
  if forallb (fun k => negb (fault k)) (seq 0 (List.length files))
  then map photo_number (photosOf sessionId (runSync job now fault db2))
       = seq 1 (List.length files) /\
       map original_path (photosOf sessionId (runSync job now fault db2))
       = map (path_join folderPath) files
  else runSync job now fault db2 = db2.
Proof.
  intros Hne Hfk job. unfold runSync, transaction.
  change (sy_list job) with (photosFromFs (sy_sessionId job) files 0).
  rewrite (syncLoop_decides job now fault files 0).
  - destruct (forallb _ (seq 0 (List.length files))); cbn [fst sessions photos].
    + destruct (syncRows_spec job now files 0) as (R1 & R2 & R3).
      change (sy_sessionId job) with sessionId in *.
      change (sy_folderPath job) with folderPath in *.
      split; [reflexivity |]. unfold photosNotOf, photosOf, deletePhotos.
      cbn [photos].
      rewrite !List.filter_app. split; [| split].
      * rewrite (filter_none _ (syncRows job now files 0)).
        -- rewrite app_nil_r. apply filter_all. apply List.Forall_forall.
           intros p Hp. now apply List.filter_In in Hp.
        -- eapply List.Forall_impl; [| exact R1]. simpl. now intros p ->.
      * rewrite filter_neg_then_pos, (filter_all _ _ R1). exact R2.
      * rewrite filter_neg_then_pos, (filter_all _ _ R1). exact (R3 Hne).
    + now repeat split.
  - exact Hne.
  - exact Hfk.
  - cbn [deletePhotos photos sy_sessionId]. intros p Hp Ho.
    apply List.filter_In in Hp. destruct Hp as [_ Hp].
    change (sy_sessionId job) with sessionId in *. cbv beta in Hp.
    rewrite Ho in Hp. discriminate.
Qed.

Lemma galleryListing_nonempty names :
  Forall (fun f => f <> "") (galleryListing names).
Proof.
  apply List.Forall_forall. intros f Hf.
  now destruct (galleryListing_names _ _ Hf) as (_ & _ & H).
Qed.

(** X29 — viewing the gallery renumbers the rows by sorted name.  When
    the session folder is on disk, [GET /:sessionId/photos] answers with
    one entry per kept name of the folder, in sorted order and numbered
    from 1, and leaves a job that rewrites the photo rows of the session
    to match: whatever rows the reconciler had written, after the job the
    session has one row per kept name, numbered 1 to n in sorted name
    order, with the file of that name as its original; the rows of other
    sessions and the sessions table are untouched.  When the engine fails
    one of the inserts, the store is as it was before the job. *)
Theorem gallery_view_renumbers_rows_by_sorted_name trim watchFolder sessionId items db
    session :
  selectSession sessionId db = Some session ->
  trim (folder_name session) <> "" ->
  let files := galleryListing (map d_name items) in
  let folderPath := path_join watchFolder (trim (folder_name session)) in
  exists job,
    galleryPhotos trim watchFolder sessionId (Directory items) true db
    = (PhotosFromFs (sy_list job), Some job) /\
    map sourceFile (sy_list job) = files /\
    map photoNumber (sy_list job) = seq 1 (List.length files) /\
    Permutation files (List.filter galleryKeeps (map d_name items)) /\
    Sorted (fun a b => String.leb a b = true) files /\
    forall db2 now fault,
      existsb (has_uuid sessionId) (sessions db2) = true ->
      let db3 := runSync job now fault db2 in
      sessions db3 = sessions db2 /\
      photosNotOf sessionId db3 = photosNotOf sessionId db2 /\
      if forallb (fun k => negb (fault k)) (seq 0 (List.length files))
      then map photo_number (photosOf sessionId db3) = seq 1 (List.length files) /\
           map original_path (photosOf sessionId db3) = map (path_join folderPath) files
      else db3 = db2.
Proof.
  intros Hsel Htrim files folderPath.
  pose proof (galleryListing_nonempty (map d_name items)) as Hne. fold files in Hne.
  set (job := {| sy_sessionId := sessionId; sy_folderPath := folderPath;
                 sy_galleryFolder := path_join GALLERY_FOLDER sessionId;
                 sy_list := photosFromFs sessionId files 0 |}).
  exists job. unfold galleryPhotos. rewrite Hsel.
  apply String.eqb_neq in Htrim. rewrite Htrim. cbn [negb].
  fold files. fold folderPath.
  split; [reflexivity |]. cbn [sy_list job].
  destruct (photosFromFs_spec sessionId files 0 Hne) as [E1 E2].
  split; [exact E1 |]. split; [exact E2 |].
  split; [apply sortNames_perm |]. split; [apply sortNames_sorted |].
  intros db2 now fault Hfk.
  exact (runSync_spec sessionId folderPath (path_join GALLERY_FOLDER sessionId)
           files now fault db2 Hne Hfk).
Qed.

Lemma gallery_view_renumbers_rows_by_sorted_name_witness :
  exists job,
    galleryPhotos (fun s => s) "/photos" "Event1"
      (Directory [file "b.jpg"; file "a.jpg"; file "._a.jpg"; file "_qrcode.png";
                  file "c.jpg"])
      true Samples.dbDeletedEvent1
    = (PhotosFromFs (sy_list job), Some job) /\
    map sourceFile (sy_list job) = ["._a.jpg"; "a.jpg"; "b.jpg"; "c.jpg"].
Proof.
  destruct (gallery_view_renumbers_rows_by_sorted_name (fun s => s) "/photos" "Event1"
              [file "b.jpg"; file "a.jpg"; file "._a.jpg"; file "_qrcode.png";
               file "c.jpg"]
              Samples.dbDeletedEvent1 Samples.deletedEvent1 eq_refl)
    as (job & H1 & H2 & _); [discriminate |].
  exists job. split; [exact H1 |]. rewrite H2. vm_compute. reflexivity.
Defined.

Lemma map_inj_eq {A B : Type} (g : A -> B) :
  (forall a b, g a = g b -> a = b) ->
  forall l1 l2, map g l1 = map g l2 -> l1 = l2.
Proof.
  intros Hg. induction l1 as [| a l1 IH]; intros [| b l2] H; try discriminate;
    [reflexivity |].
  injection H as H1 H2. f_equal; auto.
Qed.

Lemma rowsFrom_originals w sid fp gp files : forall i,
  map original_path (rowsFrom w sid fp gp files i) = map (path_join fp) files.
Proof.
  induction files as [| f files IH]; intros i; [reflexivity |].
  cbn [rowsFrom map photoRow original_path]. now rewrite IH.
Qed.

(** X30 — when a view of the gallery keeps the reconciler's numbering.
    After a completed run, a view of the gallery of the same folder whose
    job runs without a fault leaves every number with the file the
    reconciler gave it exactly when the kept names of the folder, sorted,
    are the files that came through the validation loop, in its order.
    A folder the directory read lists out of name order, a file whose
    transform failed, or a kept name the scanner hides each make the view
    move files to other numbers. *)
Theorem gallery_view_keeps_numbering_iff w F folderPath photoFiles db db' log sid N
    trim watchFolder items answer job now fault session :
  scanAndProcessSession w F folderPath photoFiles db = (db', log, Completed sid N) ->
  selectSession F db' = Some session ->
  folderPath = path_join watchFolder (trim (folder_name session)) ->
  galleryPhotos trim watchFolder F (Directory items) true db' = (answer, Some job) ->
  (forall k, fault k = false) ->
  (map original_path (photosOf F (runSync job now fault db'))
   = map original_path (photosOf F db')
   <-> galleryListing (map d_name items) = validatedFiles w F folderPath photoFiles).
Proof.
  intros H Hsel Hfp Hg Hfault.
  destruct (completed_rows _ _ _ _ _ _ _ _ _ H) as (_ & _ & Hrows & _).
  unfold galleryPhotos in Hg. rewrite Hsel in Hg.
  destruct (String.eqb (trim (folder_name session)) ""); [discriminate Hg |].
  cbn [negb] in Hg. injection Hg as _ <-.
  rewrite <- Hfp.
  assert (Hfk : existsb (has_uuid F) (sessions db') = true)
    by (unfold selectSession in Hsel; eapply find_some_existsb_uuid, Hsel).
  destruct (runSync_spec F folderPath (path_join GALLERY_FOLDER F)
              (galleryListing (map d_name items)) now fault db'
              (galleryListing_nonempty _) Hfk) as (_ & _ & Hsync).
  assert (Hall : forallb (fun k => negb (fault k))
                   (seq 0 (List.length (galleryListing (map d_name items)))) = true)
    by (apply forallb_forall; intros k _; now rewrite Hfault).
  rewrite Hall in Hsync. destruct Hsync as [_ Hsync].
  rewrite Hsync, Hrows. unfold newRows. rewrite rowsFrom_originals.
  split.
  - apply map_inj_eq. intros a b. apply path_join_inj.
  - now intros ->.
Qed.

Lemma gallery_view_keeps_numbering_iff_witness :
  let items := [file "b.jpg"; file "a.jpg"; file "c.jpg"] in
  let w := worldKeeping (Directory items) ["a.jpg"; "b.jpg"; "c.jpg"] in
  let r := scanAndProcessSession w "Event1" "/photos/Event1" ["b.jpg"; "a.jpg"; "c.jpg"]
             Samples.emptyDb in
  let g := galleryPhotos (fun s => s) "/photos" "Event1" (Directory items) true
             (fst (fst r)) in
  exists job,
    snd g = Some job /\
    galleryListing (map d_name items) <> validatedFiles w "Event1" "/photos/Event1"
                                           ["b.jpg"; "a.jpg"; "c.jpg"] /\
    map original_path (photosOf "Event1"
                         (runSync job (fun _ => "2025-12-20T10:00:00.000Z")
                                  (fun _ => false) (fst (fst r))))
    <> map original_path (photosOf "Event1" (fst (fst r))).
Proof.
  intros items w r g.
  assert (E : scanAndProcessSession w "Event1" "/photos/Event1"
                ["b.jpg"; "a.jpg"; "c.jpg"] Samples.emptyDb
              = (fst (fst r), snd (fst r), Completed "Event1" 3))
    by (vm_compute; reflexivity).
  assert (Hsel : selectSession "Event1" (fst (fst r))
                 = Some (newSession w "Event1" "Event1"))
    by (vm_compute; reflexivity).
  destruct (snd g) as [job |] eqn:Ej; [| vm_compute in Ej; discriminate Ej].
  assert (Eg : g = (fst g, Some job)) by (rewrite <- Ej; now destruct g).
  exists job. split; [reflexivity |].
  assert (Hne : galleryListing (map d_name items)
                <> validatedFiles w "Event1" "/photos/Event1" ["b.jpg"; "a.jpg"; "c.jpg"])
    by (vm_compute; discriminate).
  split; [exact Hne |].
  intros Heq. apply Hne.
  apply (proj1 (gallery_view_keeps_numbering_iff w "Event1" "/photos/Event1"
                  ["b.jpg"; "a.jpg"; "c.jpg"] Samples.emptyDb (fst (fst r))
                  (snd (fst r)) "Event1" 3 (fun s => s) "/photos" items (fst g) job
                  (fun _ => "2025-12-20T10:00:00.000Z") (fun _ => false)
                  (newSession w "Event1" "Event1") E Hsel eq_refl Eg
                  (fun _ => eq_refl))).
  exact Heq.
Defined.
